(** * parsel-email/lib-go: connection configuration and migration CLI

    A shallow embedding of the Go sources

      - [database/libsql/options.go]   (Pragmas, DefaultPragmas, formatDSN)
      - [database/database.go]         (Config, DefaultConfig, Open, WithContext;
                                        libSQL connector variant)
      - [database/sqlite3/database.go] (Open; sqlite3 variant with the "file:" prefix)
      - the older [package database] built directly on go-sqlite3
      - [cmd/migrate/main.go]          (createMigration, getMigrationVersion,
                                        runMigration, openDB, main)

    together with the properties of the specification that concern them.

    Conventions.  Go strings are [string]; [map[string]string] is
    [gmap string string]; [int] and [time.Duration] are [Z]; a Go function
    returning [(T, error)] returns a [Result], inside a [Run] when the call
    can panic; code that talks to [database/sql], the file system or the
    process (log.Fatalf, a panic that ends it) runs in a small state monad
    over the corresponding world. *)

From Stdlib Require Import ZArith String Ascii DecimalString List Lia.
From stdpp Require Import base option list gmap strings.

Open Scope string_scope.

(** ** Go standard library: [strings] *)

Module strings.

(** [strings.HasPrefix(s, prefix)] *)
Definition HasPrefix (s prefix : string) : bool := String.prefix prefix s.

(** [strings.Join(elems, sep)] *)
Definition Join (elems : list string) (sep : string) : string :=
  String.concat sep elems.

(** [strings.Contains(s, substr)] *)
Fixpoint Contains (s substr : string) : bool :=
  String.prefix substr s ||
  match s with
  | EmptyString => false
  | String _ s' => Contains s' substr
  end.

(** [strings.Count(s, string(c))] for a one-byte pattern. *)
Fixpoint CountByte (s : string) (c : ascii) : nat :=
  match s with
  | EmptyString => 0
  | String a s' => (if Ascii.eqb a c then 1 else 0) + CountByte s' c
  end.

End strings.

(** ** Go standard library: [time.Duration] (an int64 count of nanoseconds) *)

Module time.

Local Open Scope Z_scope.

Definition Duration := Z.

Definition Nanosecond : Duration := 1.
Definition Microsecond : Duration := 1000 * Nanosecond.
Definition Millisecond : Duration := 1000 * Microsecond.
Definition Second : Duration := 1000 * Millisecond.
Definition Minute : Duration := 60 * Second.
Definition Hour : Duration := 60 * Minute.

End time.

(** ** [database/libsql/options.go] *)

Module options.

(** [type Pragmas map[string]string] *)
Abbreviation Pragmas := (gmap string string).

(** [DefaultPragmas()]: a fresh map literal with six entries. *)
Definition DefaultPragmas : Pragmas :=
  <["journal_mode" := "WAL"]>
  (<["synchronous" := "NORMAL"]>
  (<["foreign_keys" := "ON"]>
  (<["cache_size" := "-2000"]>
  (<["temp_store" := "MEMORY"]>
  (<["mmap_size" := "268435456"]> ∅))))).

(** [for key, value := range pragmas].  The Go language leaves the order
    in which a range loop visits a map unspecified, and the runtime picks
    a fresh one for every loop.  One execution of the loop is therefore
    parameterised by the order [ord] the runtime happened to choose: the
    [ord]-th arrangement of the entries (any arrangement of the entries
    is the visit order of some [ord], see [rangeMap_complete]). *)
Definition rangeMap (ord : nat) (m : Pragmas) : list (string * string) :=
  let entries := map_to_list m in
  default entries (permutations entries !! ord).

(** The loop body [params = append(params, key+"="+value)]. *)
Definition appendParam (params : list string) (kv : string * string) : list string :=
  (params ++ [kv.1 +:+ "=" +:+ kv.2])%list.

(** [formatDSN(path, pragmas)], in the execution where the range loop
    visits the map in order [ord]. *)
Definition formatDSN (ord : nat) (path : string) (pragmas : Pragmas) : string :=
  let dsn := path in
  let params := foldl appendParam [] (rangeMap ord pragmas) in
  if decide (0 < length params)
  then dsn +:+ ("?" +:+ strings.Join params "&")
  else dsn.

End options.

(** ** Go values shared by the packages below *)

(** A Go result pair [(T, error)]: either the value with a nil error, or the
    zero value with an error.  Errors of [fmt.Errorf("ctx: %w", err)] are
    represented by their message. *)
Inductive Result (A : Type) : Type :=
| Ok (a : A)
| Err (msg : string).
Arguments Ok {A} a.
Arguments Err {A} msg.

(** A call that returns, or stops the goroutine with a run-time panic. *)
Inductive Run (A : Type) : Type :=
| Done (a : A)
| Panic (msg : string).
Arguments Done {A} a.
Arguments Panic {A} msg.

(** The panic of a method call on a nil interface value or nil pointer. *)
Definition nilDereference : string :=
  "runtime error: invalid memory address or nil pointer dereference".

(** [fmt.Errorf(ctx + ": %w", err)] *)
Definition Errorf (ctx err : string) : string := ctx +:+ ": " +:+ err.

(** ** [database/sql] and the libSQL connector, as far as [Open] uses them *)

Module libsql.

(** [libsql.Option]: an interface value, possibly nil. *)
Inductive Option : Type :=
| WithAuthToken (authToken : string)
| NilOption.

Definition isNil (opt : Option) : bool :=
  match opt with
  | NilOption => true
  | WithAuthToken _ => false
  end.

End libsql.

Module sql.

(** What a handle was built from. *)
Inductive Connector : Type :=
| LibsqlConnector (dsn : string) (opts : list libsql.Option)
| DriverDSN (driverName dsn : string).

(** A [*sql.DB]: nil or the address of a handle. *)
Inductive DBptr : Type :=
| NilDB
| PtrDB (addr : nat).

(** The part of a handle's state the connection code can observe. *)
Record DB : Type := mkDB {
  connector : Connector;
  closed : bool
}.

(** Calls made on the driver layer, in program order. *)
Inductive Event : Type :=
| EvNewConnector (dsn : string) (opts : list libsql.Option)
| EvSqlOpen (driverName dsn : string)
| EvSqliteVecAuto
| EvOpenDB (addr : nat)
| EvSetMaxOpenConns (addr : nat) (n : Z)
| EvSetMaxIdleConns (addr : nat) (n : Z)
| EvSetConnMaxLifetime (addr : nat) (d : time.Duration)
| EvSetConnMaxIdleTime (addr : nat) (d : time.Duration)
| EvPing (addr : nat)
| EvClose (addr : nat).

Record World : Type := mkWorld {
  heap : gmap nat DB;
  trace : list Event
}.

Definition emptyWorld : World := mkWorld ∅ [].

(** The behaviour of what lies below the handle: whether building a
    connector or opening a driver fails, whether a ping of a handle gets
    an answer, and whether the driver reports an error when the handle is
    closed. *)
Record Env : Type := mkEnv {
  connector_error : string → list libsql.Option → option string;
  open_error : string → string → option string;
  ping_error : Connector → option string;
  close_error : Connector → option string
}.

(** Stateful code over the handles. *)
Definition IO (A : Type) : Type := World → A * World.

Definition ret {A} (a : A) : IO A := λ w, (a, w).
Definition bind {A B} (k : A → IO B) (m : IO A) : IO B :=
  λ w, let '(a, w') := m w in k a w'.

#[global] Instance IO_ret : MRet IO := @ret.
#[global] Instance IO_bind : MBind IO := @bind.

Definition gets {A} (f : World → A) : IO A := λ w, (f w, w).
Definition modify (f : World → World) : IO unit := λ w, (tt, f w).

Definition log (e : Event) : IO unit :=
  modify (λ w, mkWorld (heap w) (trace w ++ [e])%list).

(** The first address not in use. *)
Definition freshAddr (w : World) : nat := fresh (dom (heap w)).

Definition alloc (c : Connector) : IO nat :=
  λ w, let a := freshAddr w in
       (a, mkWorld (<[a := mkDB c false]> (heap w)) (trace w)).

Definition isClosed (w : World) (a : nat) : bool :=
  match heap w !! a with
  | Some db => closed db
  | None => true
  end.

Definition isOpen (w : World) (a : nat) : bool := negb (isClosed w a).

End sql.

Module sqlapi.
Import sql.

Section WithEnv.
Variable env : Env.

(** [libsql.NewConnector(dbPath, opts...)].  The connector applies
    every option before anything else; applying a nil option is a
    method call on a nil interface value, which panics. *)
Definition NewConnector (dbPath : string) (opts : list libsql.Option)
  : IO (Run (Result Connector)) :=
  log (EvNewConnector dbPath opts) ;;
  if existsb libsql.isNil opts then mret (Panic nilDereference)
  else
    mret (Done match connector_error env dbPath opts with
               | Some err => Err err
               | None => Ok (LibsqlConnector dbPath opts)
               end).

(** [sql.OpenDB(connector)]: never nil, never fails, connects lazily. *)
Definition OpenDB (c : Connector) : IO DBptr :=
  a ← alloc c ;
  log (EvOpenDB a) ;;
  mret (PtrDB a).

(** [sql.Open(driverName, dataSourceName)] *)
Definition Open (driverName dsn : string) : IO (Result DBptr) :=
  log (EvSqlOpen driverName dsn) ;;
  match open_error env driverName dsn with
  | Some err => mret (Err err)
  | None =>
      a ← alloc (DriverDSN driverName dsn) ;
      mret (Ok (PtrDB a))
  end.

Definition SetMaxOpenConns (a : nat) (n : Z) : IO unit := log (EvSetMaxOpenConns a n).
Definition SetMaxIdleConns (a : nat) (n : Z) : IO unit := log (EvSetMaxIdleConns a n).
Definition SetConnMaxLifetime (a : nat) (d : time.Duration) : IO unit :=
  log (EvSetConnMaxLifetime a d).
Definition SetConnMaxIdleTime (a : nat) (d : time.Duration) : IO unit :=
  log (EvSetConnMaxIdleTime a d).

(** [db.Ping()]: nil, or the error of the attempt to reach the database. *)
Definition Ping (a : nat) : IO (option string) :=
  log (EvPing a) ;;
  gets (λ w, match heap w !! a with
             | Some db =>
                 if closed db then Some "sql: database is closed"
                 else ping_error env (connector db)
             | None => Some "sql: database is closed"
             end).

(** [db.Close()]: a handle that is already closed stays so and nil is
    returned; an open one is closed for good, and the error of the
    driver, if any, is returned. *)
Definition Close (a : nat) : IO (option string) :=
  log (EvClose a) ;;
  h ← gets (λ w, heap w !! a) ;
  match h with
  | Some db =>
      if closed db then mret None
      else
        modify (λ w, mkWorld (<[a := mkDB (connector db) true]> (heap w)) (trace w)) ;;
        mret (close_error env (connector db))
  | None => mret None
  end.

End WithEnv.

End sqlapi.

(** ** Go standard library: [context], as far as [WithContext] uses it *)

Module context.

Local Open Scope Z_scope.

(** Contexts form a tree; [id] names the node that a cancel function
    cancels, [deadline] is an instant in nanoseconds. *)
Inductive Context : Type :=
| Background
| cancelCtx (id : nat) (parent : Context)
| timerCtx (id : nat) (parent : Context) (deadline : Z).

(** [ctx.Deadline()] *)
Fixpoint Deadline (ctx : Context) : option Z :=
  match ctx with
  | Background => None
  | cancelCtx _ parent => Deadline parent
  | timerCtx _ _ deadline => Some deadline
  end.

(** A [context.CancelFunc] acts on the set of cancelled nodes. *)
Definition CancelFunc : Type := gset nat → gset nat.

Definition cancel (id : nat) : CancelFunc := λ cancelled, {[id]} ∪ cancelled.

(** [context.WithCancel(parent)]; [id] is the node allocated for it. *)
Definition WithCancel (id : nat) (parent : Context) : Context * CancelFunc :=
  (cancelCtx id parent, cancel id).

(** [context.WithDeadline(parent, d)]: a parent that already ends before
    [d] is only made cancellable. *)
Definition WithDeadline (id : nat) (parent : Context) (d : Z)
  : Context * CancelFunc :=
  match Deadline parent with
  | Some cur =>
      if cur <? d then WithCancel id parent
      else (timerCtx id parent d, cancel id)
  | None => (timerCtx id parent d, cancel id)
  end.

(** [context.WithTimeout(parent, timeout)] at instant [now]. *)
Definition WithTimeout (now : Z) (id : nat) (parent : Context) (timeout : time.Duration)
  : Context * CancelFunc :=
  WithDeadline id parent (now + timeout).

End context.

(** ** [database/database.go]: the libSQL connector variant *)

Module database.
Import sql sqlapi.

(** [type DB struct { *sql.DB }] *)
Record DB : Type := mkDB { DB_ : sql.DBptr }.

Record Config : Type := mkConfig {
  Path : string;
  AuthToken : string;
  MaxOpenConns : Z;
  MaxIdleConns : Z;
  ConnMaxLifetime : time.Duration;
  ConnMaxIdleTime : time.Duration;
  Pragmas : options.Pragmas
}.

Definition DefaultConfig : Config := {|
  Path := ":memory:";
  AuthToken := EmptyString;
  MaxOpenConns := 5;
  MaxIdleConns := 5;
  ConnMaxLifetime := time.Hour;
  ConnMaxIdleTime := (time.Minute * 30)%Z;
  Pragmas := options.DefaultPragmas
|}.

Section WithEnv.
Variable env : Env.

(** [Open(cfg)], in the execution whose range loop over the pragmas
    runs in order [ord].  The first step is the [if ... else] that
    builds the handle; an [Err] out of it is the early [return nil, err]
    inside the branch, and a [Panic] is the panic of the call
    [libsql.NewConnector(dsn, nil)], whose one option is nil. *)
Definition Open (ord : nat) (cfg : Config) : IO (Run (Result DB)) :=
  r ← (if strings.HasPrefix (Path cfg) "libsql://" then
         let connOpts : list libsql.Option := [] in
         let connOpts :=
           if decide (AuthToken cfg ≠ EmptyString)
           then (connOpts ++ [libsql.WithAuthToken (AuthToken cfg)])%list
           else connOpts in
         c ← NewConnector env (Path cfg) connOpts ;
         match c with
         | Panic msg => mret (Panic msg)
         | Done (Err err) =>
             mret (Done (Err (Errorf "creating libSQL connector for remote database" err)))
         | Done (Ok connector) => db ← OpenDB connector ; mret (Done (Ok db))
         end
       else
         let dsn := options.formatDSN ord (Path cfg) (Pragmas cfg) in
         c ← NewConnector env dsn [libsql.NilOption] ;
         match c with
         | Panic msg => mret (Panic msg)
         | Done (Err err) =>
             mret (Done (Err (Errorf "creating libSQL connector for local database" err)))
         | Done (Ok connector) => db ← OpenDB connector ; mret (Done (Ok db))
         end) ;
  match r with
  | Panic msg => mret (Panic msg)
  | Done (Err err) => mret (Done (Err err))
  | Done (Ok NilDB) => mret (Done (Err "failed to create a database connection"))
  | Done (Ok (PtrDB db)) =>
      SetMaxOpenConns db (MaxOpenConns cfg) ;;
      SetMaxIdleConns db (MaxIdleConns cfg) ;;
      SetConnMaxLifetime db (ConnMaxLifetime cfg) ;;
      SetConnMaxIdleTime db (ConnMaxIdleTime cfg) ;;
      err ← Ping env db ;
      match err with
      | Some err =>
          Close env db ;;
          mret (Done (Err (Errorf "pinging database" err)))
      | None => mret (Done (Ok (mkDB (PtrDB db))))
      end
  end.

End WithEnv.

(** [WithContext(ctx, timeout)] at instant [now]; [id] is the node a new
    context would get. *)
Definition WithContext (now : Z) (id : nat)
    (ctx : context.Context) (timeout : time.Duration)
  : context.Context * context.CancelFunc :=
  if decide (timeout > 0)%Z
  then context.WithTimeout now id ctx timeout
  else (ctx, λ cancelled, cancelled).

End database.

(** ** [database/sqlite3/database.go]: the go-sqlite3 variant *)

Module sqlite3.
Import sql sqlapi.

Record Config : Type := mkConfig {
  Path : string;
  AuthToken : string;
  MaxOpenConns : Z;
  MaxIdleConns : Z;
  ConnMaxLifetime : time.Duration;
  ConnMaxIdleTime : time.Duration;
  Pragmas : options.Pragmas
}.

Section WithEnv.
Variable env : Env.

Definition Open (ord : nat) (cfg : Config) : IO (Result sql.DBptr) :=
  let dsn := options.formatDSN ord (Path cfg) (Pragmas cfg) in
  let dsn :=
    if bool_decide (dsn ≠ ":memory:") && negb (strings.HasPrefix dsn "file:")
    then "file:" +:+ dsn
    else dsn in
  log EvSqliteVecAuto ;;
  r ← sqlapi.Open env "sqlite3" dsn ;
  match r with
  | Err err => mret (Err (Errorf "opening database" err))
  | Ok NilDB => mret (Err "failed to create a database connection")
  | Ok (PtrDB db) =>
      SetMaxOpenConns db (MaxOpenConns cfg) ;;
      SetMaxIdleConns db (MaxIdleConns cfg) ;;
      SetConnMaxLifetime db (ConnMaxLifetime cfg) ;;
      SetConnMaxIdleTime db (ConnMaxIdleTime cfg) ;;
      err ← Ping env db ;
      match err with
      | Some err =>
          Close env db ;;
          mret (Err (Errorf "pinging database" err))
      | None => mret (Ok (PtrDB db))
      end
  end.

End WithEnv.

End sqlite3.

(** ** The older [package database], directly on go-sqlite3 *)

Module database_sqlite.
Import sql sqlapi.

Record DB : Type := mkDB { DB_ : sql.DBptr }.

Record Config : Type := mkConfig {
  Path : string;
  MaxOpenConns : Z;
  MaxIdleConns : Z;
  ConnMaxLifetime : time.Duration;
  ConnMaxIdleTime : time.Duration;
  Pragmas : options.Pragmas
}.

Definition DefaultConfig : Config := {|
  Path := ":memory:";
  MaxOpenConns := 5;
  MaxIdleConns := 5;
  ConnMaxLifetime := time.Hour;
  ConnMaxIdleTime := (time.Minute * 30)%Z;
  Pragmas := options.DefaultPragmas
|}.

Section WithEnv.
Variable env : Env.

Definition Open (ord : nat) (cfg : Config) : IO (Result DB) :=
  let dsn := options.formatDSN ord (Path cfg) (Pragmas cfg) in
  r ← sqlapi.Open env "sqlite3" dsn ;
  match r with
  | Err err => mret (Err (Errorf "opening database" err))
  | Ok NilDB =>
      (* not produced by [sql.Open] together with a nil error; this
         variant has no nil check and the next call would panic *)
      mret (Err "panic: runtime error: invalid memory address or nil pointer dereference")
  | Ok (PtrDB db) =>
      SetMaxOpenConns db (MaxOpenConns cfg) ;;
      SetMaxIdleConns db (MaxIdleConns cfg) ;;
      SetConnMaxLifetime db (ConnMaxLifetime cfg) ;;
      SetConnMaxIdleTime db (ConnMaxIdleTime cfg) ;;
      err ← Ping env db ;
      match err with
      | Some err => mret (Err (Errorf "pinging database" err))
      | None => mret (Ok (mkDB (PtrDB db)))
      end
  end.

End WithEnv.

End database_sqlite.

(** ** Go standard library: [path/filepath] (Unix), [fmt] verbs, [os] files *)

Definition nl : string := String (ascii_of_nat 10) EmptyString.

Module fmt.

(** The verb [%d] on an integer. *)
Definition Sprintf_d (n : Z) : string := NilZero.string_of_int (Z.to_int n).

(** The verb [%v] on a bool. *)
Definition Sprintf_v (b : bool) : string := if b then "true" else "false".

End fmt.

Module filepath.

Definition Separator : ascii := "/"%char.

(** [strings.Split(path, "/")]: the segments between separators. *)
Fixpoint split (path : string) : list string :=
  match path with
  | EmptyString => [EmptyString]
  | String c rest =>
      if Ascii.eqb c Separator then EmptyString :: split rest
      else match split rest with
           | seg :: segs => String c seg :: segs
           | [] => [String c EmptyString]
           end
  end.

(** One round of the loop of [Clean] on the segment [seg]: empty and "."
    segments are skipped, ".." removes the last kept segment when there is
    one to remove, and is kept at the front of a path that is not rooted. *)
Definition cleanStep (rooted : bool) (out : list string) (seg : string) : list string :=
  if decide (seg = EmptyString) then out
  else if decide (seg = ".") then out
  else if decide (seg = "..") then
    match last out with
    | Some top =>
        if decide (top = "..") then (out ++ [".."])%list else removelast out
    | None => if rooted then out else [".."]
    end
  else (out ++ [seg])%list.

(** [filepath.Clean(path)] *)
Definition Clean (path : string) : string :=
  if decide (path = EmptyString) then "."
  else
    let rooted := String.prefix "/" path in
    let out := foldl (cleanStep rooted) [] (split path) in
    if rooted then "/" +:+ strings.Join out "/"
    else if decide (out = []) then "."
    else strings.Join out "/".

(** [filepath.Join(elem...)] *)
Fixpoint Join (elem : list string) : string :=
  match elem with
  | [] => EmptyString
  | e :: rest =>
      if decide (e = EmptyString) then Join rest
      else Clean (strings.Join elem "/")
  end.

(** [filepath.Dir(path)]: everything up to the last separator, cleaned. *)
Definition Dir (path : string) : string :=
  let segs := split path in
  Clean (strings.Join (removelast segs) "/" +:+
         (if decide (1 < length segs) then "/" else EmptyString)).

End filepath.

Module os.

Inductive Node : Type :=
| Dir
| File (data : string).

(** The tree below the working directory, keyed by cleaned path (no
    symbolic links; the working directory and the root always exist). *)
Abbreviation FS := (gmap string Node).

Definition lookupNode (fs : FS) (key : string) : option Node :=
  if decide (key = ".") then Some Dir
  else if decide (key = "/") then Some Dir
  else fs !! key.

(** The path text [dir] extended by the segment [seg]. *)
Definition child (dir seg : string) : string :=
  if decide (dir = EmptyString) then seg
  else if decide (dir = "/") then "/" +:+ seg
  else dir +:+ "/" +:+ seg.

(** What the operating system refuses for a reason the tree does not
    show (permissions, a name that is too long, a full or read-only
    disk, an I/O error): the error of making the directory [path], of
    creating or truncating the file [name], and of writing to it, with
    the number of bytes that were written before the error. *)
Record Faults : Type := mkFaults {
  mkdir_fault : string → option string;
  open_fault : string → option string;
  write_fault : string → option (nat * string)
}.

Definition noFaults : Faults :=
  mkFaults (λ _, None) (λ _, None) (λ _, None).

Section WithFaults.
Variable faults : Faults.

(** Make [dir/seg1], [dir/seg1/seg2], ... in turn, as the recursion of
    [MkdirAll] does on its way back: an existing directory is kept, a
    file in the way is the error of [Mkdir].  The directories made
    before an error stay. *)
Fixpoint mkdirs (dir : string) (segs : list string) (fs : FS) : option string * FS :=
  match segs with
  | [] => (None, fs)
  | seg :: rest =>
      let p := child dir seg in
      let key := filepath.Clean p in
      match lookupNode fs key with
      | Some Dir => mkdirs p rest fs
      | Some (File _) => (Some ("mkdir " +:+ p +:+ ": not a directory"), fs)
      | None =>
          match mkdir_fault faults p with
          | Some err => (Some ("mkdir " +:+ p +:+ ": " +:+ err), fs)
          | None => mkdirs p rest (<[key := Dir]> fs)
          end
      end
  end.

(** [os.MkdirAll(path, perm)]: its error and the tree it leaves. *)
Definition MkdirAll (path : string) (fs : FS) : option string * FS :=
  if String.prefix "/" path
  then mkdirs "/" (filter (λ seg, seg ≠ EmptyString) (filepath.split path)) fs
  else mkdirs EmptyString (filter (λ seg, seg ≠ EmptyString) (filepath.split path)) fs.

(** [os.WriteFile(name, data, perm)]: create or truncate, then write.
    A write that fails leaves the file with the bytes written so far. *)
Definition WriteFile (name data : string) (fs : FS) : option string * FS :=
  let key := filepath.Clean name in
  match lookupNode fs (filepath.Dir key) with
  | Some Dir =>
      match lookupNode fs key with
      | Some Dir => (Some ("open " +:+ name +:+ ": is a directory"), fs)
      | _ =>
          match open_fault faults name with
          | Some err => (Some ("open " +:+ name +:+ ": " +:+ err), fs)
          | None =>
              match write_fault faults name with
              | Some (n, err) =>
                  (Some ("write " +:+ name +:+ ": " +:+ err),
                   <[key := File (substring 0 n data)]> fs)
              | None => (None, <[key := File data]> fs)
              end
          end
      end
  | Some (File _) => (Some ("open " +:+ name +:+ ": not a directory"), fs)
  | None => (Some ("open " +:+ name +:+ ": no such file or directory"), fs)
  end.

End WithFaults.

End os.

(** ** [golang-migrate]: the version pointer of the sqlite driver *)

Module migrate.

Local Open Scope Z_scope.

Inductive error : Type :=
| ErrNilVersion
| ErrNoChange
| ErrOther (msg : string).

Definition Error (e : error) : string :=
  match e with
  | ErrNilVersion => "no migration"
  | ErrNoChange => "no change"
  | ErrOther msg => msg
  end.

(** [errors.Is(err, target)] on these unwrapped errors. *)
Definition Is (err target : error) : bool :=
  match err, target with
  | ErrNilVersion, ErrNilVersion => true
  | ErrNoChange, ErrNoChange => true
  | _, _ => false
  end.

Definition NilVersion : Z := -1.

(** [suint(n)]: the conversion to [uint], which refuses a negative
    number by a panic. *)
Definition suint (n : Z) : Run Z :=
  if decide (n < 0)
  then Panic ("suint(" +:+ fmt.Sprintf_d n +:+ ") expects input >= 0")
  else Done n.

(** The reserved table: no row, or one row [(version, dirty)]. *)
Definition VersionTable : Type := option (Z * bool).

(** The sqlite driver's [Version()]: a failed read of the row (no row) is
    reported as [NilVersion] without error. *)
Definition driverVersion (t : VersionTable) : Z * bool * option error :=
  match t with
  | Some (version, dirty) => (version, dirty, None)
  | None => (NilVersion, false, None)
  end.

(** The method [Version()] of a [Migrate] instance. *)
Definition Version (t : VersionTable) : Run (Z * bool * option error) :=
  let '(v, d, err) := driverVersion t in
  match err with
  | Some e => Done (0, false, Some e)
  | None =>
      if decide (v = NilVersion) then Done (0, false, Some ErrNilVersion)
      else
        match suint v with
        | Panic msg => Panic msg
        | Done version => Done (version, d, None)
        end
  end.

End migrate.

(** ** [cmd/migrate/main.go] *)

Module main.

(** What the process can see and change. *)
Record World : Type := mkWorld {
  fs : os.FS;                          (* files below the working directory *)
  stdout : string;                     (* bytes written through fmt *)    
  stderr : list string;                (* messages of the log package and of a panic *)
  environ : gmap string string;        (* os.Getenv *)
  unixTime : Z;                        (* time.Now().Unix() *)
  handles : sql.World;                 (* database/sql handles *)
  versionTable : migrate.VersionTable  (* reserved table of the live database *)
}.

(** The process went on, or ended with the exit status [code]: that of
    [os.Exit(code)], or 2 after a panic. *)
Inductive Outcome (A : Type) : Type :=
| Returned (a : A)
| Exited (code : Z).
Arguments Returned {A} a.
Arguments Exited {A} code.

Definition Proc (A : Type) : Type := World → Outcome A * World.

Definition ret {A} (a : A) : Proc A := λ w, (Returned a, w).
Definition bind {A B} (k : A → Proc B) (m : Proc A) : Proc B :=
  λ w, match m w with
       | (Returned a, w') => k a w'
       | (Exited code, w') => (Exited code, w')
       end.

#[global] Instance Proc_ret : MRet Proc := @ret.
#[global] Instance Proc_bind : MBind Proc := @bind.

Definition gets {A} (f : World → A) : Proc A := λ w, (Returned (f w), w).

Definition setFS (fs' : os.FS) : Proc unit :=
  λ w, (Returned tt,
        mkWorld fs' (stdout w) (stderr w) (environ w) (unixTime w)
                (handles w) (versionTable w)).

(** [fmt.Printf] and [fmt.Println] of the text [s] *)
Definition Printf (s : string) : Proc unit :=
  λ w, (Returned tt,
        mkWorld (fs w) (stdout w +:+ s) (stderr w) (environ w) (unixTime w)
                (handles w) (versionTable w)).

(** [log.Fatalf]: log the message, then [os.Exit(1)]. *)
Definition Fatal {A} (msg : string) : Proc A :=
  λ w, (Exited 1,
        mkWorld (fs w) (stdout w) (stderr w ++ [msg])%list (environ w) (unixTime w)
                (handles w) (versionTable w)).

(** A panic that nothing recovers: the run-time system reports it and
    the process ends with status 2. *)
Definition Crash {A} (msg : string) : Proc A :=
  λ w, (Exited 2,
        mkWorld (fs w) (stdout w) (stderr w ++ ["panic: " +:+ msg])%list (environ w)
                (unixTime w) (handles w) (versionTable w)).

(** Code on the [database/sql] handles, run inside the process. *)
Definition liftIO {A} (m : sql.IO A) : Proc A :=
  λ w, let '(a, h) := m (handles w) in
       (Returned a,
        mkWorld (fs w) (stdout w) (stderr w) (environ w) (unixTime w)
                h (versionTable w)).

(** A file-system call: it changes the tree and returns its error. *)
Definition osCall (f : os.FS → option string * os.FS) : Proc (option string) :=
  fs0 ← gets fs ;
  let '(err, fs') := f fs0 in
  setFS fs' ;;
  mret err.

Definition migrationsDir : string := "./db/migrations".

Definition createMigration (faults : os.Faults) (name : string) : Proc unit :=
  timestamp ← gets unixTime ;
  let upMigration :=
    filepath.Join [migrationsDir; fmt.Sprintf_d timestamp +:+ "_" +:+ name +:+ ".up.sql"] in
  let downMigration :=
    filepath.Join [migrationsDir; fmt.Sprintf_d timestamp +:+ "_" +:+ name +:+ ".down.sql"] in
  err ← osCall (os.MkdirAll faults migrationsDir) ;
  match err with
  | Some err => Fatal ("Failed to create migrations directory: " +:+ err)
  | None =>
      err ← osCall (os.WriteFile faults upMigration ("-- Migration Up" +:+ nl)) ;
      match err with
      | Some err => Fatal ("Failed to create up migration file: " +:+ err)
      | None =>
          err ← osCall (os.WriteFile faults downMigration ("-- Migration Down" +:+ nl)) ;
          match err with
          | Some err => Fatal ("Failed to create down migration file: " +:+ err)
          | None =>
              Printf ("Created migration files:" +:+ nl +:+ upMigration +:+ nl +:+
                     downMigration +:+ nl)
          end
      end
  end.

Definition getDBPath : Proc string :=
  dbPath ← gets (λ w, default EmptyString (environ w !! "DB_PATH")) ;
  let dbPath := if decide (dbPath = EmptyString) then "parsel.db" else dbPath in
  mret dbPath.

(** The two constructors of golang-migrate that can refuse. *)
Record MigrateEnv : Type := mkMigrateEnv {
  withInstance_error : sql.DBptr → option string;
  newInstance_error : string → string → option string
}.

Section WithEnv.
Variable env : sql.Env.
Variable menv : MigrateEnv.

(** [openDB(dbPath)].  Its closing [if err != nil] tests the outer
    [err], which nothing assigns: each branch declares its own.  The
    call [libsql.NewConnector(dbPath, nil)] of the second branch passes
    one nil option. *)
Definition openDB (dbPath : string) : Proc sql.DBptr :=
  if strings.HasPrefix dbPath "libsql://" then
    let connOpts : list libsql.Option := [] in
    c ← liftIO (sqlapi.NewConnector env dbPath connOpts) ;
    match c with
    | Panic msg => Crash msg
    | Done (Err err) => Fatal ("Failed to create libSQL connector: " +:+ err)
    | Done (Ok connector) => liftIO (sqlapi.OpenDB connector)
    end
  else
    c ← liftIO (sqlapi.NewConnector env dbPath [libsql.NilOption]) ;
    match c with
    | Panic msg => Crash msg
    | Done (Err err) => Fatal ("Failed to create libSQL connector: " +:+ err)
    | Done (Ok connector) => liftIO (sqlapi.OpenDB connector)
    end.

Definition getMigrationVersion : Proc unit :=
  dbPath ← getDBPath ;
  h ← openDB dbPath ;
  match withInstance_error menv h with
  | Some err => Fatal ("Failed to connect to database: " +:+ err)
  | None =>
      match newInstance_error menv ("file://" +:+ migrationsDir) "sqlite" with
      | Some err => Fatal ("Failed to create migration instance: " +:+ err)
      | None =>
          r ← gets (λ w, migrate.Version (versionTable w)) ;
          match r with
          | Panic msg => Crash msg
          | Done (version, dirty, err) =>
              match err with
              | Some err =>
                  if migrate.Is err migrate.ErrNilVersion then
                    Printf ("No migrations applied yet" +:+ nl)
                  else
                    Fatal ("Failed to get migration version: " +:+ migrate.Error err)
              | None =>
                  Printf ("Current migration version: " +:+ fmt.Sprintf_d version +:+
                         " (dirty: " +:+ fmt.Sprintf_v dirty +:+ ")" +:+ nl)
              end
          end
      end
  end.

End WithEnv.

End main.

(** ** Vocabulary of the statements *)

Module spec.
Import options.

(** The text of one pragma in the query string. *)
Definition pairParam (kv : string * string) : string := kv.1 +:+ "=" +:+ kv.2.

(** [dsn] is [path], then [sep], then the pragmas of [m] in some order
    with one ["&"] between two of them. *)
Definition joinedWith (sep path : string) (m : Pragmas) (dsn : string) : Prop :=
  ∃ kvs : list (string * string),
    kvs ≡ₚ map_to_list m ∧
    dsn = path +:+ (sep +:+ strings.Join (pairParam <$> kvs) "&").

(** [path] followed by the query string made of [params], if any. *)
Definition withQuery (path : string) (params : list string) : string :=
  match params with
  | [] => path
  | _ => path +:+ ("?" +:+ strings.Join params "&")
  end.

(** No ["?"] in the path nor in any name or value of [m]. *)
Definition queryFree (path : string) (m : Pragmas) : Prop :=
  strings.CountByte path "?" = 0 ∧
  ∀ k v, m !! k = Some v →
         strings.CountByte k "?" = 0 ∧ strings.CountByte v "?" = 0.

Import sql.

(** The calls that configure the pool of handle [a] and ping it. *)
Definition poolCalls (a : nat) (maxOpen maxIdle : Z) (life idle : time.Duration)
  : list Event :=
  [EvSetMaxOpenConns a maxOpen; EvSetMaxIdleConns a maxIdle;
   EvSetConnMaxLifetime a life; EvSetConnMaxIdleTime a idle; EvPing a].

(** The arguments of the one [libsql.NewConnector] call of [database.Open]. *)
Definition connectorDSN (ord : nat) (cfg : database.Config) : string :=
  if strings.HasPrefix (database.Path cfg) "libsql://"
  then database.Path cfg
  else options.formatDSN ord (database.Path cfg) (database.Pragmas cfg).

Definition connectorOpts (cfg : database.Config) : list libsql.Option :=
  if strings.HasPrefix (database.Path cfg) "libsql://"
  then if decide (database.AuthToken cfg = EmptyString) then []
       else [libsql.WithAuthToken (database.AuthToken cfg)]
  else [libsql.NilOption].

(** The data source name [sqlite3.Open] hands to [sql.Open]. *)
Definition sqlite3DSN (ord : nat) (cfg : sqlite3.Config) : string :=
  let dsn := options.formatDSN ord (sqlite3.Path cfg) (sqlite3.Pragmas cfg) in
  if bool_decide (dsn ≠ ":memory:") && negb (strings.HasPrefix dsn "file:")
  then "file:" +:+ dsn
  else dsn.

(** An event that builds a connector or opens a driver. *)
Definition isConnect (e : Event) : Prop :=
  match e with
  | EvNewConnector _ _ | EvSqlOpen _ _ => True
  | _ => False
  end.

(** Running [m] from [w] asks once for a connector, with [dsn] and [opts]
    and before anything else, and a handle it returns is open and built
    from that connector. *)
Definition buildsFrom (m : IO (Run (Result database.DB))) (w : World)
    (dsn : string) (opts : list libsql.Option) : Prop :=
  (∃ rest, trace (m w).2 = (trace w ++ EvNewConnector dsn opts :: rest)%list ∧
           Forall (λ e, ¬ isConnect e) rest) ∧
  (∀ db, (m w).1 = Done (Ok db) →
         ∃ a, database.DB_ db = PtrDB a ∧
              heap (m w).2 !! a = Some (mkDB (LibsqlConnector dsn opts) false)).

(** Every handle that exists in [w'] but not in [w] is closed. *)
Definition newHandlesClosed (w w' : World) : Prop :=
  ∀ a, heap w !! a = None → isOpen w' a = false.

(** No separator in [s]. *)
Abbreviation nosep s := (strings.CountByte s filepath.Separator = 0).

(** A plain segment: without separator, not empty, not "." and not "..". *)
Definition plain (seg : string) : Prop :=
  nosep seg ∧ seg ≠ EmptyString ∧ seg ≠ "." ∧ seg ≠ "..".

(** [dir] is missing or a directory in [fs]: [MkdirAll] can have it. *)
Definition dirOrFree (fs : os.FS) (dir : string) : Prop :=
  fs !! dir = None ∨ fs !! dir = Some os.Dir.

(** The path [createMigration] means for the migration [name] created at
    [timestamp], with [suffix] one of [".up.sql"] and [".down.sql"]. *)
Definition migrationPath (timestamp : Z) (name suffix : string) : string :=
  "db/migrations/" +:+ fmt.Sprintf_d timestamp +:+ "_" +:+ name +:+ suffix.

(** The operating system refuses none of the calls that make the
    migrations directory and write the two files of the migration [name]
    created at [timestamp]. *)
Definition unhindered (faults : os.Faults) (timestamp : Z) (name : string) : Prop :=
  os.mkdir_fault faults "./db" = None ∧
  os.mkdir_fault faults "./db/migrations" = None ∧
  ∀ suffix, suffix = ".up.sql" ∨ suffix = ".down.sql" →
            os.open_fault faults (migrationPath timestamp name suffix) = None ∧
            os.write_fault faults (migrationPath timestamp name suffix) = None.

End spec.

(** ** Further code of the same files *)

(** *** [database/database.go]: the method [Close] of [*DB] *)

Module database_DB.
Import sql sqlapi.

(** [func (db *DB) Close() error]: the embedded [*sql.DB] is closed and
    its error, if any, wrapped. *)
Definition Close (env : Env) (db : database.DB) : IO (Run (option string)) :=
  match database.DB_ db with
  | NilDB => mret (Panic nilDereference)
  | PtrDB a =>
      err ← sqlapi.Close env a ;
      match err with
      | Some err => mret (Done (Some (Errorf "closing database" err)))
      | None => mret (Done None)
      end
  end.

End database_DB.

(** *** The earlier [sqlite3.Open], which asks for FTS5 and JSON in the
    data source name *)

Module sqlite3_fts5.
Import sql sqlapi.

Section WithEnv.
Variable env : Env.

Definition Open (ord : nat) (cfg : sqlite3.Config) : IO (Result sql.DBptr) :=
  let dsn := options.formatDSN ord (sqlite3.Path cfg) (sqlite3.Pragmas cfg) in
  let dsn :=
    if bool_decide (dsn ≠ ":memory:") && negb (strings.HasPrefix dsn "file:")
    then "file:" +:+ dsn
    else dsn in
  let dsn :=
    if strings.Contains dsn "?"
    then dsn +:+ "&_fts5=1&_json=1"
    else dsn +:+ "?_fts5=1&_json=1" in
  r ← sqlapi.Open env "sqlite3" dsn ;
  match r with
  | Err err => mret (Err (Errorf "opening database" err))
  | Ok NilDB => mret (Err "failed to create a database connection")
  | Ok (PtrDB db) =>
      SetMaxOpenConns db (sqlite3.MaxOpenConns cfg) ;;
      SetMaxIdleConns db (sqlite3.MaxIdleConns cfg) ;;
      SetConnMaxLifetime db (sqlite3.ConnMaxLifetime cfg) ;;
      SetConnMaxIdleTime db (sqlite3.ConnMaxIdleTime cfg) ;;
      err ← Ping env db ;
      match err with
      | Some err =>
          Close env db ;;
          mret (Err (Errorf "pinging database" err))
      | None => mret (Ok (PtrDB db))
      end
  end.

End WithEnv.

End sqlite3_fts5.

(** *** [DeserializeFloat32] of the earlier [package sqlite3] *)

Module vec.

Local Open Scope Z_scope.

(** [binary.LittleEndian.Uint32] of four bytes. *)
Definition Uint32 (b0 b1 b2 b3 : Byte.byte) : Z :=
  Z.lor (Z.of_N (Byte.to_N b0))
    (Z.lor (Z.shiftl (Z.of_N (Byte.to_N b1)) 8)
       (Z.lor (Z.shiftl (Z.of_N (Byte.to_N b2)) 16)
              (Z.shiftl (Z.of_N (Byte.to_N b3)) 24))).

Section WithFloat.
(** The type [float32] and the value [binary.Read] stores for a 32-bit
    pattern. *)
Variable float32 : Type.
Variable ofBits : Z → float32.

(** Fill [count] elements from the front of [data]. *)
Fixpoint readElems (count : nat) (data : list Byte.byte) : option (list float32) :=
  match count with
  | O => Some []
  | S count' =>
      match data with
      | b0 :: b1 :: b2 :: b3 :: rest =>
          match readElems count' rest with
          | Some v => Some (ofBits (Uint32 b0 b1 b2 b3) :: v)
          | None => None
          end
      | _ => None
      end
  end.

(** [binary.Read(buf, binary.LittleEndian, &vector)] for a vector of
    [count] elements: all of its bytes are read first, and running out
    of them is [io.EOF] at the very start and [io.ErrUnexpectedEOF]
    after that. *)
Definition binaryRead (data : list Byte.byte) (count : nat) : Result (list float32) :=
  match readElems count data with
  | Some v => Ok v
  | None =>
      if decide (data = []) then Err "EOF" else Err "unexpected EOF"
  end.

Definition DeserializeFloat32 (data : list Byte.byte) : Result (list float32) :=
  if decide ((length data mod 4)%nat ≠ 0%nat)
  then Err "invalid data length: must be a multiple of 4"
  else
    let count := (length data / 4)%nat in
    match binaryRead data count with
    | Err err => Err err
    | Ok vector => Ok vector
    end.

End WithFloat.

End vec.

(** *** [cmd/migrate/main.go]: [runMigration] and [main] *)

Module cmd.
Import main.

Section WithEnv.
Variable env : sql.Env.
Variable menv : MigrateEnv.

(** [runMigration(migrateFn)]; [migrateFn] is what the function given by
    the caller does with the migrate instance, and its error. *)
Definition runMigration (migrateFn : Proc (option migrate.error)) : Proc unit :=
  dbPath ← getDBPath ;
  h ← openDB env dbPath ;
  match withInstance_error menv h with
  | Some err => Fatal ("Failed to connect to database: " +:+ err)
  | None =>
      match newInstance_error menv ("file://" +:+ migrationsDir) "sqlite" with
      | Some err => Fatal ("Failed to create migration instance: " +:+ err)
      | None =>
          err ← migrateFn ;
          match err with
          | Some err =>
              if migrate.Is err migrate.ErrNoChange then
                Printf ("No migration needed" +:+ nl)
              else
                Fatal ("Migration failed: " +:+ migrate.Error err)
          | None => Printf ("Migration successful" +:+ nl)
          end
      end
  end.

(** [main()], with [args] the result of [flag.Args()] and [Up], [Down]
    the methods of the migrate instance. *)
Definition main (faults : os.Faults) (Up Down : Proc (option migrate.error))
    (args : list string) : Proc unit :=
  match args with
  | [] => Fatal "Command is required: new, up, down, version"
  | cmd :: _ =>
      if decide (cmd = "new") then
        if decide (length args ≠ 2%nat) then Fatal "Migration name is required"
        else createMigration faults (default EmptyString (args !! 1%nat))
      else if decide (cmd = "up") then runMigration Up
      else if decide (cmd = "down") then runMigration Down
      else if decide (cmd = "version") then getMigrationVersion env menv
      else Fatal ("Unknown command: " +:+ cmd)
  end.

End WithEnv.

End cmd.

(** *** Vocabulary of the further statements *)

Module spec2.
Import main.

(** [w] with the handles [h], with one more logged message, with more
    output. *)
Definition setHandles (h : sql.World) (w : World) : World :=
  mkWorld (fs w) (stdout w) (stderr w) (environ w) (unixTime w) h (versionTable w).

Definition logged (msg : string) (w : World) : World :=
  mkWorld (fs w) (stdout w) (stderr w ++ [msg])%list (environ w) (unixTime w)
          (handles w) (versionTable w).

Definition printed (s : string) (w : World) : World :=
  mkWorld (fs w) (stdout w +:+ s) (stderr w) (environ w) (unixTime w)
          (handles w) (versionTable w).

Definition setFiles (files : os.FS) (w : World) : World :=
  mkWorld files (stdout w) (stderr w) (environ w) (unixTime w)
          (handles w) (versionTable w).

(** The two paths [createMigration name] computes in [w], and the two
    texts it writes. *)
Definition upMigration (name : string) (w : World) : string :=
  filepath.Join [migrationsDir;
                 fmt.Sprintf_d (unixTime w) +:+ "_" +:+ name +:+ ".up.sql"].

Definition downMigration (name : string) (w : World) : string :=
  filepath.Join [migrationsDir;
                 fmt.Sprintf_d (unixTime w) +:+ "_" +:+ name +:+ ".down.sql"].

Definition upText : string := "-- Migration Up" +:+ nl.
Definition downText : string := "-- Migration Down" +:+ nl.

(** The options [openDB] passes for [dbPath]: none for a remote URL, the
    nil it writes for a local file. *)
Definition openOpts (dbPath : string) : list libsql.Option :=
  if strings.HasPrefix dbPath "libsql://" then [] else [libsql.NilOption].

(** The handles after [openDB dbPath] has built its connector and opened
    a handle on it. *)
Definition opened (dbPath : string) (h : sql.World) : sql.World :=
  sql.mkWorld
    (<[sql.freshAddr h := sql.mkDB (sql.LibsqlConnector dbPath (openOpts dbPath)) false]>
       (sql.heap h))
    (sql.trace h ++ [sql.EvNewConnector dbPath (openOpts dbPath);
                     sql.EvOpenDB (sql.freshAddr h)])%list.

(** The handles after [openDB dbPath] was refused its connector. *)
Definition refused (dbPath : string) (h : sql.World) : sql.World :=
  sql.mkWorld (sql.heap h)
    (sql.trace h ++ [sql.EvNewConnector dbPath (openOpts dbPath)])%list.

(** What [getDBPath] returns in [w]. *)
Definition dbPathOf (w : World) : string :=
  match environ w !! "DB_PATH" with
  | Some p => if decide (p = EmptyString) then "parsel.db" else p
  | None => "parsel.db"
  end.

Import filepath spec.

(** Segments kept by [Clean]: some [".."] first (none in a rooted path),
    then plain segments. *)
Definition kept (rooted : bool) (out : list string) : Prop :=
  ∃ dots plains,
    out = (dots ++ plains)%list ∧
    Forall (λ seg, seg = "..") dots ∧
    Forall plain plains ∧
    (rooted = true → dots = []).

End spec2.

(** * Properties *)

(** ** The connection-string formatter *)

Section FormatDSN.
Import options spec.

Lemma rangeMap_Permutation ord (m : Pragmas) : rangeMap ord m ≡ₚ map_to_list m.
Proof.
  unfold rangeMap; cbn zeta.
  destruct (permutations (map_to_list m) !! ord) as [l|] eqn:Hl; cbn; [|done].
  symmetry. apply permutations_Permutation.
  eapply list_elem_of_lookup_2; eauto.
Qed.

Lemma rangeMap_complete (m : Pragmas) (l : list (string * string)) :
  l ≡ₚ map_to_list m → ∃ ord, rangeMap ord m = l.
Proof.
  intros Hp. symmetry in Hp. apply permutations_Permutation in Hp.
  apply list_elem_of_lookup_1 in Hp as [ord Hord].
  exists ord. unfold rangeMap; cbn zeta. by rewrite Hord.
Qed.

Lemma rangeMap_empty ord : rangeMap ord ∅ = [].
Proof.
  apply Permutation_nil_r. rewrite rangeMap_Permutation.
  by rewrite map_to_list_empty.
Qed.

Lemma rangeMap_nonempty ord (m : Pragmas) : m ≠ ∅ → rangeMap ord m ≠ [].
Proof.
  intros Hm Hnil. apply Hm, map_to_list_empty_iff.
  apply Permutation_nil_r. by rewrite <- rangeMap_Permutation, Hnil.
Qed.

Lemma foldl_appendParam (kvs : list (string * string)) (acc : list string) :
  foldl appendParam acc kvs = (acc ++ (pairParam <$> kvs))%list.
Proof.
  revert acc. induction kvs as [|kv kvs IH]; intros acc; cbn.
  - by rewrite app_nil_r.
  - rewrite IH. unfold appendParam, pairParam. by rewrite <- app_assoc.
Qed.

(** [formatDSN] without the accumulator. *)
Lemma formatDSN_unfold ord path (m : Pragmas) :
  formatDSN ord path m =
    match rangeMap ord m with
    | [] => path
    | kvs => path +:+ ("?" +:+ strings.Join (pairParam <$> kvs) "&")
    end.
Proof.
  unfold formatDSN; cbn zeta. rewrite foldl_appendParam, app_nil_l.
  destruct (rangeMap ord m) as [|kv kvs]; cbn [fmap list_fmap length].
  - by rewrite decide_False by lia.
  - by rewrite decide_True by lia.
Qed.

Lemma formatDSN_empty ord path : formatDSN ord path ∅ = path.
Proof. by rewrite formatDSN_unfold, rangeMap_empty. Qed.

Lemma formatDSN_nonempty ord path (m : Pragmas) :
  m ≠ ∅ →
  formatDSN ord path m =
    path +:+ ("?" +:+ strings.Join (pairParam <$> rangeMap ord m) "&").
Proof.
  intros Hm. rewrite formatDSN_unfold.
  pose proof (rangeMap_nonempty ord m Hm). by destruct (rangeMap ord m).
Qed.

End FormatDSN.

Section FormatDSNClaims.
Import options spec.

Lemma CountByte_app (s t : string) c :
  strings.CountByte (s +:+ t) c = strings.CountByte s c + strings.CountByte t c.
Proof.
  induction s as [|a s IH]; [done|].
  change (String a s +:+ t) with (String a (s +:+ t)).
  cbn [strings.CountByte]. rewrite IH. lia.
Qed.

Lemma CountByte_Join (elems : list string) (sep : string) c :
  strings.CountByte sep c = 0 →
  (∀ e, e ∈ elems → strings.CountByte e c = 0) →
  strings.CountByte (strings.Join elems sep) c = 0.
Proof.
  intros Hsep. unfold strings.Join.
  induction elems as [|e [|e' elems] IH]; intros He; [done|..].
  - apply He. by left.
  - change (String.concat sep (e :: e' :: elems))
      with (e +:+ sep +:+ String.concat sep (e' :: elems)).
    rewrite !CountByte_app, Hsep, (He e) by (by left).
    rewrite IH; [done|]. intros x Hx. apply He. by right.
Qed.

(** C5.  Formatting a path with an empty pragma mapping returns the path
    itself, whatever the path is (the in-memory sentinel included): no
    separator and no query string are appended. *)
Theorem formatDSN_empty_pragmas :
  ∀ (ord : nat) (path : string),
    formatDSN ord path ∅ = path ∧ formatDSN ord ":memory:" ∅ = ":memory:".
Proof.
  intros ord path. by rewrite !formatDSN_empty.
Qed.

(** C1, as the claim states it, fails: on a path that already carries a
    query, the pragmas are not joined with ["&"]; a second ["?"] is
    written. *)
Lemma formatDSN_query_path_counterexample :
  strings.Contains "file:test.db?cache=shared" "?" = true ∧
  ({["a" := "1"]} : Pragmas) ≠ ∅ ∧
  formatDSN 0 "file:test.db?cache=shared" {["a" := "1"]}
    = "file:test.db?cache=shared?a=1" ∧
  ¬ joinedWith "&" "file:test.db?cache=shared" {["a" := "1"]}
      (formatDSN 0 "file:test.db?cache=shared" {["a" := "1"]}) ∧
  strings.CountByte (formatDSN 0 "file:test.db?cache=shared" {["a" := "1"]}) "?" = 2.
Proof.
  split; [by vm_compute|]. split; [by apply insert_non_empty|].
  split; [by vm_compute|]. split; [|by vm_compute].
  intros (kvs & Hperm & Heq).
  rewrite map_to_list_singleton in Hperm.
  apply Permutation_singleton_r in Hperm as ->.
  vm_compute in Heq. discriminate Heq.
Qed.

(** C1, amended.  For every path and every non-empty pragma mapping the
    formatter appends one ["?"] and then the [name=value] pairs, in the
    order the range loop visits them, with one ["&"] between two pairs;
    it does so whether or not the path contains a ["?"].  When neither
    the path nor a name or value contains ["?"], the result contains
    exactly one. *)
Theorem formatDSN_joins_with_question_mark :
  ∀ (ord : nat) (path : string) (pragmas : Pragmas),
    pragmas ≠ ∅ →
    formatDSN ord path pragmas =
      path +:+ ("?" +:+ strings.Join (pairParam <$> rangeMap ord pragmas) "&") ∧
    joinedWith "?" path pragmas (formatDSN ord path pragmas) ∧
    (queryFree path pragmas →
     strings.CountByte (formatDSN ord path pragmas) "?" = 1).
Proof.
  intros ord path pragmas Hne.
  pose proof (formatDSN_nonempty ord path pragmas Hne) as Heq.
  split; [done|]. split.
  - exists (rangeMap ord pragmas). split; [apply rangeMap_Permutation | done].
  - intros [Hpath Hkv]. rewrite Heq, !CountByte_app, Hpath.
    rewrite CountByte_Join; [done..|].
    intros e [[k v] [-> Hin]]%list_elem_of_fmap.
    rewrite rangeMap_Permutation in Hin.
    apply elem_of_map_to_list in Hin. destruct (Hkv k v Hin) as [Hk Hv].
    unfold pairParam; cbn [fst snd]. rewrite !CountByte_app, Hk, Hv. done.
Qed.

Lemma formatDSN_joins_with_question_mark_witness :
  formatDSN 1 "test.db" (<["a" := "1"]> {["b" := "2"]}) = "test.db?b=2&a=1" ∧
  strings.CountByte (formatDSN 1 "test.db" (<["a" := "1"]> {["b" := "2"]})) "?" = 1.
Proof.
  destruct (formatDSN_joins_with_question_mark 1 "test.db"
              (<["a" := "1"]> {["b" := "2"]})) as (Heq & _ & Hcount).
  - by apply insert_non_empty.
  - split.
    + rewrite Heq. by vm_compute.
    + apply Hcount. split; [by vm_compute|].
      intros k v Hkv.
      apply lookup_insert_Some in Hkv as [[<- <-]|[_ Hkv]]; [by vm_compute|].
      apply lookup_singleton_Some in Hkv as [<- <-]. by vm_compute.
Defined.

End FormatDSNClaims.

Section FormatDSNOrder.
Import options spec.

Lemma Permutation_short {A} (l k : list A) : l ≡ₚ k → (length l ≤ 1)%nat → l = k.
Proof.
  intros Hp Hlen. destruct l as [|x [|y l]]; cbn in Hlen; [| |lia].
  - by apply Permutation_nil_l in Hp.
  - by apply Permutation_singleton_l in Hp.
Qed.

Lemma formatDSN_withQuery ord path (m : Pragmas) :
  formatDSN ord path m = withQuery path (pairParam <$> rangeMap ord m).
Proof. rewrite formatDSN_unfold. by destruct (rangeMap ord m). Qed.

(** C2, as the claim states it, fails: the same path and the same mapping
    give two different strings in two executions whose range loops visit
    the two entries in different orders. *)
Lemma formatDSN_order_counterexample :
  formatDSN 0 "test.db" (<["a" := "1"]> {["b" := "2"]}) = "test.db?a=1&b=2" ∧
  formatDSN 1 "test.db" (<["a" := "1"]> {["b" := "2"]}) = "test.db?b=2&a=1" ∧
  formatDSN 0 "test.db" (<["a" := "1"]> {["b" := "2"]})
    ≠ formatDSN 1 "test.db" (<["a" := "1"]> {["b" := "2"]}).
Proof. by vm_compute. Qed.

(** C2, amended.  The result of the formatter is a function of the path,
    the mapping and the order in which the range loop visits the mapping.
    Two invocations on the same path and mapping return the same string
    when their loops visit the entries in the same order, which is always
    so for a mapping with at most one entry; in general both results are
    the path followed by a query string of the same [name=value] pairs,
    each once, possibly in different orders. *)
Theorem formatDSN_determined_up_to_order :
  ∀ (path : string) (pragmas : Pragmas) (ord1 ord2 : nat),
    (rangeMap ord1 pragmas = rangeMap ord2 pragmas →
     formatDSN ord1 path pragmas = formatDSN ord2 path pragmas) ∧
    ((size pragmas ≤ 1)%nat →
     formatDSN ord1 path pragmas = formatDSN ord2 path pragmas) ∧
    ∃ params1 params2 : list string,
      params1 ≡ₚ params2 ∧
      params1 ≡ₚ pairParam <$> map_to_list pragmas ∧
      formatDSN ord1 path pragmas = withQuery path params1 ∧
      formatDSN ord2 path pragmas = withQuery path params2.
Proof.
  intros path pragmas ord1 ord2.
  pose proof (rangeMap_Permutation ord1 pragmas) as H1.
  pose proof (rangeMap_Permutation ord2 pragmas) as H2.
  split; [|split].
  - intros Heq. by rewrite !formatDSN_withQuery, Heq.
  - intros Hsize. rewrite !formatDSN_withQuery.
    rewrite (Permutation_short (rangeMap ord1 pragmas) (rangeMap ord2 pragmas)); [done|..].
    + by rewrite H1, H2.
    + by rewrite H1, length_map_to_list.
  - exists (pairParam <$> rangeMap ord1 pragmas), (pairParam <$> rangeMap ord2 pragmas).
    rewrite <- !formatDSN_withQuery. split; [by rewrite H1, H2|].
    split; [by rewrite H1|done].
Qed.

Lemma formatDSN_determined_up_to_order_witness :
  formatDSN 0 "test.db" {["a" := "1"]} = formatDSN 7 "test.db" {["a" := "1"]}.
Proof.
  destruct (formatDSN_determined_up_to_order "test.db" {["a" := "1"]} 0 7)
    as (_ & Hsmall & _).
  apply Hsmall. rewrite map_size_singleton. lia.
Defined.

End FormatDSNOrder.

(** ** Default configuration *)

Section Defaults.
Import database.
Local Open Scope Z_scope.

(** C4.  [DefaultConfig()] is the in-memory sentinel path, an empty auth
    token, five open and five idle connections, a maximum lifetime of one
    hour and a maximum idle time of thirty minutes (in nanoseconds), and
    the pragma set with exactly the six default entries. *)
Theorem DefaultConfig_values :
  Path DefaultConfig = ":memory:" ∧
  AuthToken DefaultConfig = EmptyString ∧
  MaxOpenConns DefaultConfig = 5 ∧
  MaxIdleConns DefaultConfig = 5 ∧
  ConnMaxLifetime DefaultConfig = 3600 * 1000000000 ∧
  ConnMaxIdleTime DefaultConfig = 30 * 60 * 1000000000 ∧
  Pragmas DefaultConfig =
    list_to_map [("journal_mode", "WAL"); ("synchronous", "NORMAL");
                 ("foreign_keys", "ON"); ("cache_size", "-2000");
                 ("temp_store", "MEMORY"); ("mmap_size", "268435456")] ∧
  size (Pragmas DefaultConfig) = 6%nat ∧
  Pragmas DefaultConfig !! "journal_mode" = Some "WAL" ∧
  Pragmas DefaultConfig !! "synchronous" = Some "NORMAL" ∧
  Pragmas DefaultConfig !! "foreign_keys" = Some "ON" ∧
  Pragmas DefaultConfig !! "cache_size" = Some "-2000" ∧
  Pragmas DefaultConfig !! "temp_store" = Some "MEMORY" ∧
  Pragmas DefaultConfig !! "mmap_size" = Some "268435456".
Proof. repeat split; by vm_compute. Qed.

End Defaults.

(** ** Timeouts *)

Section Timeouts.
Import context database.
Local Open Scope Z_scope.

Lemma WithDeadline_Deadline id parent d :
  Deadline (WithDeadline id parent d).1 =
    Some (match Deadline parent with
          | Some cur => Z.min cur d
          | None => d
          end).
Proof.
  unfold WithDeadline.
  destruct (Deadline parent) as [cur|] eqn:Hp; [|done].
  destruct (Z.ltb_spec cur d); cbn.
  - rewrite Hp. f_equal. lia.
  - f_equal. lia.
Qed.

(** C6.  With a timeout of zero or less, [WithContext] returns the parent
    context itself, with the deadline (if any) it already had, and a
    cancel function that changes nothing.  With a positive timeout it
    returns the context of [context.WithTimeout], whose deadline is the
    current instant plus the timeout, or the parent's deadline when that
    one comes earlier. *)
Theorem WithContext_cases :
  ∀ (now : Z) (id : nat) (ctx : Context) (timeout : time.Duration),
    (timeout ≤ 0 →
     (WithContext now id ctx timeout).1 = ctx ∧
     Deadline (WithContext now id ctx timeout).1 = Deadline ctx ∧
     ∀ cancelled, (WithContext now id ctx timeout).2 cancelled = cancelled) ∧
    (timeout > 0 →
     WithContext now id ctx timeout = WithTimeout now id ctx timeout ∧
     (WithContext now id ctx timeout).1 ≠ ctx ∧
     ∃ deadline,
       Deadline (WithContext now id ctx timeout).1 = Some deadline ∧
       deadline ≤ now + timeout ∧
       deadline = match Deadline ctx with
                  | Some cur => Z.min cur (now + timeout)
                  | None => now + timeout
                  end).
Proof.
  intros now id ctx timeout. unfold WithContext. split; intros Ht.
  - rewrite decide_False by lia. done.
  - rewrite decide_True by lia. split; [done|]. split.
    + unfold WithTimeout, WithDeadline, WithCancel.
      assert (∀ i d, timerCtx i ctx d ≠ ctx) as Htimer.
      { clear. induction ctx; intros i d; try discriminate.
        intros [= -> Hc ->]. by eapply IHctx. }
      assert (∀ i, cancelCtx i ctx ≠ ctx) as Hc.
      { clear. induction ctx; intros i; try discriminate.
        intros [= -> Hc]. by eapply IHctx. }
      destruct (Deadline ctx) as [cur|]; [destruct (cur <? now + timeout)|];
        cbn; auto.
    + eexists. split; [apply WithDeadline_Deadline|].
      split; [|done]. destruct (Deadline ctx); lia.
Qed.

Lemma WithContext_cases_witness :
  (WithContext 100 0 Background 0).1 = Background ∧
  Deadline (WithContext 100 0 (timerCtx 0 Background 120) 50).1 = Some 120 ∧
  Deadline (WithContext 100 0 Background 50).1 = Some 150.
Proof.
  split; [|split].
  - destruct (WithContext_cases 100 0 Background 0) as [Hle _].
    apply Hle. lia.
  - destruct (WithContext_cases 100 0 (timerCtx 0 Background 120) 50) as [_ Hgt].
    destruct Hgt as (_ & _ & deadline & -> & _ & ->); [lia|]. reflexivity.
  - destruct (WithContext_cases 100 0 Background 50) as [_ Hgt].
    destruct Hgt as (_ & _ & deadline & -> & _ & ->); [lia|]. reflexivity.
Defined.

End Timeouts.

(** ** Opening a handle *)

Section OpenRuns.
Import sql sqlapi spec.

Ltac run_io :=
  unfold NewConnector, OpenDB, sqlapi.Open, SetMaxOpenConns, SetMaxIdleConns,
    SetConnMaxLifetime, SetConnMaxIdleTime, Ping, Close, log, alloc,
    modify, gets;
  unfold mbind, mret, IO_bind, IO_ret, bind, ret; cbn;
  repeat (first [rewrite lookup_insert_eq | rewrite insert_insert_eq]; cbn).

Variable env : Env.

(** The options of a remote path hold no nil. *)
Lemma connectorOpts_remote cfg :
  strings.HasPrefix (database.Path cfg) "libsql://" = true →
  existsb libsql.isNil (connectorOpts cfg) = false.
Proof.
  unfold connectorOpts. intros ->. by destruct (decide (_ = EmptyString)).
Qed.

(** On a local path the connector is asked for with one nil option: the
    call panics and nothing else happens. *)
Lemma database_Open_local_panics ord cfg w :
  strings.HasPrefix (database.Path cfg) "libsql://" = false →
  database.Open env ord cfg w =
    (Panic nilDereference,
     mkWorld (heap w)
             (trace w ++ [EvNewConnector (connectorDSN ord cfg) (connectorOpts cfg)])).
Proof.
  unfold connectorDSN, connectorOpts, database.Open. intros ->. by run_io.
Qed.

(** *** [database.Open] *)

Lemma database_Open_connector_fails ord cfg w err :
  strings.HasPrefix (database.Path cfg) "libsql://" = true →
  connector_error env (connectorDSN ord cfg) (connectorOpts cfg) = Some err →
  database.Open env ord cfg w =
    (Done (Err (Errorf "creating libSQL connector for remote database" err)),
     mkWorld (heap w)
             (trace w ++ [EvNewConnector (connectorDSN ord cfg) (connectorOpts cfg)])).
Proof.
  unfold connectorDSN, connectorOpts, database.Open. intros -> Herr.
  destruct (decide (_ = EmptyString)).
  - rewrite decide_False by tauto. run_io. by rewrite Herr.
  - rewrite decide_True by tauto. run_io. by rewrite Herr.
Qed.

Lemma database_Open_ping_fails ord cfg w err :
  let c := LibsqlConnector (connectorDSN ord cfg) (connectorOpts cfg) in
  let a := freshAddr w in
  strings.HasPrefix (database.Path cfg) "libsql://" = true →
  connector_error env (connectorDSN ord cfg) (connectorOpts cfg) = None →
  ping_error env c = Some err →
  database.Open env ord cfg w =
    (Done (Err (Errorf "pinging database" err)),
     mkWorld (<[a := mkDB c true]> (heap w))
             (trace w ++
              [EvNewConnector (connectorDSN ord cfg) (connectorOpts cfg); EvOpenDB a] ++
              poolCalls a (database.MaxOpenConns cfg) (database.MaxIdleConns cfg)
                        (database.ConnMaxLifetime cfg) (database.ConnMaxIdleTime cfg) ++
              [EvClose a])).
Proof.
  intros c a. subst c a.
  unfold connectorDSN, connectorOpts, database.Open, poolCalls.
  intros -> Hconn Hping.
  destruct (decide (_ = EmptyString)).
  - rewrite decide_False by tauto. run_io. rewrite Hconn. run_io.
    rewrite Hping. run_io. by rewrite <- !app_assoc.
  - rewrite decide_True by tauto. run_io. rewrite Hconn. run_io.
    rewrite Hping. run_io. by rewrite <- !app_assoc.
Qed.

Lemma database_Open_succeeds ord cfg w :
  let c := LibsqlConnector (connectorDSN ord cfg) (connectorOpts cfg) in
  let a := freshAddr w in
  strings.HasPrefix (database.Path cfg) "libsql://" = true →
  connector_error env (connectorDSN ord cfg) (connectorOpts cfg) = None →
  ping_error env c = None →
  database.Open env ord cfg w =
    (Done (Ok (database.mkDB (PtrDB a))),
     mkWorld (<[a := mkDB c false]> (heap w))
             (trace w ++
              [EvNewConnector (connectorDSN ord cfg) (connectorOpts cfg); EvOpenDB a] ++
              poolCalls a (database.MaxOpenConns cfg) (database.MaxIdleConns cfg)
                        (database.ConnMaxLifetime cfg) (database.ConnMaxIdleTime cfg))).
Proof.
  intros c a. subst c a.
  unfold connectorDSN, connectorOpts, database.Open, poolCalls.
  intros -> Hconn Hping.
  destruct (decide (_ = EmptyString)).
  - rewrite decide_False by tauto. run_io. rewrite Hconn. run_io.
    rewrite Hping. run_io. by rewrite <- !app_assoc.
  - rewrite decide_True by tauto. run_io. rewrite Hconn. run_io.
    rewrite Hping. run_io. by rewrite <- !app_assoc.
Qed.

(** *** [sqlite3.Open] *)

Lemma sqlite3_Open_open_fails ord cfg w err :
  open_error env "sqlite3" (sqlite3DSN ord cfg) = Some err →
  sqlite3.Open env ord cfg w =
    (Err (Errorf "opening database" err),
     mkWorld (heap w)
             (trace w ++ [EvSqliteVecAuto; EvSqlOpen "sqlite3" (sqlite3DSN ord cfg)])).
Proof.
  unfold sqlite3DSN, sqlite3.Open. intros Herr. run_io. rewrite Herr.
  by rewrite <- !app_assoc.
Qed.

Lemma sqlite3_Open_ping_fails ord cfg w err :
  let c := DriverDSN "sqlite3" (sqlite3DSN ord cfg) in
  let a := freshAddr w in
  open_error env "sqlite3" (sqlite3DSN ord cfg) = None →
  ping_error env c = Some err →
  sqlite3.Open env ord cfg w =
    (Err (Errorf "pinging database" err),
     mkWorld (<[a := mkDB c true]> (heap w))
             (trace w ++ [EvSqliteVecAuto; EvSqlOpen "sqlite3" (sqlite3DSN ord cfg)] ++
              poolCalls a (sqlite3.MaxOpenConns cfg) (sqlite3.MaxIdleConns cfg)
                        (sqlite3.ConnMaxLifetime cfg) (sqlite3.ConnMaxIdleTime cfg) ++
              [EvClose a])).
Proof.
  intros c a. subst c a. unfold sqlite3DSN, sqlite3.Open, poolCalls.
  intros Hopen Hping. run_io. rewrite Hopen. run_io. rewrite Hping. run_io.
  by rewrite <- !app_assoc.
Qed.

Lemma sqlite3_Open_succeeds ord cfg w :
  let c := DriverDSN "sqlite3" (sqlite3DSN ord cfg) in
  let a := freshAddr w in
  open_error env "sqlite3" (sqlite3DSN ord cfg) = None →
  ping_error env c = None →
  sqlite3.Open env ord cfg w =
    (Ok (PtrDB a),
     mkWorld (<[a := mkDB c false]> (heap w))
             (trace w ++ [EvSqliteVecAuto; EvSqlOpen "sqlite3" (sqlite3DSN ord cfg)] ++
              poolCalls a (sqlite3.MaxOpenConns cfg) (sqlite3.MaxIdleConns cfg)
                        (sqlite3.ConnMaxLifetime cfg) (sqlite3.ConnMaxIdleTime cfg))).
Proof.
  intros c a. subst c a. unfold sqlite3DSN, sqlite3.Open, poolCalls.
  intros Hopen Hping. run_io. rewrite Hopen. run_io. rewrite Hping. run_io.
  by rewrite <- !app_assoc.
Qed.

(** *** The older [database.Open] on go-sqlite3 *)

Lemma database_sqlite_Open_ping_fails ord cfg w err :
  let dsn := options.formatDSN ord (database_sqlite.Path cfg)
                               (database_sqlite.Pragmas cfg) in
  let a := freshAddr w in
  open_error env "sqlite3" dsn = None →
  ping_error env (DriverDSN "sqlite3" dsn) = Some err →
  database_sqlite.Open env ord cfg w =
    (Err (Errorf "pinging database" err),
     mkWorld (<[a := mkDB (DriverDSN "sqlite3" dsn) false]> (heap w))
             (trace w ++ [EvSqlOpen "sqlite3" dsn] ++
              poolCalls a (database_sqlite.MaxOpenConns cfg)
                        (database_sqlite.MaxIdleConns cfg)
                        (database_sqlite.ConnMaxLifetime cfg)
                        (database_sqlite.ConnMaxIdleTime cfg))).
Proof.
  intros dsn a. subst dsn a. unfold database_sqlite.Open, poolCalls.
  intros Hopen Hping. run_io. rewrite Hopen. run_io. rewrite Hping. run_io.
  by rewrite <- !app_assoc.
Qed.

(** *** Handles after a failed [Open] *)

Lemma freshAddr_unused w : heap w !! freshAddr w = None.
Proof. unfold freshAddr. apply (not_elem_of_dom (D := gset nat)), is_fresh. Qed.

Lemma isOpen_insert_closed h t a c b :
  isOpen (mkWorld (<[a := mkDB c true]> h) t) b = isOpen (mkWorld h t) b ∨
  isOpen (mkWorld (<[a := mkDB c true]> h) t) b = false.
Proof.
  unfold isOpen, isClosed; cbn. destruct (decide (a = b)) as [->|Hne].
  - right. by rewrite lookup_insert_eq.
  - left. by rewrite lookup_insert_ne.
Qed.

Lemma newHandlesClosed_same_heap h t t' : newHandlesClosed (mkWorld h t) (mkWorld h t').
Proof. intros a Ha. unfold isOpen, isClosed; cbn in *. by rewrite Ha. Qed.

Lemma newHandlesClosed_insert_closed h t t' a c :
  newHandlesClosed (mkWorld h t) (mkWorld (<[a := mkDB c true]> h) t').
Proof.
  intros b Hb. cbn in Hb. unfold isOpen, isClosed; cbn.
  destruct (decide (a = b)) as [->|Hne].
  - by rewrite lookup_insert_eq.
  - by rewrite lookup_insert_ne, Hb.
Qed.

(** Whenever [database.Open] does not return a handle (it returns an
    error, or it panics), every handle it created has been closed; after
    a failed ping the last call is [Close]. *)
Lemma database_Open_error_closes ord cfg w :
  ((∀ db, (database.Open env ord cfg w).1 ≠ Done (Ok db)) →
   newHandlesClosed w (database.Open env ord cfg w).2) ∧
  (∀ err, strings.HasPrefix (database.Path cfg) "libsql://" = true →
          connector_error env (connectorDSN ord cfg) (connectorOpts cfg) = None →
          ping_error env (LibsqlConnector (connectorDSN ord cfg) (connectorOpts cfg))
            = Some err →
          (database.Open env ord cfg w).1 = Done (Err (Errorf "pinging database" err)) ∧
          isOpen (database.Open env ord cfg w).2 (freshAddr w) = false ∧
          ∃ t, trace (database.Open env ord cfg w).2
               = (t ++ [EvPing (freshAddr w); EvClose (freshAddr w)])%list).
Proof.
  split.
  - destruct (strings.HasPrefix (database.Path cfg) "libsql://") eqn:Hremote.
    2:{ rewrite (database_Open_local_panics ord cfg w Hremote).
        intros _. destruct w. apply newHandlesClosed_same_heap. }
    destruct (connector_error env (connectorDSN ord cfg) (connectorOpts cfg))
      as [err|] eqn:Hconn.
    { rewrite (database_Open_connector_fails ord cfg w err Hremote Hconn).
      intros _. destruct w. apply newHandlesClosed_same_heap. }
    destruct (ping_error env (LibsqlConnector (connectorDSN ord cfg) (connectorOpts cfg)))
      as [err|] eqn:Hping.
    + rewrite (database_Open_ping_fails ord cfg w err Hremote Hconn Hping). intros _.
      destruct w. apply newHandlesClosed_insert_closed.
    + rewrite (database_Open_succeeds ord cfg w Hremote Hconn Hping).
      intros Hno. by destruct (Hno (database.mkDB (PtrDB (freshAddr w)))).
  - intros err Hremote Hconn Hping.
    rewrite (database_Open_ping_fails ord cfg w err Hremote Hconn Hping).
    split; [done|]. split.
    + unfold isOpen, isClosed; cbn. by rewrite lookup_insert_eq.
    + cbn [snd trace]. unfold poolCalls.
      exists (trace w ++
              [EvNewConnector (connectorDSN ord cfg) (connectorOpts cfg);
               EvOpenDB (freshAddr w);
               EvSetMaxOpenConns (freshAddr w) (database.MaxOpenConns cfg);
               EvSetMaxIdleConns (freshAddr w) (database.MaxIdleConns cfg);
               EvSetConnMaxLifetime (freshAddr w) (database.ConnMaxLifetime cfg);
               EvSetConnMaxIdleTime (freshAddr w) (database.ConnMaxIdleTime cfg)])%list.
      by rewrite <- !app_assoc.
Qed.

Lemma sqlite3_Open_error_closes ord cfg w msg :
  (sqlite3.Open env ord cfg w).1 = Err msg →
  newHandlesClosed w (sqlite3.Open env ord cfg w).2.
Proof.
  destruct (open_error env "sqlite3" (sqlite3DSN ord cfg)) as [err|] eqn:Hopen.
  { rewrite (sqlite3_Open_open_fails ord cfg w err Hopen).
    intros _. destruct w. apply newHandlesClosed_same_heap. }
  destruct (ping_error env (DriverDSN "sqlite3" (sqlite3DSN ord cfg)))
    as [err|] eqn:Hping.
  - rewrite (sqlite3_Open_ping_fails ord cfg w err Hopen Hping). intros _.
    destruct w. apply newHandlesClosed_insert_closed.
  - by rewrite (sqlite3_Open_succeeds ord cfg w Hopen Hping).
Qed.

(** The older variant returns straight after the failed ping: the handle
    it created stays open and no [Close] is issued. *)
Lemma database_sqlite_Open_ping_failure_leaks ord cfg w err :
  let dsn := options.formatDSN ord (database_sqlite.Path cfg)
                               (database_sqlite.Pragmas cfg) in
  open_error env "sqlite3" dsn = None →
  ping_error env (DriverDSN "sqlite3" dsn) = Some err →
  (database_sqlite.Open env ord cfg w).1 = Err (Errorf "pinging database" err) ∧
  heap w !! freshAddr w = None ∧
  isOpen (database_sqlite.Open env ord cfg w).2 (freshAddr w) = true ∧
  ¬ newHandlesClosed w (database_sqlite.Open env ord cfg w).2 ∧
  last (trace (database_sqlite.Open env ord cfg w).2) = Some (EvPing (freshAddr w)).
Proof.
  intros dsn Hopen Hping.
  rewrite (database_sqlite_Open_ping_fails ord cfg w err Hopen Hping).
  assert (isOpen
            {| heap := <[freshAddr w := mkDB (DriverDSN "sqlite3" dsn) false]> (heap w);
               trace := [] |} (freshAddr w) = true) as Hopened.
  { unfold isOpen, isClosed; cbn. by rewrite lookup_insert_eq. }
  split; [done|]. split; [apply freshAddr_unused|]. split; [exact Hopened|]. split.
  - intros Hclosed. specialize (Hclosed (freshAddr w) (freshAddr_unused w)).
    cbn [snd] in Hclosed. unfold isOpen, isClosed in *; cbn in *.
    rewrite lookup_insert_eq in Hclosed. discriminate.
  - cbn [snd trace]. unfold poolCalls. by rewrite !last_app.
Qed.


End OpenRuns.

Section OpenClaims.
Import sql sqlapi spec.
Local Open Scope Z_scope.

(** C3.  The claim does not hold of the older [database.Open] on
    go-sqlite3.  Opening a database file in a directory that does not
    exist, the ping fails and that [Open] returns the wrapped error while
    the handle it created is still open: the trace ends with the ping and
    has no [Close].  On the same path and the same failing ping,
    [sqlite3.Open] closes its handle before it returns, and so does
    [database.Open] of the libSQL variant when the ping of a remote
    database fails. *)
Theorem legacy_Open_failed_ping_leaves_handle_open :
  database_sqlite.Open
    (mkEnv (λ _ _, None) (λ _ _, None) (λ _, Some "unable to open database file")
           (λ _, None))
    0 (database_sqlite.mkConfig "/no/such/dir/app.db" 5 5 time.Hour time.Minute ∅)
    emptyWorld
  = (Err "pinging database: unable to open database file",
     mkWorld {[0%nat := mkDB (DriverDSN "sqlite3" "/no/such/dir/app.db") false]}
             [EvSqlOpen "sqlite3" "/no/such/dir/app.db";
              EvSetMaxOpenConns 0 5; EvSetMaxIdleConns 0 5;
              EvSetConnMaxLifetime 0 time.Hour; EvSetConnMaxIdleTime 0 time.Minute;
              EvPing 0]) ∧
  isOpen (database_sqlite.Open
            (mkEnv (λ _ _, None) (λ _ _, None) (λ _, Some "unable to open database file")
                   (λ _, None))
            0 (database_sqlite.mkConfig "/no/such/dir/app.db" 5 5 time.Hour time.Minute ∅)
            emptyWorld).2 0 = true ∧
  sqlite3.Open
    (mkEnv (λ _ _, None) (λ _ _, None) (λ _, Some "unable to open database file")
           (λ _, None))
    0 (sqlite3.mkConfig "/no/such/dir/app.db" EmptyString 5 5 time.Hour time.Minute ∅)
    emptyWorld
  = (Err "pinging database: unable to open database file",
     mkWorld {[0%nat := mkDB (DriverDSN "sqlite3" "file:/no/such/dir/app.db") true]}
             [EvSqliteVecAuto; EvSqlOpen "sqlite3" "file:/no/such/dir/app.db";
              EvSetMaxOpenConns 0 5; EvSetMaxIdleConns 0 5;
              EvSetConnMaxLifetime 0 time.Hour; EvSetConnMaxIdleTime 0 time.Minute;
              EvPing 0; EvClose 0]) ∧
  database.Open
    (mkEnv (λ _ _, None) (λ _ _, None) (λ _, Some "no such host") (λ _, None))
    0 (database.mkConfig "libsql://db.example.io" EmptyString 5 5
                         time.Hour time.Minute ∅)
    emptyWorld
  = (Done (Err "pinging database: no such host"),
     mkWorld {[0%nat := mkDB (LibsqlConnector "libsql://db.example.io" []) true]}
             [EvNewConnector "libsql://db.example.io" []; EvOpenDB 0;
              EvSetMaxOpenConns 0 5; EvSetMaxIdleConns 0 5;
              EvSetConnMaxLifetime 0 time.Hour; EvSetConnMaxIdleTime 0 time.Minute;
              EvPing 0; EvClose 0]).
Proof. repeat split; by vm_compute. Qed.

Lemma libsql_prefix_shape path :
  strings.HasPrefix path "libsql://" = true ∨ strings.HasPrefix path "libsql://" = false.
Proof. destruct (strings.HasPrefix path "libsql://"); auto. Qed.

Lemma Forall_not_isConnect_poolCalls a n1 n2 d1 d2 tail :
  Forall (λ e, ¬ isConnect e) tail →
  Forall (λ e, ¬ isConnect e) (EvOpenDB a :: poolCalls a n1 n2 d1 d2 ++ tail).
Proof.
  intros Htail. unfold poolCalls. cbn.
  repeat (apply Forall_cons; split; [by cbn; auto|]). done.
Qed.

Lemma database_Open_buildsFrom env ord cfg w :
  strings.HasPrefix (database.Path cfg) "libsql://" = true →
  buildsFrom (database.Open env ord cfg) w (connectorDSN ord cfg) (connectorOpts cfg).
Proof.
  intros Hremote. unfold buildsFrom.
  destruct (connector_error env (connectorDSN ord cfg) (connectorOpts cfg))
    as [err|] eqn:Hconn.
  { rewrite (database_Open_connector_fails env ord cfg w err Hremote Hconn).
    split; [exists []; by split|]. intros db [=]. }
  destruct (ping_error env (LibsqlConnector (connectorDSN ord cfg) (connectorOpts cfg)))
    as [err|] eqn:Hping.
  - rewrite (database_Open_ping_fails env ord cfg w err Hremote Hconn Hping).
    split; [|intros db [=]]. cbn [snd trace]. eexists. split; [reflexivity|].
    apply Forall_not_isConnect_poolCalls.
    apply Forall_cons; split; [cbn; tauto | constructor].
  - rewrite (database_Open_succeeds env ord cfg w Hremote Hconn Hping). split.
    + cbn [snd trace]. eexists. split; [reflexivity|].
      rewrite <- (app_nil_r (poolCalls _ _ _ _ _)).
      by apply Forall_not_isConnect_poolCalls.
    + intros db [= <-]. exists (freshAddr w). split; [done|].
      cbn. by rewrite lookup_insert_eq.
Qed.

(** On a remote path [database.Open] returns: a handle when the connector
    is built and the ping is answered, an error otherwise. *)
Lemma database_Open_remote_returns env ord cfg w :
  strings.HasPrefix (database.Path cfg) "libsql://" = true →
  ∃ r, (database.Open env ord cfg w).1 = Done r ∧
       ((∃ db, r = Ok db) ↔
        connector_error env (connectorDSN ord cfg) (connectorOpts cfg) = None ∧
        ping_error env (LibsqlConnector (connectorDSN ord cfg) (connectorOpts cfg))
          = None).
Proof.
  intros Hremote.
  destruct (connector_error env (connectorDSN ord cfg) (connectorOpts cfg))
    as [err|] eqn:Hconn.
  { rewrite (database_Open_connector_fails env ord cfg w err Hremote Hconn).
    eexists; split; [reflexivity|]. split; [by intros [db [=]] | by intros [[=] _]]. }
  destruct (ping_error env (LibsqlConnector (connectorDSN ord cfg) (connectorOpts cfg)))
    as [err|] eqn:Hping.
  - rewrite (database_Open_ping_fails env ord cfg w err Hremote Hconn Hping).
    eexists; split; [reflexivity|]. split; [by intros [db [=]] | by intros [_ [=]]].
  - rewrite (database_Open_succeeds env ord cfg w Hremote Hconn Hping).
    eexists; split; [reflexivity|]. split; [done | intros _; by eexists].
Qed.

(** C7.  [database.Open] dispatches on the path.  A path that begins with
    ["libsql://"] is handed unchanged to the one connector that is built,
    with the auth token as its only option when the token is not empty and
    with no option otherwise; [Open] then returns, with a handle exactly
    when the connector was built and the ping answered.  Any other path
    is meant as local, and no connector is built from it: the first and
    only call asks for a connector on [formatDSN] of the path and the
    pragmas with one nil option, that call panics, and [Open] neither
    returns nor creates a handle. *)
Theorem Open_dispatches_on_path :
  ∀ (env : Env) (ord : nat) (cfg : database.Config) (w : World),
    (strings.HasPrefix (database.Path cfg) "libsql://" = true →
     (database.AuthToken cfg ≠ EmptyString →
      buildsFrom (database.Open env ord cfg) w (database.Path cfg)
                 [libsql.WithAuthToken (database.AuthToken cfg)]) ∧
     (database.AuthToken cfg = EmptyString →
      buildsFrom (database.Open env ord cfg) w (database.Path cfg) []) ∧
     ∃ r, (database.Open env ord cfg w).1 = Done r ∧
          ((∃ db, r = Ok db) ↔
           connector_error env (connectorDSN ord cfg) (connectorOpts cfg) = None ∧
           ping_error env (LibsqlConnector (connectorDSN ord cfg) (connectorOpts cfg))
             = None)) ∧
    (strings.HasPrefix (database.Path cfg) "libsql://" = false →
     database.Open env ord cfg w =
       (Panic nilDereference,
        mkWorld (heap w)
                (trace w ++
                 [EvNewConnector
                    (options.formatDSN ord (database.Path cfg) (database.Pragmas cfg))
                    [libsql.NilOption]]))).
Proof.
  intros env ord cfg w. split; intros Hp.
  - pose proof (database_Open_buildsFrom env ord cfg w Hp) as H.
    unfold connectorDSN, connectorOpts in H. rewrite Hp in H.
    split; [|split].
    + intros Htok. by rewrite decide_False in H.
    + intros Htok. by rewrite decide_True in H.
    + by apply database_Open_remote_returns.
  - rewrite (database_Open_local_panics env ord cfg w Hp).
    unfold connectorDSN, connectorOpts. by rewrite Hp.
Qed.

Lemma Open_dispatches_on_path_witness :
  buildsFrom
    (database.Open (mkEnv (λ _ _, None) (λ _ _, None) (λ _, None) (λ _, None)) 0
       (database.mkConfig "libsql://db.example.io" "secret" 5 5
                          time.Hour time.Minute options.DefaultPragmas))
    emptyWorld "libsql://db.example.io" [libsql.WithAuthToken "secret"] ∧
  buildsFrom
    (database.Open (mkEnv (λ _ _, None) (λ _ _, None) (λ _, None) (λ _, None)) 0
       (database.mkConfig "libsql://db.example.io" EmptyString 5 5
                          time.Hour time.Minute options.DefaultPragmas))
    emptyWorld "libsql://db.example.io" [] ∧
  database.Open (mkEnv (λ _ _, None) (λ _ _, None) (λ _, None) (λ _, None)) 0
    (database.mkConfig "app.db" EmptyString 5 5 time.Hour time.Minute
                       {["foreign_keys" := "ON"]})
    emptyWorld
  = (Panic nilDereference,
     mkWorld ∅ [EvNewConnector "app.db?foreign_keys=ON" [libsql.NilOption]]).
Proof.
  split; [|split].
  - apply (Open_dispatches_on_path
             (mkEnv (λ _ _, None) (λ _ _, None) (λ _, None) (λ _, None)) 0
             (database.mkConfig "libsql://db.example.io" "secret" 5 5
                                time.Hour time.Minute options.DefaultPragmas)
             emptyWorld); [reflexivity | discriminate].
  - apply (Open_dispatches_on_path
             (mkEnv (λ _ _, None) (λ _ _, None) (λ _, None) (λ _, None)) 0
             (database.mkConfig "libsql://db.example.io" EmptyString 5 5
                                time.Hour time.Minute options.DefaultPragmas)
             emptyWorld); reflexivity.
  - destruct (Open_dispatches_on_path
                (mkEnv (λ _ _, None) (λ _ _, None) (λ _, None) (λ _, None)) 0
                (database.mkConfig "app.db" EmptyString 5 5 time.Hour time.Minute
                                   {["foreign_keys" := "ON"]})
                emptyWorld) as [_ Hlocal].
    exact (Hlocal eq_refl).
Defined.

Lemma sqlite3_Open_first_call env ord cfg w :
  ∃ rest, trace (sqlite3.Open env ord cfg w).2
          = (trace w ++ EvSqliteVecAuto ::
             EvSqlOpen "sqlite3" (sqlite3DSN ord cfg) :: rest)%list.
Proof.
  destruct (open_error env "sqlite3" (sqlite3DSN ord cfg)) as [err|] eqn:Hopen.
  { rewrite (sqlite3_Open_open_fails env ord cfg w err Hopen). by exists []. }
  destruct (ping_error env (DriverDSN "sqlite3" (sqlite3DSN ord cfg)))
    as [err|] eqn:Hping.
  - rewrite (sqlite3_Open_ping_fails env ord cfg w err Hopen Hping).
    cbn [snd trace]. by eexists.
  - rewrite (sqlite3_Open_succeeds env ord cfg w Hopen Hping).
    cbn [snd trace]. by eexists.
Qed.

Lemma sqlite3DSN_memory_pragmas ord cfg :
  sqlite3.Path cfg = ":memory:" →
  sqlite3.Pragmas cfg ≠ ∅ →
  sqlite3DSN ord cfg =
    "file::memory:?" +:+
    strings.Join (pairParam <$> options.rangeMap ord (sqlite3.Pragmas cfg)) "&".
Proof.
  intros Hpath Hne. unfold sqlite3DSN. cbn zeta.
  rewrite Hpath, (formatDSN_nonempty _ _ _ Hne).
  set (query := "?" +:+ strings.Join _ "&").
  rewrite bool_decide_true.
  - change (":memory:" +:+ query) with (String ":" ("memory:" +:+ query)).
    reflexivity.
  - change ":memory:" with (":memory:" +:+ EmptyString) at 2.
    intros Heq%String.app_inj. discriminate Heq.
Qed.

Lemma sqlite3DSN_memory_bare ord cfg :
  sqlite3.Path cfg = ":memory:" →
  sqlite3.Pragmas cfg = ∅ →
  sqlite3DSN ord cfg = ":memory:".
Proof.
  intros Hpath Hempty. unfold sqlite3DSN. cbn zeta.
  rewrite Hpath, Hempty. by rewrite formatDSN_empty.
Qed.

(** C10.  In the sqlite3 variant, [Open] on the in-memory sentinel with a
    non-empty pragma set asks the driver for ["file::memory:?"] followed
    by the pragmas: the formatted name is no longer the bare sentinel, so
    the ["file:"] prefix is applied.  With an empty pragma set the driver
    is asked for the bare [":memory:"]. *)
Theorem sqlite3_Open_prefixes_memory_with_pragmas :
  ∀ (env : Env) (ord : nat) (cfg : sqlite3.Config) (w : World),
    sqlite3.Path cfg = ":memory:" →
    (sqlite3.Pragmas cfg ≠ ∅ →
     options.formatDSN ord ":memory:" (sqlite3.Pragmas cfg) ≠ ":memory:" ∧
     ∃ rest,
       trace (sqlite3.Open env ord cfg w).2 =
         (trace w ++ EvSqliteVecAuto ::
          EvSqlOpen "sqlite3"
            ("file::memory:?" +:+
             strings.Join (pairParam <$> options.rangeMap ord (sqlite3.Pragmas cfg)) "&")
          :: rest)%list) ∧
    (sqlite3.Pragmas cfg = ∅ →
     ∃ rest,
       trace (sqlite3.Open env ord cfg w).2 =
         (trace w ++ EvSqliteVecAuto :: EvSqlOpen "sqlite3" ":memory:" :: rest)%list).
Proof.
  intros env ord cfg w Hpath.
  destruct (sqlite3_Open_first_call env ord cfg w) as [rest Hrest].
  split; intros Hprag.
  - split.
    + rewrite (formatDSN_nonempty _ _ _ Hprag).
      change ":memory:" with (":memory:" +:+ EmptyString) at 2.
      intros Heq%String.app_inj. discriminate Heq.
    + exists rest. by rewrite Hrest, (sqlite3DSN_memory_pragmas ord cfg Hpath Hprag).
  - exists rest. by rewrite Hrest, (sqlite3DSN_memory_bare ord cfg Hpath Hprag).
Qed.

Lemma sqlite3_Open_prefixes_memory_with_pragmas_witness :
  (∃ rest,
     trace (sqlite3.Open (mkEnv (λ _ _, None) (λ _ _, None) (λ _, None) (λ _, None)) 0
              (sqlite3.mkConfig ":memory:" EmptyString 5 5 time.Hour time.Minute
                                {["foreign_keys" := "ON"]})
              emptyWorld).2
     = EvSqliteVecAuto :: EvSqlOpen "sqlite3" "file::memory:?foreign_keys=ON" :: rest) ∧
  (∃ rest,
     trace (sqlite3.Open (mkEnv (λ _ _, None) (λ _ _, None) (λ _, None) (λ _, None)) 0
              (sqlite3.mkConfig ":memory:" EmptyString 5 5 time.Hour time.Minute ∅)
              emptyWorld).2
     = EvSqliteVecAuto :: EvSqlOpen "sqlite3" ":memory:" :: rest).
Proof.
  split.
  - destruct (sqlite3_Open_prefixes_memory_with_pragmas
                (mkEnv (λ _ _, None) (λ _ _, None) (λ _, None) (λ _, None)) 0
                (sqlite3.mkConfig ":memory:" EmptyString 5 5 time.Hour time.Minute
                                  {["foreign_keys" := "ON"]})
                emptyWorld eq_refl) as [Hpragmas _].
    destruct Hpragmas as [_ [rest Hrest]]; [by apply insert_non_empty|].
    exists rest. exact Hrest.
  - destruct (sqlite3_Open_prefixes_memory_with_pragmas
                (mkEnv (λ _ _, None) (λ _ _, None) (λ _, None) (λ _, None)) 0
                (sqlite3.mkConfig ":memory:" EmptyString 5 5 time.Hour time.Minute ∅)
                emptyWorld eq_refl) as [_ Hbare].
    destruct Hbare as [rest Hrest]; [reflexivity|].
    exists rest. exact Hrest.
Defined.

End OpenClaims.
(** ** The migration tool *)

Section VersionCommand.
Import main spec spec2.
Local Open Scope Z_scope.

Ltac run_proc :=
  unfold Printf, Fatal, Crash, main.gets, liftIO,
    sqlapi.NewConnector, sqlapi.OpenDB, sql.log, sql.alloc,
    sql.modify, sql.gets;
  unfold mbind, mret, Proc_bind, Proc_ret, main.bind, main.ret,
    sql.IO_bind, sql.IO_ret, sql.bind, sql.ret;
  cbn.

Lemma getDBPath_run (w : World) : getDBPath w = (Returned (dbPathOf w), w).
Proof.
  unfold getDBPath, dbPathOf. run_proc.
  destruct (environ w !! "DB_PATH") as [p|]; cbn; [|done].
  by destruct (decide (p = EmptyString)).
Qed.

Lemma dbPathOf_nonempty (w : World) : dbPathOf w ≠ EmptyString.
Proof.
  unfold dbPathOf. destruct (environ w !! "DB_PATH") as [p|]; [|done].
  by destruct (decide (p = EmptyString)).
Qed.

(** [openDB] on a local path: the connector is asked for with one nil
    option, and the process ends in the panic of that call. *)
Lemma openDB_local_panics env dbPath w :
  strings.HasPrefix dbPath "libsql://" = false →
  openDB env dbPath w =
    (Exited 2,
     logged ("panic: " +:+ nilDereference)
            (setHandles (refused dbPath (handles w)) w)).
Proof.
  unfold openDB, refused, logged, setHandles, openOpts. intros ->. by run_proc.
Qed.

Lemma openDB_refused env dbPath w err :
  strings.HasPrefix dbPath "libsql://" = true →
  sql.connector_error env dbPath (openOpts dbPath) = Some err →
  openDB env dbPath w =
    (Exited 1,
     logged ("Failed to create libSQL connector: " +:+ err)
            (setHandles (refused dbPath (handles w)) w)).
Proof.
  unfold openDB, refused, logged, setHandles, openOpts. intros -> Herr.
  run_proc. rewrite Herr. reflexivity.
Qed.

Lemma openDB_opened env dbPath w :
  strings.HasPrefix dbPath "libsql://" = true →
  sql.connector_error env dbPath (openOpts dbPath) = None →
  openDB env dbPath w =
    (Returned (sql.PtrDB (sql.freshAddr (handles w))),
     setHandles (opened dbPath (handles w)) w).
Proof.
  unfold openDB, opened, setHandles, openOpts. intros -> Hok.
  run_proc. rewrite Hok. cbn. rewrite <- app_assoc. reflexivity.
Qed.

(** [getMigrationVersion] stage by stage. *)
Lemma getMigrationVersion_stages env menv w :
  getMigrationVersion env menv w =
    if strings.HasPrefix (dbPathOf w) "libsql://" then
      match sql.connector_error env (dbPathOf w) (openOpts (dbPathOf w)) with
      | Some err =>
          (Exited 1,
           logged ("Failed to create libSQL connector: " +:+ err)
                  (setHandles (refused (dbPathOf w) (handles w)) w))
      | None =>
          let w1 := setHandles (opened (dbPathOf w) (handles w)) w in
          match withInstance_error menv (sql.PtrDB (sql.freshAddr (handles w))) with
          | Some err => (Exited 1, logged ("Failed to connect to database: " +:+ err) w1)
          | None =>
              match newInstance_error menv "file://./db/migrations" "sqlite" with
              | Some err =>
                  (Exited 1, logged ("Failed to create migration instance: " +:+ err) w1)
              | None =>
                  match versionTable w with
                  | Some (version, dirty) =>
                      if decide (version = migrate.NilVersion)
                      then (Returned tt, printed ("No migrations applied yet" +:+ nl) w1)
                      else if decide (version < 0)
                      then (Exited 2,
                            logged ("panic: " +:+ "suint(" +:+ fmt.Sprintf_d version +:+
                                    ") expects input >= 0") w1)
                      else (Returned tt,
                            printed ("Current migration version: " +:+
                                     fmt.Sprintf_d version +:+ " (dirty: " +:+
                                     fmt.Sprintf_v dirty +:+ ")" +:+ nl) w1)
                  | None => (Returned tt, printed ("No migrations applied yet" +:+ nl) w1)
                  end
              end
          end
      end
    else
      (Exited 2,
       logged ("panic: " +:+ nilDereference)
              (setHandles (refused (dbPathOf w) (handles w)) w)).
Proof.
  unfold getMigrationVersion.
  unfold mbind at 1, Proc_bind, main.bind. rewrite getDBPath_run.
  unfold mbind at 1, Proc_bind, main.bind.
  destruct (strings.HasPrefix (dbPathOf w) "libsql://") eqn:Hremote.
  2:{ by rewrite (openDB_local_panics env _ w Hremote). }
  destruct (sql.connector_error env (dbPathOf w) (openOpts (dbPathOf w)))
    as [err|] eqn:Hconn.
  { by rewrite (openDB_refused env _ w err Hremote Hconn). }
  rewrite (openDB_opened env _ w Hremote Hconn). cbn zeta.
  destruct (withInstance_error menv _) as [err|]; [reflexivity|].
  change ("file://" +:+ migrationsDir) with "file://./db/migrations".
  destruct (newInstance_error menv _ _) as [err|]; [reflexivity|].
  unfold mbind, Proc_bind, main.bind, main.gets. cbn [versionTable setHandles].
  unfold migrate.Version, migrate.driverVersion, migrate.suint.
  destruct (versionTable w) as [[version dirty]|].
  - destruct (decide (version = migrate.NilVersion)); [reflexivity|].
    by destruct (decide (version < 0)).
  - reflexivity.
Qed.

(** C9.  The version command reports as claimed when the database is a
    remote one: with [DB_PATH] a ["libsql://"] URL, the connector built
    and the migrate instance set up, it ends normally in both cases.
    With no recorded version it prints the no-migrations-applied line,
    logs nothing and does not exit; with a recorded version it prints the
    version and the dirty flag.  The version table is left as it was.
    On every other path, and so when [DB_PATH] is unset, the command
    reports nothing: the call [libsql.NewConnector(dbPath, nil)] of
    [openDB] panics, the process ends with status 2 and nothing is
    printed, whether or not a version is recorded. *)
Theorem getMigrationVersion_reports :
  ∀ (env : sql.Env) (menv : MigrateEnv) (w : World),
    (strings.HasPrefix (dbPathOf w) "libsql://" = true →
     sql.connector_error env (dbPathOf w) [] = None →
     (∀ h, withInstance_error menv h = None) →
     newInstance_error menv "file://./db/migrations" "sqlite" = None →
     (versionTable w = None →
      (getMigrationVersion env menv w).1 = Returned tt ∧
      stdout (getMigrationVersion env menv w).2
        = stdout w +:+ ("No migrations applied yet" +:+ nl) ∧
      stderr (getMigrationVersion env menv w).2 = stderr w ∧
      versionTable (getMigrationVersion env menv w).2 = None) ∧
     (∀ version dirty,
        versionTable w = Some (version, dirty) → 0 ≤ version →
        (getMigrationVersion env menv w).1 = Returned tt ∧
        stdout (getMigrationVersion env menv w).2
          = stdout w +:+ ("Current migration version: " +:+ fmt.Sprintf_d version +:+
                          " (dirty: " +:+ fmt.Sprintf_v dirty +:+ ")" +:+ nl) ∧
        stderr (getMigrationVersion env menv w).2 = stderr w ∧
        versionTable (getMigrationVersion env menv w).2 = Some (version, dirty))) ∧
    (strings.HasPrefix (dbPathOf w) "libsql://" = false →
     (getMigrationVersion env menv w).1 = Exited 2 ∧
     stdout (getMigrationVersion env menv w).2 = stdout w ∧
     stderr (getMigrationVersion env menv w).2
       = (stderr w ++ ["panic: " +:+ nilDereference])%list ∧
     versionTable (getMigrationVersion env menv w).2 = versionTable w).
Proof.
  intros env menv w. rewrite getMigrationVersion_stages. split.
  - intros Hremote Hconn Hinst Hnew. unfold openOpts. rewrite Hremote, Hconn.
    cbn zeta. rewrite Hinst, Hnew. split.
    + intros Hv. rewrite Hv. cbn. done.
    + intros version dirty Hv Hpos. rewrite Hv. unfold migrate.NilVersion.
      rewrite decide_False by lia. rewrite decide_False by lia. cbn. done.
  - intros ->. done.
Qed.

Lemma getMigrationVersion_reports_witness :
  stdout (getMigrationVersion
            (sql.mkEnv (λ _ _, None) (λ _ _, None) (λ _, None) (λ _, None))
            (mkMigrateEnv (λ _, None) (λ _ _, None))
            (mkWorld ∅ EmptyString [] {["DB_PATH" := "libsql://db.example.io"]} 0
                     sql.emptyWorld None)).2
    = "No migrations applied yet" +:+ nl ∧
  stdout (getMigrationVersion
            (sql.mkEnv (λ _ _, None) (λ _ _, None) (λ _, None) (λ _, None))
            (mkMigrateEnv (λ _, None) (λ _ _, None))
            (mkWorld ∅ EmptyString [] {["DB_PATH" := "libsql://db.example.io"]} 0
                     sql.emptyWorld (Some (1700000000, true)))).2
    = "Current migration version: 1700000000 (dirty: true)" +:+ nl ∧
  (getMigrationVersion
     (sql.mkEnv (λ _ _, None) (λ _ _, None) (λ _, None) (λ _, None))
     (mkMigrateEnv (λ _, None) (λ _ _, None))
     (mkWorld ∅ EmptyString [] ∅ 0 sql.emptyWorld None)).1 = Exited 2.
Proof.
  split; [|split].
  - destruct (getMigrationVersion_reports
                (sql.mkEnv (λ _ _, None) (λ _ _, None) (λ _, None) (λ _, None))
                (mkMigrateEnv (λ _, None) (λ _ _, None))
                (mkWorld ∅ EmptyString [] {["DB_PATH" := "libsql://db.example.io"]} 0
                         sql.emptyWorld None))
      as [Hremote _].
    destruct Hremote as [Hnone _]; [reflexivity..|].
    destruct Hnone as (_ & Hout & _); [reflexivity|]. exact Hout.
  - destruct (getMigrationVersion_reports
                (sql.mkEnv (λ _ _, None) (λ _ _, None) (λ _, None) (λ _, None))
                (mkMigrateEnv (λ _, None) (λ _ _, None))
                (mkWorld ∅ EmptyString [] {["DB_PATH" := "libsql://db.example.io"]} 0
                         sql.emptyWorld (Some (1700000000, true))))
      as [Hremote _].
    destruct Hremote as [_ Hsome]; [reflexivity..|].
    destruct (Hsome 1700000000 true) as (_ & Hout & _); [reflexivity|lia|].
    exact Hout.
  - destruct (getMigrationVersion_reports
                (sql.mkEnv (λ _ _, None) (λ _ _, None) (λ _, None) (λ _, None))
                (mkMigrateEnv (λ _, None) (λ _ _, None))
                (mkWorld ∅ EmptyString [] ∅ 0 sql.emptyWorld None))
      as [_ Hlocal].
    destruct Hlocal as [Hexit _]; [reflexivity|]. exact Hexit.
Defined.

End VersionCommand.

Section Paths.
Import filepath spec.

Lemma append_cons a s t : String a s +:+ t = String a (s +:+ t).
Proof. reflexivity. Qed.

Lemma length_append s t : String.length (s +:+ t) = String.length s + String.length t.
Proof. induction s as [|a s IH]; [done|]. rewrite append_cons. cbn. by rewrite IH. Qed.

Lemma nosep_app s t : nosep s → nosep t → nosep (s +:+ t).
Proof. intros Hs Ht. rewrite CountByte_app. lia. Qed.

Lemma nosep_cons a s : nosep (String a s) → Ascii.eqb a Separator = false ∧ nosep s.
Proof. cbn. destruct (Ascii.eqb a Separator); [lia|]. auto. Qed.

Lemma split_nosep s : nosep s → split s = [s].
Proof.
  induction s as [|a s IH]; [done|].
  intros [Ha Hs]%nosep_cons. cbn [split]. by rewrite Ha, IH.
Qed.

Lemma split_app_sep p s : nosep p → split (p +:+ String Separator s) = p :: split s.
Proof.
  induction p as [|a p IH]; [done|].
  intros [Ha Hp]%nosep_cons. rewrite append_cons. cbn [split]. by rewrite Ha, IH.
Qed.

Lemma Sprintf_d_nosep n : nosep (fmt.Sprintf_d n).
Proof.
  assert (∀ d, nosep (NilEmpty.string_of_uint d)) as Hempty.
  { induction d; cbn; auto. }
  assert (∀ d, nosep (NilZero.string_of_uint d)) as Hzero.
  { destruct d; try apply Hempty. done. }
  unfold fmt.Sprintf_d, NilZero.string_of_int.
  destruct (Z.to_int n); [apply Hzero|]. cbn. apply Hzero.
Qed.

Lemma plain_long seg : nosep seg → 2 < String.length seg → plain seg.
Proof.
  intros Hsep Hlen. split; [done|].
  repeat split; intros ->; cbn in Hlen; lia.
Qed.

Lemma cleanStep_plain rooted out seg :
  plain seg → cleanStep rooted out seg = (out ++ [seg])%list.
Proof.
  intros (_ & H0 & H1 & H2). unfold cleanStep. by rewrite !decide_False.
Qed.

Lemma migrationPath_shape file :
  "db/migrations/" +:+ file =
    "db" +:+ String Separator ("migrations" +:+ String Separator file).
Proof. reflexivity. Qed.

Lemma split_migrationPath file :
  nosep file → split ("db/migrations/" +:+ file) = ["db"; "migrations"; file].
Proof.
  intros Hsep. rewrite migrationPath_shape.
  by rewrite !split_app_sep, split_nosep.
Qed.

(** A file directly below the migrations directory is its own cleaned
    form, and the directory is its [Dir]. *)
Lemma Clean_migrationPath file :
  plain file → Clean ("db/migrations/" +:+ file) = "db/migrations/" +:+ file.
Proof.
  intros Hplain. pose proof Hplain as [Hsep _]. unfold Clean.
  rewrite decide_False by done.
  change (String.prefix "/" ("db/migrations/" +:+ file)) with false.
  rewrite split_migrationPath by done. cbn [foldl].
  rewrite (cleanStep_plain false [] "db") by done.
  rewrite (cleanStep_plain false _ "migrations") by done.
  rewrite (cleanStep_plain false _ file) by done. cbn [app].
  by rewrite decide_False.
Qed.

Lemma Dir_migrationPath file :
  nosep file → Dir ("db/migrations/" +:+ file) = "db/migrations".
Proof.
  intros Hsep. unfold Dir. rewrite split_migrationPath by done. by vm_compute.
Qed.

Lemma Join_migrationsDir file :
  plain file → Join [main.migrationsDir; file] = "db/migrations/" +:+ file.
Proof.
  intros Hplain. pose proof Hplain as [Hsep _].
  unfold Join, main.migrationsDir. rewrite decide_False by done.
  unfold strings.Join. cbn [String.concat]. unfold Clean.
  rewrite decide_False by done.
  change (String.prefix "/" ("./db/migrations" +:+ "/" +:+ file)) with false.
  change ("./db/migrations" +:+ "/" +:+ file)
    with ("." +:+ String Separator
            ("db" +:+ String Separator ("migrations" +:+ String Separator file))).
  rewrite !split_app_sep, split_nosep by done. cbn [foldl].
  change (cleanStep false [] ".") with (@nil string).
  rewrite (cleanStep_plain false [] "db") by done.
  rewrite (cleanStep_plain false _ "migrations") by done.
  rewrite (cleanStep_plain false _ file) by done. cbn [app].
  by rewrite decide_False.
Qed.

(** The name of a migration file is a plain segment when the migration
    name has no separator. *)
Lemma migrationFile_plain (timestamp : Z) (name suffix : string) :
  nosep name → nosep suffix → 2 < String.length suffix →
  plain (fmt.Sprintf_d timestamp +:+ "_" +:+ name +:+ suffix).
Proof.
  intros Hname Hsuffix Hlen. apply plain_long.
  - repeat apply nosep_app; auto using Sprintf_d_nosep.
  - rewrite !length_append. lia.
Qed.

End Paths.

Section CreateCommand.
Import main spec.

Lemma lookupNode_migrations (fs : os.FS) :
  os.lookupNode fs "db/migrations" = fs !! "db/migrations".
Proof. unfold os.lookupNode. by rewrite !decide_False. Qed.

Lemma MkdirAll_migrationsDir (faults : os.Faults) (fs : os.FS) :
  os.mkdir_fault faults "./db" = None →
  os.mkdir_fault faults "./db/migrations" = None →
  dirOrFree fs "db" → dirOrFree fs "db/migrations" →
  os.MkdirAll faults migrationsDir fs
    = (None, <["db/migrations" := os.Dir]> (<["db" := os.Dir]> fs)).
Proof.
  intros Hf1 Hf2 Hdb Hmig. unfold os.MkdirAll.
  change (String.prefix "/" migrationsDir) with false.
  change (filter _ (filepath.split migrationsDir)) with ["."; "db"; "migrations"].
  cbn [os.mkdirs].
  change (os.child EmptyString ".") with ".".
  change (os.child "." "db") with "./db".
  change (os.child "./db" "migrations") with "./db/migrations".
  change (filepath.Clean ".") with ".".
  change (filepath.Clean "./db") with "db".
  change (filepath.Clean "./db/migrations") with "db/migrations".
  change (os.lookupNode fs ".") with (Some os.Dir).
  assert (os.lookupNode fs "db" = fs !! "db") as ->.
  { unfold os.lookupNode. by rewrite !decide_False. }
  destruct Hdb as [Hdb|Hdb]; rewrite Hdb, ?Hf1; rewrite lookupNode_migrations.
  - rewrite lookup_insert_ne by done.
    destruct Hmig as [Hmig|Hmig]; rewrite Hmig, ?Hf2; [done|].
    f_equal. symmetry. apply insert_id. by rewrite lookup_insert_ne.
  - rewrite (insert_id fs "db" os.Dir Hdb).
    destruct Hmig as [Hmig|Hmig]; rewrite Hmig, ?Hf2; [done|].
    f_equal. symmetry. by apply insert_id.
Qed.

Lemma WriteFile_migrationPath (faults : os.Faults) (fs : os.FS) (file data : string) :
  plain file →
  os.open_fault faults ("db/migrations/" +:+ file) = None →
  os.write_fault faults ("db/migrations/" +:+ file) = None →
  fs !! "db/migrations" = Some os.Dir →
  fs !! ("db/migrations/" +:+ file) ≠ Some os.Dir →
  os.WriteFile faults ("db/migrations/" +:+ file) data fs =
    (None, <["db/migrations/" +:+ file := os.File data]> fs).
Proof.
  intros Hplain Hopen Hwrite Hdir Hfile. pose proof Hplain as [Hsep _].
  unfold os.WriteFile.
  rewrite Clean_migrationPath, Dir_migrationPath by done.
  rewrite lookupNode_migrations, Hdir.
  unfold os.lookupNode. rewrite !decide_False by done. rewrite Hopen, Hwrite.
  destruct (fs !! ("db/migrations/" +:+ file)) as [[|d]|]; done.
Qed.

Lemma migrationPath_file timestamp name suffix :
  migrationPath timestamp name suffix =
    "db/migrations/" +:+ (fmt.Sprintf_d timestamp +:+ "_" +:+ name +:+ suffix).
Proof. reflexivity. Qed.

Lemma migrationPath_up_down timestamp name :
  migrationPath timestamp name ".up.sql" ≠ migrationPath timestamp name ".down.sql".
Proof.
  rewrite !migrationPath_file.
  intros H%String.app_inj%String.app_inj%String.app_inj%String.app_inj.
  discriminate H.
Qed.

Ltac run_proc :=
  unfold osCall, setFS, Printf, Fatal, main.gets;
  unfold mbind, mret, Proc_bind, Proc_ret, main.bind, main.ret;
  cbn -[filepath.Join os.MkdirAll os.WriteFile].

(** C8, as the claim states it, fails for a name with separators: at
    time 5 the name [x/../../y] gives two files in [db], outside the
    migrations directory and not named [5_x/../../y.*.sql].  It also
    fails when the directory cannot be made: with a regular file [db] in
    the way the command exits with status 1 and writes nothing.  And it
    fails when the operating system refuses a file: below a migrations
    directory that may not be written to, the command exits with status
    1 at the first file. *)
Lemma createMigration_separator_counterexample :
  (createMigration os.noFaults "x/../../y"
     (mkWorld ∅ EmptyString [] ∅ 5 sql.emptyWorld None)).1
    = Returned tt ∧
  fs (createMigration os.noFaults "x/../../y"
        (mkWorld ∅ EmptyString [] ∅ 5 sql.emptyWorld None)).2
    = list_to_map [("db", os.Dir); ("db/migrations", os.Dir);
                   ("db/y.up.sql", os.File ("-- Migration Up" +:+ nl));
                   ("db/y.down.sql", os.File ("-- Migration Down" +:+ nl))] ∧
  fs (createMigration os.noFaults "x/../../y"
        (mkWorld ∅ EmptyString [] ∅ 5 sql.emptyWorld None)).2
    !! migrationPath 5 "x/../../y" ".up.sql" = None ∧
  fs (createMigration os.noFaults "x/../../y"
        (mkWorld ∅ EmptyString [] ∅ 5 sql.emptyWorld None)).2
    !! migrationPath 5 "x/../../y" ".down.sql" = None ∧
  createMigration os.noFaults "add_users"
    (mkWorld {["db" := os.File "notes"]} EmptyString [] ∅ 5 sql.emptyWorld None)
    = (Exited 1,
       mkWorld {["db" := os.File "notes"]} EmptyString
         ["Failed to create migrations directory: mkdir ./db: not a directory"]
         ∅ 5 sql.emptyWorld None) ∧
  createMigration
    (os.mkFaults (λ _, None) (λ _, Some "permission denied") (λ _, None)) "add_users"
    (mkWorld {["db" := os.Dir; "db/migrations" := os.Dir]} EmptyString [] ∅ 5
             sql.emptyWorld None)
    = (Exited 1,
       mkWorld {["db" := os.Dir; "db/migrations" := os.Dir]} EmptyString
         ["Failed to create up migration file: " +:+
          "open db/migrations/5_add_users.up.sql: permission denied"]
         ∅ 5 sql.emptyWorld None).
Proof. repeat split; by vm_compute. Qed.

Lemma createMigration_run (faults : os.Faults) (name : string) (w : World) :
  nosep name →
  unhindered faults (unixTime w) name →
  dirOrFree (fs w) "db" → dirOrFree (fs w) "db/migrations" →
  fs w !! migrationPath (unixTime w) name ".up.sql" ≠ Some os.Dir →
  fs w !! migrationPath (unixTime w) name ".down.sql" ≠ Some os.Dir →
  createMigration faults name w =
    (Returned tt,
     mkWorld
       (<[migrationPath (unixTime w) name ".down.sql" := os.File ("-- Migration Down" +:+ nl)]>
        (<[migrationPath (unixTime w) name ".up.sql" := os.File ("-- Migration Up" +:+ nl)]>
         (<["db/migrations" := os.Dir]> (<["db" := os.Dir]> (fs w)))))
       (stdout w +:+ ("Created migration files:" +:+ nl +:+
                      migrationPath (unixTime w) name ".up.sql" +:+ nl +:+
                      migrationPath (unixTime w) name ".down.sql" +:+ nl))
       (stderr w) (environ w) (unixTime w) (handles w) (versionTable w)).
Proof.
  intros Hname (Hf1 & Hf2 & Hfiles) Hdb Hmig Hup Hdown.
  destruct (Hfiles ".up.sql") as [Hou Hwu]; [by left|].
  destruct (Hfiles ".down.sql") as [Hod Hwd]; [by right|].
  rewrite migrationPath_file in Hou, Hwu, Hod, Hwd.
  pose proof (migrationPath_up_down (unixTime w) name) as Hne.
  assert (plain (fmt.Sprintf_d (unixTime w) +:+ "_" +:+ name +:+ ".up.sql")) as Hpu.
  { apply migrationFile_plain; [done|done|cbn; lia]. }
  assert (plain (fmt.Sprintf_d (unixTime w) +:+ "_" +:+ name +:+ ".down.sql")) as Hpd.
  { apply migrationFile_plain; [done|done|cbn; lia]. }
  unfold createMigration. run_proc.
  rewrite (MkdirAll_migrationsDir faults (fs w) Hf1 Hf2 Hdb Hmig).
  rewrite !Join_migrationsDir by done. run_proc.
  rewrite WriteFile_migrationPath; [|done|done|done|by rewrite lookup_insert_eq|].
  2: { rewrite <- migrationPath_file, !lookup_insert_ne; [done|..];
       rewrite migrationPath_file; done. }
  run_proc.
  rewrite WriteFile_migrationPath; [|done|done|done| |].
  2: { rewrite lookup_insert_ne, lookup_insert_eq; [done|].
       rewrite <- migrationPath_file, migrationPath_file. done. }
  2: { rewrite <- !migrationPath_file.
       rewrite lookup_insert_ne by (by apply not_eq_sym).
       rewrite !lookup_insert_ne; [done|..]; rewrite migrationPath_file; done. }
  run_proc. by rewrite <- !migrationPath_file.
Qed.

(** C8, amended.  For every migration name without a path separator, at
    unix time T, when [db] and [db/migrations] are missing or
    directories, neither target is a directory, and the operating system
    refuses none of the calls that make the two directories and create
    and write the two files, the create command ends normally
    having written exactly the two files [db/migrations/T_<name>.up.sql]
    and [db/migrations/T_<name>.down.sql]: every other file is as before,
    the two directories exist, and the database handles, the version
    table, the environment and the log are untouched. *)
Theorem createMigration_writes_pair :
  ∀ (faults : os.Faults) (name : string) (w : World),
    nosep name →
    unhindered faults (unixTime w) name →
    dirOrFree (fs w) "db" → dirOrFree (fs w) "db/migrations" →
    fs w !! migrationPath (unixTime w) name ".up.sql" ≠ Some os.Dir →
    fs w !! migrationPath (unixTime w) name ".down.sql" ≠ Some os.Dir →
    migrationPath (unixTime w) name ".up.sql"
      ≠ migrationPath (unixTime w) name ".down.sql" ∧
    createMigration faults name w =
      (Returned tt,
       mkWorld
         (<[migrationPath (unixTime w) name ".down.sql" := os.File ("-- Migration Down" +:+ nl)]>
          (<[migrationPath (unixTime w) name ".up.sql" := os.File ("-- Migration Up" +:+ nl)]>
           (<["db/migrations" := os.Dir]> (<["db" := os.Dir]> (fs w)))))
         (stdout w +:+ ("Created migration files:" +:+ nl +:+
                        migrationPath (unixTime w) name ".up.sql" +:+ nl +:+
                        migrationPath (unixTime w) name ".down.sql" +:+ nl))
         (stderr w) (environ w) (unixTime w) (handles w) (versionTable w)) ∧
    (∀ p data,
       fs (createMigration faults name w).2 !! p = Some (os.File data) →
       p = migrationPath (unixTime w) name ".up.sql" ∨
       p = migrationPath (unixTime w) name ".down.sql" ∨
       fs w !! p = Some (os.File data)) ∧
    handles (createMigration faults name w).2 = handles w ∧
    versionTable (createMigration faults name w).2 = versionTable w.
Proof.
  intros faults name w Hname Hfaults Hdb Hmig Hup Hdown.
  rewrite (createMigration_run faults name w Hname Hfaults Hdb Hmig Hup Hdown).
  split; [apply migrationPath_up_down|]. split; [reflexivity|].
  cbn [snd fs handles versionTable]. split; [|done]. intros p data Hp.
  apply lookup_insert_Some in Hp as [[<- _]|[_ Hp]]; [auto|].
  apply lookup_insert_Some in Hp as [[<- _]|[_ Hp]]; [auto|].
  apply lookup_insert_Some in Hp as [[_ [=]]|[_ Hp]].
  apply lookup_insert_Some in Hp as [[_ [=]]|[_ Hp]]. auto.
Qed.

Lemma createMigration_writes_pair_witness :
  fs (createMigration os.noFaults "add_users"
        (mkWorld ∅ EmptyString [] ∅ 1700000000 sql.emptyWorld (Some (5%Z, false)))).2
    !! "db/migrations/1700000000_add_users.up.sql"
    = Some (os.File ("-- Migration Up" +:+ nl)) ∧
  fs (createMigration os.noFaults "add_users"
        (mkWorld ∅ EmptyString [] ∅ 1700000000 sql.emptyWorld (Some (5%Z, false)))).2
    !! "db/migrations/1700000000_add_users.down.sql"
    = Some (os.File ("-- Migration Down" +:+ nl)) ∧
  versionTable (createMigration os.noFaults "add_users"
        (mkWorld ∅ EmptyString [] ∅ 1700000000 sql.emptyWorld (Some (5%Z, false)))).2
    = Some (5%Z, false).
Proof.
  destruct (createMigration_writes_pair os.noFaults "add_users"
              (mkWorld ∅ EmptyString [] ∅ 1700000000 sql.emptyWorld (Some (5%Z, false))))
    as (Hne & Hrun & _ & _ & Hversion);
    [reflexivity | by repeat split | by left | by left | done | done |].
  rewrite Hrun. cbn [snd fs versionTable unixTime].
  split; [|split; [|reflexivity]].
  - rewrite lookup_insert_ne by (by apply not_eq_sym). apply lookup_insert_eq.
  - apply lookup_insert_eq.
Defined.



End CreateCommand.


(** * Further properties *)

(** ** The formatter *)

Section FormatDSNMore.
Import options spec.

Lemma prefix_app_same (s t : string) : String.prefix s (s +:+ t) = true.
Proof.
  induction s as [|a s IH]; [by destruct t|].
  rewrite append_cons. cbn. destruct (ascii_dec a a); [done|congruence].
Qed.

Lemma Contains_prefix (s sub : string) :
  String.prefix sub s = true → strings.Contains s sub = true.
Proof. intros H. destruct s; cbn [strings.Contains]; by rewrite H. Qed.

Lemma Contains_app_r (s t sub : string) :
  strings.Contains t sub = true → strings.Contains (s +:+ t) sub = true.
Proof.
  intros H. induction s as [|a s IH]; [done|].
  rewrite append_cons. cbn [strings.Contains]. rewrite IH. apply orb_true_r.
Qed.

Lemma Contains_app_l (s t sub : string) :
  strings.Contains s sub = true → strings.Contains (s +:+ t) sub = true.
Proof.
  revert sub. induction s as [|a s IH]; intros sub H.
  - destruct sub; [by destruct t|]. cbn in H. discriminate.
  - rewrite append_cons. cbn [strings.Contains] in *.
    apply orb_true_iff in H as [H|H].
    + apply orb_true_iff. left.
      destruct sub as [|b sub]; [done|]. cbn in *.
      destruct (ascii_dec b a); [|done]. 
      clear -H. revert sub H. induction s as [|c s IHs]; intros sub H.
      * destruct sub; [by destruct t|done].
      * destruct sub as [|d sub]; [done|]. rewrite append_cons. cbn in *.
        destruct (ascii_dec d c); [auto|done].
    + rewrite (IH _ H). apply orb_true_r.
Qed.

Lemma prefix_refl (s : string) : String.prefix s s = true.
Proof. induction s as [|a s IH]; [done|]. cbn. by destruct (ascii_dec a a). Qed.

Lemma Contains_Join (elems : list string) (sep e : string) :
  e ∈ elems → strings.Contains (strings.Join elems sep) e = true.
Proof.
  unfold strings.Join. induction elems as [|x [|y elems] IH]; intros Hin.
  - by apply elem_of_nil in Hin.
  - apply list_elem_of_singleton in Hin as ->.
    change (String.concat sep [x]) with x.
    apply Contains_prefix, prefix_refl.
  - change (String.concat sep (x :: y :: elems))
      with (x +:+ sep +:+ String.concat sep (y :: elems)).
    apply elem_of_cons in Hin as [->|Hin].
    + apply Contains_app_l, Contains_prefix, prefix_refl.
    + by apply Contains_app_r, Contains_app_r, IH.
Qed.

Lemma append_assoc (s t u : string) : (s +:+ t) +:+ u = s +:+ (t +:+ u).
Proof. induction s as [|a s IH]; [done|]. rewrite !append_cons. by rewrite IH. Qed.


(** X1.  The formatter only ever extends the path: the result begins
    with the path as given, and it is the path itself exactly when the
    pragma mapping is empty. *)
Theorem formatDSN_extends_path :
  ∀ (ord : nat) (path : string) (pragmas : Pragmas),
    strings.HasPrefix (formatDSN ord path pragmas) path = true ∧
    (formatDSN ord path pragmas = path ↔ pragmas = ∅).
Proof.
  intros ord path pragmas. destruct (decide (pragmas = ∅)) as [->|Hne].
  - rewrite formatDSN_empty. split; [apply prefix_refl|done].
  - rewrite (formatDSN_nonempty _ _ _ Hne). split; [apply prefix_app_same|].
    split; [|done]. intros Heq.
    assert (path +:+ EmptyString = path) as Hnil.
    { clear. induction path as [|a p IH]; [done|]. rewrite append_cons. by rewrite IH. }
    rewrite <- Hnil in Heq at 2. apply String.app_inj in Heq. discriminate Heq.
Qed.

(** X2.  No pragma is dropped: for every entry of the mapping, the text
    [name=value] occurs in the result. *)
Theorem formatDSN_carries_every_pragma :
  ∀ (ord : nat) (path : string) (pragmas : Pragmas) (k v : string),
    pragmas !! k = Some v →
    strings.Contains (formatDSN ord path pragmas) (k +:+ "=" +:+ v) = true.
Proof.
  intros ord path pragmas k v Hkv.
  assert (pragmas ≠ ∅) as Hne by (intros ->; by rewrite lookup_empty in Hkv).
  rewrite (formatDSN_nonempty _ _ _ Hne).
  apply Contains_app_r, Contains_app_r, Contains_Join.
  apply list_elem_of_fmap. exists (k, v). split; [done|].
  rewrite rangeMap_Permutation. by apply elem_of_map_to_list.
Qed.

Lemma formatDSN_carries_every_pragma_witness :
  strings.Contains (formatDSN 3 ":memory:" DefaultPragmas) "cache_size=-2000" = true.
Proof.
  apply (formatDSN_carries_every_pragma 3 ":memory:" DefaultPragmas
           "cache_size" "-2000").
  reflexivity.
Defined.



(** X4.  Names and values are copied as they are, without escaping: a
    single pragma whose value contains ["&name=value"] gives the very
    string that two separate pragmas can give. *)
Theorem formatDSN_does_not_escape :
  ∀ (path k v k' v' : string),
    k ≠ k' →
    ∃ ord,
      formatDSN 0 path {[k := v +:+ "&" +:+ k' +:+ "=" +:+ v']}
        = formatDSN ord path (<[k := v]> {[k' := v']}).
Proof.
  intros path k v k' v' Hne.
  destruct (rangeMap_complete (<[k := v]> {[k' := v']}) [(k, v); (k', v')])
    as [ord Hord].
  { rewrite map_to_list_insert by (by apply lookup_singleton_ne).
    by rewrite map_to_list_singleton. }
  exists ord. rewrite !formatDSN_unfold, Hord.
  pose proof (rangeMap_Permutation 0 {[k := v +:+ "&" +:+ k' +:+ "=" +:+ v']}) as Hp.
  rewrite map_to_list_singleton in Hp. apply Permutation_singleton_r in Hp as ->.
  unfold strings.Join, pairParam; cbn [fmap list_fmap fst snd String.concat].
  by rewrite !append_assoc.
Qed.

Lemma formatDSN_does_not_escape_witness :
  ∃ ord,
    formatDSN 0 "app.db" {["a" := "1" +:+ "&" +:+ "b" +:+ "=" +:+ "2"]}
      = formatDSN ord "app.db" (<["a" := "1"]> {["b" := "2"]}).
Proof. apply (formatDSN_does_not_escape "app.db" "a" "1" "b" "2"). discriminate. Defined.

End FormatDSNMore.

(** ** Opening and closing handles *)

Section OpenMore.
Import sql sqlapi spec.

Ltac run_io :=
  unfold NewConnector, OpenDB, sqlapi.Open, SetMaxOpenConns, SetMaxIdleConns,
    SetConnMaxLifetime, SetConnMaxIdleTime, Ping, Close, log, alloc,
    modify, gets;
  unfold mbind, mret, IO_bind, IO_ret, bind, ret; cbn;
  repeat (first [rewrite lookup_insert_eq | rewrite insert_insert_eq]; cbn).

(** X5.  [database.Open] applies pragmas to local targets only and the
    auth token to remote targets only: for a path that begins with
    ["libsql://"] neither the pragma set nor the order of the range loop
    has any effect on what [Open] does, and for any other path the auth
    token has none. *)
Theorem Open_uses_pragmas_or_token :
  ∀ (env : Env) (path token token' : string) (maxOpen maxIdle : Z)
    (life idle : time.Duration) (pragmas pragmas' : options.Pragmas)
    (ord ord' : nat) (w : World),
    (strings.HasPrefix path "libsql://" = true →
     database.Open env ord
       (database.mkConfig path token maxOpen maxIdle life idle pragmas) w
     = database.Open env ord'
         (database.mkConfig path token maxOpen maxIdle life idle pragmas') w) ∧
    (strings.HasPrefix path "libsql://" = false →
     database.Open env ord
       (database.mkConfig path token maxOpen maxIdle life idle pragmas) w
     = database.Open env ord
         (database.mkConfig path token' maxOpen maxIdle life idle pragmas) w).
Proof.
  intros. split; intros Hp; unfold database.Open; cbn [database.Path];
    rewrite Hp; reflexivity.
Qed.

Lemma Open_uses_pragmas_or_token_witness :
  database.Open (mkEnv (λ _ _, None) (λ _ _, None) (λ _, None) (λ _, None)) 0
    (database.mkConfig "libsql://db.example.io" "secret" 5 5 time.Hour time.Minute
                       options.DefaultPragmas) emptyWorld
  = database.Open (mkEnv (λ _ _, None) (λ _ _, None) (λ _, None) (λ _, None)) 4
      (database.mkConfig "libsql://db.example.io" "secret" 5 5 time.Hour time.Minute
                         ∅) emptyWorld ∧
  database.Open (mkEnv (λ _ _, None) (λ _ _, None) (λ _, None) (λ _, None)) 0
    (database.mkConfig "app.db" "secret" 5 5 time.Hour time.Minute
                       options.DefaultPragmas) emptyWorld
  = database.Open (mkEnv (λ _ _, None) (λ _ _, None) (λ _, None) (λ _, None)) 0
      (database.mkConfig "app.db" EmptyString 5 5 time.Hour time.Minute
                         options.DefaultPragmas) emptyWorld.
Proof.
  split.
  - destruct (Open_uses_pragmas_or_token
                (mkEnv (λ _ _, None) (λ _ _, None) (λ _, None) (λ _, None))
                "libsql://db.example.io" "secret" "secret" 5 5 time.Hour time.Minute
                options.DefaultPragmas ∅ 0 4 emptyWorld) as [Hremote _].
    apply Hremote. reflexivity.
  - destruct (Open_uses_pragmas_or_token
                (mkEnv (λ _ _, None) (λ _ _, None) (λ _, None) (λ _, None))
                "app.db" "secret" EmptyString 5 5 time.Hour time.Minute
                options.DefaultPragmas options.DefaultPragmas 0 0 emptyWorld)
      as [_ Hlocal].
    apply Hlocal. reflexivity.
Defined.



Lemma database_sqlite_Open_open_fails env ord cfg w err :
  open_error env "sqlite3"
    (options.formatDSN ord (database_sqlite.Path cfg) (database_sqlite.Pragmas cfg))
    = Some err →
  database_sqlite.Open env ord cfg w =
    (Err (Errorf "opening database" err),
     mkWorld (heap w)
       (trace w ++
        [EvSqlOpen "sqlite3"
           (options.formatDSN ord (database_sqlite.Path cfg)
                              (database_sqlite.Pragmas cfg))])).
Proof. unfold database_sqlite.Open. intros Herr. run_io. by rewrite Herr. Qed.

Lemma database_sqlite_Open_succeeds env ord cfg w :
  let dsn := options.formatDSN ord (database_sqlite.Path cfg)
                               (database_sqlite.Pragmas cfg) in
  let a := freshAddr w in
  open_error env "sqlite3" dsn = None →
  ping_error env (DriverDSN "sqlite3" dsn) = None →
  database_sqlite.Open env ord cfg w =
    (Ok (database_sqlite.mkDB (PtrDB a)),
     mkWorld (<[a := mkDB (DriverDSN "sqlite3" dsn) false]> (heap w))
             (trace w ++ [EvSqlOpen "sqlite3" dsn] ++
              poolCalls a (database_sqlite.MaxOpenConns cfg)
                        (database_sqlite.MaxIdleConns cfg)
                        (database_sqlite.ConnMaxLifetime cfg)
                        (database_sqlite.ConnMaxIdleTime cfg))).
Proof.
  intros dsn a. subst dsn a. unfold database_sqlite.Open, poolCalls.
  intros Hopen Hping. run_io. rewrite Hopen. run_io. rewrite Hping. run_io.
  by rewrite <- !app_assoc.
Qed.

Lemma lookup_insert_fresh (w : World) (x : DB) (b : nat) (h : DB) :
  heap w !! b = Some h → <[freshAddr w := x]> (heap w) !! b = Some h.
Proof.
  intros Hb. rewrite lookup_insert_ne; [done|].
  intros <-. by rewrite freshAddr_unused in Hb.
Qed.

(** X7.  None of the three [Open] functions touches a handle that existed
    before the call: whatever the outcome, every earlier handle is found
    afterwards in the state it was in. *)
Theorem Open_keeps_other_handles :
  ∀ (env : Env) (ord : nat) (w : World) (b : nat) (h : DB),
    heap w !! b = Some h →
    (∀ cfg, heap (database.Open env ord cfg w).2 !! b = Some h) ∧
    (∀ cfg, heap (sqlite3.Open env ord cfg w).2 !! b = Some h) ∧
    (∀ cfg, heap (database_sqlite.Open env ord cfg w).2 !! b = Some h).
Proof.
  intros env ord w b h Hb. split; [|split]; intros cfg.
  - destruct (strings.HasPrefix (database.Path cfg) "libsql://") eqn:Hremote.
    2:{ by rewrite (database_Open_local_panics env ord cfg w Hremote). }
    destruct (connector_error env (connectorDSN ord cfg) (connectorOpts cfg))
      as [err|] eqn:Hconn.
    { by rewrite (database_Open_connector_fails env ord cfg w err Hremote Hconn). }
    destruct (ping_error env (LibsqlConnector (connectorDSN ord cfg) (connectorOpts cfg)))
      as [err|] eqn:Hping.
    + rewrite (database_Open_ping_fails env ord cfg w err Hremote Hconn Hping).
      by apply lookup_insert_fresh.
    + rewrite (database_Open_succeeds env ord cfg w Hremote Hconn Hping).
      by apply lookup_insert_fresh.
  - destruct (open_error env "sqlite3" (sqlite3DSN ord cfg)) as [err|] eqn:Hopen.
    { by rewrite (sqlite3_Open_open_fails env ord cfg w err Hopen). }
    destruct (ping_error env (DriverDSN "sqlite3" (sqlite3DSN ord cfg)))
      as [err|] eqn:Hping.
    + rewrite (sqlite3_Open_ping_fails env ord cfg w err Hopen Hping).
      by apply lookup_insert_fresh.
    + rewrite (sqlite3_Open_succeeds env ord cfg w Hopen Hping).
      by apply lookup_insert_fresh.
  - set (dsn := options.formatDSN ord (database_sqlite.Path cfg)
                                  (database_sqlite.Pragmas cfg)).
    destruct (open_error env "sqlite3" dsn) as [err|] eqn:Hopen.
    { by rewrite (database_sqlite_Open_open_fails env ord cfg w err Hopen). }
    destruct (ping_error env (DriverDSN "sqlite3" dsn)) as [err|] eqn:Hping.
    + rewrite (database_sqlite_Open_ping_fails env ord cfg w err Hopen Hping).
      by apply lookup_insert_fresh.
    + rewrite (database_sqlite_Open_succeeds env ord cfg w Hopen Hping).
      by apply lookup_insert_fresh.
Qed.

Lemma Open_keeps_other_handles_witness :
  heap (database.Open (mkEnv (λ _ _, None) (λ _ _, None) (λ _, Some "no route")
                              (λ _, None)) 0
          (database.mkConfig "libsql://db.example.io" EmptyString 5 5
                             time.Hour time.Minute ∅)
          (mkWorld {[0%nat := mkDB (DriverDSN "sqlite3" "other.db") false]} [])).2
    !! 0%nat
  = Some (mkDB (DriverDSN "sqlite3" "other.db") false).
Proof.
  destruct (Open_keeps_other_handles
              (mkEnv (λ _ _, None) (λ _ _, None) (λ _, Some "no route") (λ _, None)) 0
              (mkWorld {[0%nat := mkDB (DriverDSN "sqlite3" "other.db") false]} [])
              0%nat (mkDB (DriverDSN "sqlite3" "other.db") false))
    as [Hdb _]; [reflexivity|].
  apply Hdb.
Defined.

(** X8.  Whenever [database.Open] of the libSQL variant returns an error,
    whether from building the connector or from the ping, no handle
    created by the call is left open. *)
Theorem database_Open_failure_leaves_nothing_open :
  ∀ (env : Env) (ord : nat) (cfg : database.Config) (w : World) (msg : string),
    (database.Open env ord cfg w).1 = Done (Err msg) →
    ∀ a, heap w !! a = None → isOpen (database.Open env ord cfg w).2 a = false.
Proof.
  intros env ord cfg w msg Herr.
  destruct (database_Open_error_closes env ord cfg w) as [Hclosed _].
  apply Hclosed. intros db. rewrite Herr. discriminate.
Qed.

Lemma database_Open_failure_leaves_nothing_open_witness :
  isOpen (database.Open (mkEnv (λ _ _, None) (λ _ _, None) (λ _, Some "no route") (λ _, None)) 0
            (database.mkConfig "libsql://db.example.io" "secret" 5 5
                               time.Hour time.Minute ∅)
            emptyWorld).2 0 = false.
Proof.
  apply (database_Open_failure_leaves_nothing_open
           (mkEnv (λ _ _, None) (λ _ _, None) (λ _, Some "no route") (λ _, None)) 0
           (database.mkConfig "libsql://db.example.io" "secret" 5 5
                              time.Hour time.Minute ∅)
           emptyWorld "pinging database: no route"); reflexivity.
Defined.

(** X9.  The same holds of [sqlite3.Open]: after any error return, no
    handle created by the call is left open. *)
Theorem sqlite3_Open_failure_leaves_nothing_open :
  ∀ (env : Env) (ord : nat) (cfg : sqlite3.Config) (w : World) (msg : string),
    (sqlite3.Open env ord cfg w).1 = Err msg →
    ∀ a, heap w !! a = None → isOpen (sqlite3.Open env ord cfg w).2 a = false.
Proof.
  intros env ord cfg w msg Herr.
  exact (sqlite3_Open_error_closes env ord cfg w msg Herr).
Qed.

Lemma sqlite3_Open_failure_leaves_nothing_open_witness :
  isOpen (sqlite3.Open (mkEnv (λ _ _, None) (λ _ _, None) (λ _, Some "no route") (λ _, None)) 0
            (sqlite3.mkConfig "app.db" EmptyString 5 5 time.Hour time.Minute ∅)
            emptyWorld).2 0 = false.
Proof.
  apply (sqlite3_Open_failure_leaves_nothing_open
           (mkEnv (λ _ _, None) (λ _ _, None) (λ _, Some "no route") (λ _, None)) 0
           (sqlite3.mkConfig "app.db" EmptyString 5 5 time.Hour time.Minute ∅)
           emptyWorld "pinging database: no route"); reflexivity.
Defined.

(** X10.  In the older [Open] on go-sqlite3 every failed ping leaks: for
    any configuration and any state, when the driver opens and the ping
    fails, the error is returned while the handle just created is open,
    the last call made is the ping and the caller gets no handle to
    close. *)
Theorem legacy_Open_leaks_on_every_failed_ping :
  ∀ (env : Env) (ord : nat) (cfg : database_sqlite.Config) (w : World) (err : string),
    open_error env "sqlite3"
      (options.formatDSN ord (database_sqlite.Path cfg) (database_sqlite.Pragmas cfg))
      = None →
    ping_error env
      (DriverDSN "sqlite3"
         (options.formatDSN ord (database_sqlite.Path cfg) (database_sqlite.Pragmas cfg)))
      = Some err →
    (database_sqlite.Open env ord cfg w).1 = Err (Errorf "pinging database" err) ∧
    heap w !! freshAddr w = None ∧
    isOpen (database_sqlite.Open env ord cfg w).2 (freshAddr w) = true ∧
    last (trace (database_sqlite.Open env ord cfg w).2) = Some (EvPing (freshAddr w)).
Proof.
  intros env ord cfg w err Hopen Hping.
  destruct (database_sqlite_Open_ping_failure_leaks env ord cfg w err Hopen Hping)
    as (Hres & Hfresh & Hisopen & _ & Hlast).
  done.
Qed.

Lemma legacy_Open_leaks_on_every_failed_ping_witness :
  isOpen (database_sqlite.Open
            (mkEnv (λ _ _, None) (λ _ _, None) (λ _, Some "no route") (λ _, None)) 2
            database_sqlite.DefaultConfig emptyWorld).2 0 = true.
Proof.
  destruct (legacy_Open_leaks_on_every_failed_ping
              (mkEnv (λ _ _, None) (λ _ _, None) (λ _, Some "no route") (λ _, None)) 2
              database_sqlite.DefaultConfig emptyWorld "no route")
    as (_ & _ & Hisopen & _); [reflexivity..|].
  exact Hisopen.
Defined.

(** X11.  The test [db == nil] after the handle is built never fires:
    [database.Open] and [sqlite3.Open] never return the error
    ["failed to create a database connection"]; every error they return
    is a wrapped connector, driver or ping error. *)
Theorem Open_nil_check_never_fires :
  ∀ (env : Env) (ord : nat) (w : World),
    (∀ cfg, (database.Open env ord cfg w).1
            ≠ Done (Err "failed to create a database connection")) ∧
    (∀ cfg, (sqlite3.Open env ord cfg w).1
            ≠ Err "failed to create a database connection").
Proof.
  intros env ord w. split; intros cfg.
  - destruct (strings.HasPrefix (database.Path cfg) "libsql://") eqn:Hremote.
    2:{ by rewrite (database_Open_local_panics env ord cfg w Hremote). }
    destruct (connector_error env (connectorDSN ord cfg) (connectorOpts cfg))
      as [err|] eqn:Hconn.
    { rewrite (database_Open_connector_fails env ord cfg w err Hremote Hconn).
      unfold Errorf; discriminate. }
    destruct (ping_error env (LibsqlConnector (connectorDSN ord cfg) (connectorOpts cfg)))
      as [err|] eqn:Hping.
    + rewrite (database_Open_ping_fails env ord cfg w err Hremote Hconn Hping).
      unfold Errorf; discriminate.
    + by rewrite (database_Open_succeeds env ord cfg w Hremote Hconn Hping).
  - destruct (open_error env "sqlite3" (sqlite3DSN ord cfg)) as [err|] eqn:Hopen.
    { rewrite (sqlite3_Open_open_fails env ord cfg w err Hopen).
      unfold Errorf; discriminate. }
    destruct (ping_error env (DriverDSN "sqlite3" (sqlite3DSN ord cfg)))
      as [err|] eqn:Hping.
    + rewrite (sqlite3_Open_ping_fails env ord cfg w err Hopen Hping).
      unfold Errorf; discriminate.
    + by rewrite (sqlite3_Open_succeeds env ord cfg w Hopen Hping).
Qed.

(** X12.  [Open] followed by [Close] leaks nothing: when [database.Open]
    returns a handle, [Close] on it does not panic and leaves every
    handle created since the start closed, whether or not the driver
    reports an error on closing; it returns nil when the driver reports
    none and the error wrapped as ["closing database: ..."] otherwise.
    Earlier handles are left as they were. *)
Theorem Open_then_Close_leaves_nothing_open :
  ∀ (env : Env) (ord : nat) (cfg : database.Config) (w : World) (db : database.DB),
    (database.Open env ord cfg w).1 = Done (Ok db) →
    (database_DB.Close env db (database.Open env ord cfg w).2).1
      = Done match close_error env
                     (LibsqlConnector (connectorDSN ord cfg) (connectorOpts cfg)) with
             | Some err => Some (Errorf "closing database" err)
             | None => None
             end ∧
    (∀ a, heap w !! a = None →
          isOpen (database_DB.Close env db (database.Open env ord cfg w).2).2 a = false) ∧
    (∀ b h, heap w !! b = Some h →
            heap (database_DB.Close env db (database.Open env ord cfg w).2).2 !! b
              = Some h).
Proof.
  intros env ord cfg w db.
  destruct (strings.HasPrefix (database.Path cfg) "libsql://") eqn:Hremote.
  2:{ by rewrite (database_Open_local_panics env ord cfg w Hremote). }
  destruct (connector_error env (connectorDSN ord cfg) (connectorOpts cfg))
    as [err|] eqn:Hconn.
  { by rewrite (database_Open_connector_fails env ord cfg w err Hremote Hconn). }
  destruct (ping_error env (LibsqlConnector (connectorDSN ord cfg) (connectorOpts cfg)))
    as [err|] eqn:Hping.
  { by rewrite (database_Open_ping_fails env ord cfg w err Hremote Hconn Hping). }
  rewrite (database_Open_succeeds env ord cfg w Hremote Hconn Hping).
  intros [= <-]. unfold database_DB.Close. cbn [snd database.DB_]. run_io.
  split; [by destruct (close_error env _)|].
  split.
  - intros a Ha. destruct (close_error env _); unfold isOpen, isClosed; cbn;
      (destruct (decide (freshAddr w = a)) as [<-|Hne];
       [by rewrite lookup_insert_eq | by rewrite lookup_insert_ne, Ha]).
  - intros b h Hb. destruct (close_error env _); cbn; by apply lookup_insert_fresh.
Qed.

Lemma Open_then_Close_leaves_nothing_open_witness :
  (database_DB.Close (mkEnv (λ _ _, None) (λ _ _, None) (λ _, None) (λ _, None))
     (database.mkDB (PtrDB 0))
     (database.Open (mkEnv (λ _ _, None) (λ _ _, None) (λ _, None) (λ _, None)) 0
        (database.mkConfig "libsql://db.example.io" "secret" 5 5
                           time.Hour time.Minute options.DefaultPragmas)
        emptyWorld).2).1 = Done None.
Proof.
  destruct (Open_then_Close_leaves_nothing_open
              (mkEnv (λ _ _, None) (λ _ _, None) (λ _, None) (λ _, None)) 0
              (database.mkConfig "libsql://db.example.io" "secret" 5 5
                                 time.Hour time.Minute options.DefaultPragmas)
              emptyWorld (database.mkDB (PtrDB 0))) as [Hres _]; [reflexivity|].
  exact Hres.
Defined.

End OpenMore.

(** ** Data source names of the sqlite3 variants *)

Section DataSourceNames.
Import sql sqlapi spec options.

Ltac run_io :=
  unfold NewConnector, OpenDB, sqlapi.Open, SetMaxOpenConns, SetMaxIdleConns,
    SetConnMaxLifetime, SetConnMaxIdleTime, Ping, Close, log, alloc,
    modify, gets;
  unfold mbind, mret, IO_bind, IO_ret, bind, ret; cbn;
  repeat (first [rewrite lookup_insert_eq | rewrite insert_insert_eq]; cbn).

Lemma prefix_app_inv (s t : string) :
  String.prefix s t = true → ∃ u, t = s +:+ u.
Proof.
  revert t. induction s as [|a s IH]; intros t H; [by exists t|].
  destruct t as [|b t]; [done|]. cbn in H.
  destruct (ascii_dec a b) as [->|]; [|done].
  destruct (IH t H) as [u ->]. by exists u.
Qed.

Lemma HasPrefix_app (s p t : string) :
  strings.HasPrefix s p = true → strings.HasPrefix (s +:+ t) p = true.
Proof.
  unfold strings.HasPrefix. intros [u ->]%prefix_app_inv.
  rewrite append_assoc. apply prefix_app_same.
Qed.

Lemma formatDSN_HasPrefix ord path (m : Pragmas) p :
  strings.HasPrefix path p = true → strings.HasPrefix (formatDSN ord path m) p = true.
Proof.
  intros Hp. rewrite formatDSN_unfold.
  destruct (rangeMap ord m); [done|]. by apply HasPrefix_app.
Qed.

(** X13.  Whatever the configuration, the data source name that
    [sqlite3.Open] hands to the driver is the bare [":memory:"] or begins
    with ["file:"]; a path that already begins with ["file:"] is not
    prefixed a second time. *)
Theorem sqlite3_Open_dsn_scheme :
  ∀ (env : Env) (ord : nat) (cfg : sqlite3.Config) (w : World),
    ∃ (dsn : string) (rest : list Event),
      trace (sqlite3.Open env ord cfg w).2
        = (trace w ++ EvSqliteVecAuto :: EvSqlOpen "sqlite3" dsn :: rest)%list ∧
      (dsn = ":memory:" ∨ strings.HasPrefix dsn "file:" = true) ∧
      (strings.HasPrefix (sqlite3.Path cfg) "file:" = true →
       dsn = formatDSN ord (sqlite3.Path cfg) (sqlite3.Pragmas cfg)).
Proof.
  intros env ord cfg w.
  destruct (sqlite3_Open_first_call env ord cfg w) as [rest Hrest].
  exists (sqlite3DSN ord cfg), rest. split; [done|].
  unfold sqlite3DSN; cbn zeta.
  set (dsn := formatDSN ord (sqlite3.Path cfg) (sqlite3.Pragmas cfg)).
  split.
  - destruct (bool_decide_reflect (dsn ≠ ":memory:")) as [Hne|Heq]; cbn.
    + destruct (strings.HasPrefix dsn "file:") eqn:Hpre; cbn; [by right|].
      right. apply (prefix_app_same "file:").
    + left. by destruct (decide (dsn = ":memory:")).
  - intros Hfile.
    pose proof (formatDSN_HasPrefix ord _ (sqlite3.Pragmas cfg) _ Hfile) as Hpre.
    fold dsn in Hpre. by rewrite Hpre, andb_false_r.
Qed.

Lemma sqlite3_Open_dsn_scheme_witness :
  ∃ (rest : list Event),
    trace (sqlite3.Open (mkEnv (λ _ _, None) (λ _ _, None) (λ _, None) (λ _, None)) 0
             (sqlite3.mkConfig "file:app.db" EmptyString 5 5 time.Hour time.Minute
                               {["foreign_keys" := "ON"]})
             emptyWorld).2
      = EvSqliteVecAuto :: EvSqlOpen "sqlite3" "file:app.db?foreign_keys=ON" :: rest.
Proof.
  destruct (sqlite3_Open_dsn_scheme
              (mkEnv (λ _ _, None) (λ _ _, None) (λ _, None) (λ _, None)) 0
              (sqlite3.mkConfig "file:app.db" EmptyString 5 5 time.Hour time.Minute
                                {["foreign_keys" := "ON"]})
              emptyWorld) as (dsn & rest & Htrace & _ & Hfile).
  exists rest. rewrite Htrace, (Hfile eq_refl). reflexivity.
Defined.

Lemma Contains_CountByte (s : string) (c : ascii) :
  strings.Contains s (String c EmptyString) = negb (Nat.eqb (strings.CountByte s c) 0).
Proof.
  induction s as [|a s IH]; [done|].
  cbn [strings.Contains strings.CountByte String.prefix]. rewrite IH.
  destruct (ascii_dec c a) as [->|Hne].
  - rewrite Ascii.eqb_refl. by destruct s.
  - assert (Ascii.eqb a c = false) as -> by (apply Ascii.eqb_neq; congruence).
    done.
Qed.

Lemma formatDSN_query_marks ord path (m : Pragmas) :
  queryFree path m →
  strings.CountByte (formatDSN ord path m) "?" = if decide (m = ∅) then 0 else 1.
Proof.
  intros [Hpath Hkv]. destruct (decide (m = ∅)) as [->|Hne].
  - by rewrite formatDSN_empty.
  - rewrite (formatDSN_nonempty _ _ _ Hne), !CountByte_app, Hpath.
    rewrite CountByte_Join; [done..|].
    intros e [[k v] [-> Hin]]%list_elem_of_fmap.
    rewrite rangeMap_Permutation in Hin.
    apply elem_of_map_to_list in Hin. destruct (Hkv k v Hin) as [Hk Hv].
    unfold pairParam; cbn [fst snd]. rewrite !CountByte_app, Hk, Hv. done.
Qed.

(** The name the earlier variant computes before it calls the driver. *)
Lemma sqlite3_fts5_Open_first_call env ord cfg w :
  let dsn := formatDSN ord (sqlite3.Path cfg) (sqlite3.Pragmas cfg) in
  let dsn :=
    if bool_decide (dsn ≠ ":memory:") && negb (strings.HasPrefix dsn "file:")
    then "file:" +:+ dsn else dsn in
  let dsn :=
    if strings.Contains dsn "?"
    then dsn +:+ "&_fts5=1&_json=1" else dsn +:+ "?_fts5=1&_json=1" in
  ∃ rest, trace (sqlite3_fts5.Open env ord cfg w).2
          = (trace w ++ EvSqlOpen "sqlite3" dsn :: rest)%list.
Proof.
  cbn zeta. unfold sqlite3_fts5.Open. cbn zeta.
  set (dsn := if strings.Contains _ "?" then _ else _).
  run_io. destruct (open_error env "sqlite3" dsn); run_io; [by eexists|].
  destruct (ping_error env (DriverDSN "sqlite3" dsn)); run_io;
    rewrite <- !app_assoc; by eexists.
Qed.

(** X14.  The earlier [sqlite3.Open] always asks for the FTS5 and JSON
    extensions at the end of the data source name, joined with ["&"] when
    the name already carries a query and with ["?"] otherwise: when
    neither the path nor a pragma contains ["?"], the name handed to the
    driver has exactly one ["?"], with or without pragmas. *)
Theorem sqlite3_fts5_Open_dsn_query :
  ∀ (env : Env) (ord : nat) (cfg : sqlite3.Config) (w : World),
    ∃ (base : string) (sep : string) (rest : list Event),
      trace (sqlite3_fts5.Open env ord cfg w).2
        = (trace w ++
           EvSqlOpen "sqlite3" (base +:+ sep +:+ "_fts5=1&_json=1") :: rest)%list ∧
      (sep = "?" ∨ sep = "&") ∧
      (queryFree (sqlite3.Path cfg) (sqlite3.Pragmas cfg) →
       strings.CountByte (base +:+ sep +:+ "_fts5=1&_json=1") "?" = 1 ∧
       (sep = "?" ↔ sqlite3.Pragmas cfg = ∅)).
Proof.
  intros env ord cfg w.
  destruct (sqlite3_fts5_Open_first_call env ord cfg w) as [rest Hrest].
  cbn zeta in Hrest. revert Hrest.
  set (dsn0 := formatDSN ord (sqlite3.Path cfg) (sqlite3.Pragmas cfg)).
  set (dsn1 := if bool_decide (dsn0 ≠ ":memory:") && negb (strings.HasPrefix dsn0 "file:")
               then "file:" +:+ dsn0 else dsn0).
  intros Hrest.
  assert (strings.CountByte dsn1 "?" = strings.CountByte dsn0 "?") as Hcount.
  { unfold dsn1. destruct (_ && _); [|done]. by rewrite CountByte_app. }
  exists dsn1, (if strings.Contains dsn1 "?" then "&" else "?"), rest.
  split; [|split].
  - rewrite Hrest. by destruct (strings.Contains dsn1 "?").
  - destruct (strings.Contains dsn1 "?"); auto.
  - intros Hfree. pose proof (formatDSN_query_marks ord _ _ Hfree) as Hmarks.
    fold dsn0 in Hmarks. rewrite Contains_CountByte, Hcount, Hmarks.
    rewrite !CountByte_app, Hcount, Hmarks.
    destruct (decide (sqlite3.Pragmas cfg = ∅)) as [Hempty|Hne]; cbn.
    + split; [done|]. by split.
    + split; [done|]. split; [discriminate|done].
Qed.

Lemma sqlite3_fts5_Open_dsn_query_witness :
  ∃ (base : string) (sep : string) (rest : list Event),
    trace (sqlite3_fts5.Open (mkEnv (λ _ _, None) (λ _ _, None) (λ _, None) (λ _, None)) 0
             (sqlite3.mkConfig ":memory:" EmptyString 5 5 time.Hour time.Minute ∅)
             emptyWorld).2
      = EvSqlOpen "sqlite3" (base +:+ sep +:+ "_fts5=1&_json=1") :: rest ∧
    strings.CountByte (base +:+ sep +:+ "_fts5=1&_json=1") "?" = 1 ∧ sep = "?".
Proof.
  destruct (sqlite3_fts5_Open_dsn_query
              (mkEnv (λ _ _, None) (λ _ _, None) (λ _, None) (λ _, None)) 0
              (sqlite3.mkConfig ":memory:" EmptyString 5 5 time.Hour time.Minute ∅)
              emptyWorld) as (base & sep & rest & Htrace & _ & Hfree).
  destruct Hfree as [Hcount Hsep].
  - split; [reflexivity|]. intros k v Hkv. cbn [sqlite3.Pragmas] in Hkv.
    by rewrite lookup_empty in Hkv.
  - exists base, sep, rest. split; [exact Htrace|]. split; [exact Hcount|].
    by apply Hsep.
Defined.

End DataSourceNames.

(** ** The commands of the migration tool *)

Section Commands.
Import main cmd spec spec2.

Ltac run_proc :=
  unfold Printf, Fatal, Crash, main.gets, liftIO,
    sqlapi.NewConnector, sqlapi.OpenDB, sql.log, sql.alloc,
    sql.modify, sql.gets;
  unfold mbind, mret, Proc_bind, Proc_ret, main.bind, main.ret,
    sql.IO_bind, sql.IO_ret, sql.bind, sql.ret;
  cbn.

(** [runMigration] stage by stage. *)
Lemma runMigration_stages env menv (f : Proc (option migrate.error)) w :
  runMigration env menv f w =
    if strings.HasPrefix (dbPathOf w) "libsql://" then
      match sql.connector_error env (dbPathOf w) (openOpts (dbPathOf w)) with
      | Some err =>
          (Exited 1,
           logged ("Failed to create libSQL connector: " +:+ err)
                  (setHandles (refused (dbPathOf w) (handles w)) w))
      | None =>
          let w1 := setHandles (opened (dbPathOf w) (handles w)) w in
          match withInstance_error menv (sql.PtrDB (sql.freshAddr (handles w))) with
          | Some err => (Exited 1, logged ("Failed to connect to database: " +:+ err) w1)
          | None =>
              match newInstance_error menv "file://./db/migrations" "sqlite" with
              | Some err =>
                  (Exited 1, logged ("Failed to create migration instance: " +:+ err) w1)
              | None =>
                  match f w1 with
                  | (Returned (Some e), w2) =>
                      if migrate.Is e migrate.ErrNoChange
                      then (Returned tt, printed ("No migration needed" +:+ nl) w2)
                      else (Exited 1,
                            logged ("Migration failed: " +:+ migrate.Error e) w2)
                  | (Returned None, w2) =>
                      (Returned tt, printed ("Migration successful" +:+ nl) w2)
                  | (Exited code, w2) => (Exited code, w2)
                  end
              end
          end
      end
    else
      (Exited 2,
       logged ("panic: " +:+ nilDereference)
              (setHandles (refused (dbPathOf w) (handles w)) w)).
Proof.
  unfold runMigration.
  unfold mbind at 1, Proc_bind, main.bind. rewrite getDBPath_run.
  unfold mbind at 1, Proc_bind, main.bind.
  destruct (strings.HasPrefix (dbPathOf w) "libsql://") eqn:Hremote.
  2:{ by rewrite (openDB_local_panics env _ w Hremote). }
  destruct (sql.connector_error env (dbPathOf w) (openOpts (dbPathOf w)))
    as [err|] eqn:Hconn.
  { by rewrite (openDB_refused env _ w err Hremote Hconn). }
  rewrite (openDB_opened env _ w Hremote Hconn). cbn zeta.
  destruct (withInstance_error menv _) as [err|]; [reflexivity|].
  change ("file://" +:+ migrationsDir) with "file://./db/migrations".
  destruct (newInstance_error menv _ _) as [err|]; [reflexivity|].
  unfold mbind, Proc_bind, main.bind.
  destruct (f _) as [[[e|]|code] w2]; [|reflexivity..].
  by destruct (migrate.Is e migrate.ErrNoChange).
Qed.

(** X15.  The version command connects to the path of the environment
    variable [DB_PATH], and to ["parsel.db"] when the variable is unset
    or empty; never to an empty path.  The path is handed to the
    connector as it is (no pragmas, no prefix), first of all calls, and
    never with an auth token. *)
Theorem getMigrationVersion_connects_to_DB_PATH :
  ∀ (env : sql.Env) (menv : MigrateEnv) (w : World),
    ∃ (dbPath : string) (opts : list libsql.Option) (rest : list sql.Event),
      sql.trace (handles (getMigrationVersion env menv w).2)
        = (sql.trace (handles w) ++ sql.EvNewConnector dbPath opts :: rest)%list ∧
      dbPath ≠ EmptyString ∧
      (opts = [] ∨ opts = [libsql.NilOption]) ∧
      (∀ p, environ w !! "DB_PATH" = Some p → p ≠ EmptyString → dbPath = p) ∧
      (environ w !! "DB_PATH" = None ∨ environ w !! "DB_PATH" = Some EmptyString →
       dbPath = "parsel.db").
Proof.
  intros env menv w.
  exists (dbPathOf w), (openOpts (dbPathOf w)).
  assert (∃ rest, sql.trace (handles (getMigrationVersion env menv w).2)
                  = (sql.trace (handles w) ++
                     sql.EvNewConnector (dbPathOf w) (openOpts (dbPathOf w)) :: rest)%list)
    as [rest Hrest].
  { rewrite getMigrationVersion_stages.
    destruct (strings.HasPrefix _ _); [|by exists []].
    destruct (sql.connector_error env _ _); [by exists []|]. cbn zeta.
    destruct (withInstance_error menv _); [by eexists|].
    destruct (newInstance_error menv _ _); [by eexists|].
    destruct (versionTable w) as [[version dirty]|]; [|by eexists].
    destruct (decide (version = migrate.NilVersion)); [by eexists|].
    destruct (decide (version < 0)%Z); by eexists. }
  exists rest. split; [done|]. split; [apply dbPathOf_nonempty|]. split.
  { unfold openOpts. destruct (strings.HasPrefix _ _); auto. }
  unfold dbPathOf. split.
  - intros p -> Hp. by rewrite decide_False.
  - intros [-> | ->]; done.
Qed.

Lemma getMigrationVersion_connects_to_DB_PATH_witness :
  ∃ (opts : list libsql.Option) (rest : list sql.Event),
    sql.trace (handles (getMigrationVersion
                          (sql.mkEnv (λ _ _, None) (λ _ _, None) (λ _, None) (λ _, None))
                          (mkMigrateEnv (λ _, None) (λ _ _, None))
                          (mkWorld ∅ EmptyString [] {["DB_PATH" := "data/app.db"]} 0
                                   sql.emptyWorld None)).2)
      = sql.EvNewConnector "data/app.db" opts :: rest.
Proof.
  destruct (getMigrationVersion_connects_to_DB_PATH
              (sql.mkEnv (λ _ _, None) (λ _ _, None) (λ _, None) (λ _, None))
              (mkMigrateEnv (λ _, None) (λ _ _, None))
              (mkWorld ∅ EmptyString [] {["DB_PATH" := "data/app.db"]} 0
                       sql.emptyWorld None))
    as (dbPath & opts & rest & Htrace & _ & _ & Hset & _).
  exists opts, rest. rewrite Htrace.
  rewrite (Hset "data/app.db"); [reflexivity|reflexivity|discriminate].
Defined.

(** X16.  Once a remote database is connected and the migrate instance
    built, [runMigration] ends as the function it was given ends: on
    [ErrNoChange] it prints "No migration needed" and returns normally,
    on no error it prints "Migration successful", and on any other error
    it logs "Migration failed" and exits with status 1 without printing.
    The function is run in the initial world plus the new handle. *)
Theorem runMigration_outcomes :
  ∀ (env : sql.Env) (menv : MigrateEnv) (migrateFn : Proc (option migrate.error))
    (w : World),
    strings.HasPrefix (dbPathOf w) "libsql://" = true →
    sql.connector_error env (dbPathOf w) [] = None →
    withInstance_error menv (sql.PtrDB (sql.freshAddr (handles w))) = None →
    newInstance_error menv "file://./db/migrations" "sqlite" = None →
    (∀ w2, migrateFn (setHandles (opened (dbPathOf w) (handles w)) w)
             = (Returned (Some migrate.ErrNoChange), w2) →
           runMigration env menv migrateFn w
             = (Returned tt, printed ("No migration needed" +:+ nl) w2)) ∧
    (∀ w2, migrateFn (setHandles (opened (dbPathOf w) (handles w)) w)
             = (Returned None, w2) →
           runMigration env menv migrateFn w
             = (Returned tt, printed ("Migration successful" +:+ nl) w2)) ∧
    (∀ e w2, migrateFn (setHandles (opened (dbPathOf w) (handles w)) w)
               = (Returned (Some e), w2) →
             e ≠ migrate.ErrNoChange →
             runMigration env menv migrateFn w
               = (Exited 1, logged ("Migration failed: " +:+ migrate.Error e) w2)).
Proof.
  intros env menv f w Hremote Hconn Hinst Hnew.
  rewrite runMigration_stages. unfold openOpts. rewrite Hremote, Hconn.
  cbn zeta. rewrite Hinst, Hnew.
  split; [|split].
  - intros w2 Hf. rewrite Hf. reflexivity.
  - intros w2 Hf. rewrite Hf. reflexivity.
  - intros e w2 Hf He. rewrite Hf. by destruct e.
Qed.

Lemma runMigration_outcomes_witness :
  runMigration (sql.mkEnv (λ _ _, None) (λ _ _, None) (λ _, None) (λ _, None))
    (mkMigrateEnv (λ _, None) (λ _ _, None))
    (λ w, (Returned (Some migrate.ErrNoChange), w))
    (mkWorld ∅ EmptyString [] {["DB_PATH" := "libsql://db.example.io"]} 0
             sql.emptyWorld (Some (7%Z, false)))
  = (Returned tt,
     printed ("No migration needed" +:+ nl)
       (setHandles (opened "libsql://db.example.io" sql.emptyWorld)
          (mkWorld ∅ EmptyString [] {["DB_PATH" := "libsql://db.example.io"]} 0
                   sql.emptyWorld (Some (7%Z, false))))).
Proof.
  destruct (runMigration_outcomes
              (sql.mkEnv (λ _ _, None) (λ _ _, None) (λ _, None) (λ _, None))
              (mkMigrateEnv (λ _, None) (λ _ _, None))
              (λ w, (Returned (Some migrate.ErrNoChange), w))
              (mkWorld ∅ EmptyString [] {["DB_PATH" := "libsql://db.example.io"]} 0
                       sql.emptyWorld (Some (7%Z, false))))
    as [Hnochange _]; [reflexivity..|].
  apply Hnochange. reflexivity.
Defined.

(** X17.  When the database path is a local one, so that the connector
    call panics, or when the connector, the database driver or the
    migrate instance cannot be set up, [runMigration] ends the process
    without running the function it was given: the result is the same
    for every function, the exit status is 2 after the panic and 1
    otherwise, one message is logged, and nothing is printed or changed
    but the handles. *)
Theorem runMigration_setup_failure_skips_migration :
  ∀ (env : sql.Env) (menv : MigrateEnv) (w : World),
    strings.HasPrefix (dbPathOf w) "libsql://" = false ∨
    sql.connector_error env (dbPathOf w) [] ≠ None ∨
    withInstance_error menv (sql.PtrDB (sql.freshAddr (handles w))) ≠ None ∨
    newInstance_error menv "file://./db/migrations" "sqlite" ≠ None →
    ∃ (msg : string) (h : sql.World),
      ∀ migrateFn : Proc (option migrate.error),
        runMigration env menv migrateFn w
          = (Exited (if strings.HasPrefix (dbPathOf w) "libsql://" then 1 else 2)%Z,
             logged msg (setHandles h w)).
Proof.
  intros env menv w Hfail.
  destruct (strings.HasPrefix (dbPathOf w) "libsql://") eqn:Hremote.
  2:{ eexists _, _. intros f. rewrite runMigration_stages, Hremote. reflexivity. }
  assert (openOpts (dbPathOf w) = []) as Hopts by (unfold openOpts; by rewrite Hremote).
  destruct (sql.connector_error env (dbPathOf w) []) as [err|] eqn:Hconn.
  { eexists _, _. intros f. rewrite runMigration_stages, Hremote, Hopts, Hconn.
    reflexivity. }
  destruct (withInstance_error menv (sql.PtrDB (sql.freshAddr (handles w))))
    as [err|] eqn:Hinst.
  { eexists _, _. intros f. rewrite runMigration_stages, Hremote, Hopts, Hconn.
    cbn zeta. rewrite Hinst. reflexivity. }
  destruct (newInstance_error menv "file://./db/migrations" "sqlite")
    as [err|] eqn:Hnew.
  { eexists _, _. intros f. rewrite runMigration_stages, Hremote, Hopts, Hconn.
    cbn zeta. rewrite Hinst, Hnew. reflexivity. }
  destruct Hfail as [H|[H|[H|H]]]; [discriminate H | by destruct H..].
Qed.

Lemma runMigration_setup_failure_skips_migration_witness :
  ∃ (msg : string) (h : sql.World),
    ∀ migrateFn : Proc (option migrate.error),
      runMigration (sql.mkEnv (λ _ _, None) (λ _ _, None) (λ _, None) (λ _, None))
        (mkMigrateEnv (λ _, None) (λ _ _, Some "open ./db/migrations: no such directory"))
        migrateFn
        (mkWorld ∅ EmptyString [] {["DB_PATH" := "libsql://db.example.io"]} 0
                 sql.emptyWorld None)
      = (Exited 1,
         logged msg
           (setHandles h
              (mkWorld ∅ EmptyString [] {["DB_PATH" := "libsql://db.example.io"]} 0
                       sql.emptyWorld None))).
Proof.
  destruct (runMigration_setup_failure_skips_migration
              (sql.mkEnv (λ _ _, None) (λ _ _, None) (λ _, None) (λ _, None))
              (mkMigrateEnv (λ _, None)
                            (λ _ _, Some "open ./db/migrations: no such directory"))
              (mkWorld ∅ EmptyString [] {["DB_PATH" := "libsql://db.example.io"]} 0
                       sql.emptyWorld None))
    as (msg & h & Hrun).
  { right. right. right. discriminate. }
  exists msg, h. intros migrateFn. rewrite (Hrun migrateFn). reflexivity.
Defined.


(** X19.  [main] acts only on a well-formed command line.  With no
    argument, with a first argument other than new, up, down and version,
    or with new followed by anything but exactly one name, it logs one
    message and exits with status 1, leaving files, handles, version and
    output untouched.  Otherwise it runs the one command named: arguments
    after up, down and version are ignored. *)
Theorem main_dispatch :
  ∀ (env : sql.Env) (menv : MigrateEnv) (faults : os.Faults)
    (Up Down : Proc (option migrate.error)) (w : World),
    main env menv faults Up Down [] w
      = (Exited 1, logged "Command is required: new, up, down, version" w) ∧
    (∀ command rest,
       command ≠ "new" → command ≠ "up" → command ≠ "down" → command ≠ "version" →
       main env menv faults Up Down (command :: rest) w
         = (Exited 1, logged ("Unknown command: " +:+ command) w)) ∧
    (∀ rest, length rest ≠ 1 →
       main env menv faults Up Down ("new" :: rest) w
         = (Exited 1, logged "Migration name is required" w)) ∧
    (∀ name, main env menv faults Up Down ["new"; name] w = createMigration faults name w) ∧
    (∀ rest, main env menv faults Up Down ("up" :: rest) w = runMigration env menv Up w) ∧
    (∀ rest, main env menv faults Up Down ("down" :: rest) w = runMigration env menv Down w) ∧
    (∀ rest, main env menv faults Up Down ("version" :: rest) w
             = getMigrationVersion env menv w).
Proof.
  intros env menv faults Up Down w. unfold main.
  split; [reflexivity|]. split.
  { intros command rest H1 H2 H3 H4. by rewrite !decide_False. }
  split.
  { intros rest Hlen. rewrite decide_True by done.
    rewrite decide_True by (cbn; lia). reflexivity. }
  repeat split; intros; reflexivity.
Qed.

Lemma main_dispatch_witness :
  main (sql.mkEnv (λ _ _, None) (λ _ _, None) (λ _, None) (λ _, None))
    (mkMigrateEnv (λ _, None) (λ _ _, None)) os.noFaults
    (λ w, (Returned None, w)) (λ w, (Returned None, w))
    ["status"] (mkWorld ∅ EmptyString [] ∅ 0 sql.emptyWorld None)
  = (Exited 1,
     logged "Unknown command: status" (mkWorld ∅ EmptyString [] ∅ 0 sql.emptyWorld None)) ∧
  main (sql.mkEnv (λ _ _, None) (λ _ _, None) (λ _, None) (λ _, None))
    (mkMigrateEnv (λ _, None) (λ _ _, None)) os.noFaults
    (λ w, (Returned None, w)) (λ w, (Returned None, w))
    ["new"; "add_users"; "extra"] (mkWorld ∅ EmptyString [] ∅ 0 sql.emptyWorld None)
  = (Exited 1,
     logged "Migration name is required"
            (mkWorld ∅ EmptyString [] ∅ 0 sql.emptyWorld None)).
Proof.
  destruct (main_dispatch (sql.mkEnv (λ _ _, None) (λ _ _, None) (λ _, None) (λ _, None))
              (mkMigrateEnv (λ _, None) (λ _ _, None)) os.noFaults
              (λ w, (Returned None, w)) (λ w, (Returned None, w))
              (mkWorld ∅ EmptyString [] ∅ 0 sql.emptyWorld None))
    as (_ & Hunknown & Hname & _).
  split.
  - apply (Hunknown "status" []); discriminate.
  - apply (Hname ["add_users"; "extra"]). cbn. lia.
Defined.

End Commands.

(** ** Cleaned paths *)

Section CleanIdempotent.
Import filepath spec spec2.

Lemma split_all_nosep (s : string) : Forall (λ seg, nosep seg) (split s).
Proof.
  induction s as [|a s IH]; [by repeat constructor|].
  cbn [split]. destruct (Ascii.eqb a Separator) eqn:Ha.
  - by constructor.
  - destruct (split s) as [|seg segs]; [by repeat constructor; cbn; rewrite Ha|].
    apply Forall_cons in IH as [Hseg Hsegs]. constructor; [|done].
    cbn. by rewrite Ha.
Qed.

Lemma split_Join (segs : list string) :
  segs ≠ [] → Forall (λ seg, nosep seg) segs →
  split (strings.Join segs "/") = segs.
Proof.
  unfold strings.Join. induction segs as [|x [|y segs] IH]; intros Hne Hall; [done|..].
  - apply Forall_cons in Hall as [Hx _]. by apply split_nosep.
  - apply Forall_cons in Hall as [Hx Hall].
    change (String.concat "/" (x :: y :: segs))
      with (x +:+ String Separator (String.concat "/" (y :: segs))).
    rewrite split_app_sep by done. by rewrite IH.
Qed.

Lemma last_snoc_plain (out : list string) (seg : string) :
  last (out ++ [seg]) = Some seg.
Proof. apply last_snoc. Qed.

Lemma cleanStep_kept rooted out seg :
  nosep seg → kept rooted out → kept rooted (cleanStep rooted out seg).
Proof.
  intros Hseg (dots & plains & -> & Hdots & Hplains & Hroot). unfold cleanStep.
  destruct (decide (seg = EmptyString)); [by exists dots, plains|].
  destruct (decide (seg = ".")); [by exists dots, plains|].
  destruct (decide (seg = "..")) as [->|Hdd].
  - induction plains as [|p plains _] using rev_ind.
    + rewrite app_nil_r. induction dots as [|d dots _] using rev_ind.
      * cbn. destruct rooted.
        -- by exists [], [].
        -- exists [".."], []. repeat split; [by repeat constructor|done|done].
      * rewrite last_snoc. apply Forall_app in Hdots as [Hdots Hd].
        apply Forall_singleton in Hd as ->. rewrite decide_True by done.
        exists ((dots ++ [".."]) ++ [".."])%list, []. rewrite app_nil_r.
        repeat split; [|done|].
        -- apply Forall_app; split; [|by repeat constructor].
           apply Forall_app; split; [done|by repeat constructor].
        -- intros Hr. specialize (Hroot Hr). by destruct dots.
    + rewrite app_assoc, last_snoc. apply Forall_app in Hplains as [Hplains Hp].
      apply Forall_inv in Hp. destruct Hp as (_ & _ & _ & Hp).
      rewrite decide_False by done. rewrite removelast_last.
      by exists dots, plains.
  - exists dots, (plains ++ [seg])%list. rewrite app_assoc.
    repeat split; [done| |done].
    apply Forall_app; split; [done|]. by repeat constructor.
Qed.

Lemma foldl_cleanStep_kept rooted out segs :
  Forall (λ seg, nosep seg) segs → kept rooted out →
  kept rooted (foldl (cleanStep rooted) out segs).
Proof.
  revert out. induction segs as [|seg segs IH]; intros out Hall Hout; [done|].
  apply Forall_cons in Hall as [Hseg Hall]. cbn.
  apply IH; [done|]. by apply cleanStep_kept.
Qed.

Lemma kept_parts_nosep rooted out :
  kept rooted out →
  Forall (λ seg, nosep seg) out ∧
  Forall (λ seg, seg ≠ EmptyString ∧ seg ≠ ".") out.
Proof.
  intros (dots & plains & -> & Hdots & Hplains & _). split.
  - apply Forall_app; split.
    + eapply Forall_impl; [exact Hdots|]. by intros seg ->.
    + eapply Forall_impl; [exact Hplains|]. by intros seg [H _].
  - apply Forall_app; split.
    + eapply Forall_impl; [exact Hdots|]. by intros seg ->.
    + eapply Forall_impl; [exact Hplains|]. intros seg (_ & H0 & H1 & _). done.
Qed.

(** Kept segments are what [Clean] keeps of them again. *)
Lemma foldl_cleanStep_fixed rooted out :
  kept rooted out → foldl (cleanStep rooted) [] out = out.
Proof.
  intros (dots & plains & -> & Hdots & Hplains & Hroot).
  rewrite foldl_app.
  assert (foldl (cleanStep rooted) [] dots = dots) as ->.
  { destruct rooted; [by rewrite (Hroot eq_refl)|]. clear Hroot.
    induction dots as [|d dots IH] using rev_ind; [done|].
    apply Forall_app in Hdots as [Hdots Hd]. apply Forall_singleton in Hd as ->.
    rewrite foldl_app, IH by done. cbn. unfold cleanStep.
    rewrite decide_False, decide_False, decide_True by done.
    induction dots as [|d' dots' _] using rev_ind; [done|].
    rewrite last_snoc. apply Forall_app in Hdots as [_ Hd'].
    apply Forall_singleton in Hd' as ->. by rewrite decide_True. }
  clear Hdots Hroot. induction plains as [|p plains IH] using rev_ind.
  - by rewrite app_nil_r.
  - apply Forall_app in Hplains as [Hplains Hp]. apply Forall_inv in Hp.
    rewrite foldl_app, IH by done. cbn. rewrite cleanStep_plain by done.
    by rewrite app_assoc.
Qed.

Lemma kept_nil rooted : kept rooted [].
Proof. exists [], []. by repeat split. Qed.

Lemma Join_head_shape (x : string) (segs : list string) :
  x ≠ EmptyString → nosep x →
  ∃ a rest, strings.Join (x :: segs) "/" = String a rest ∧
            Ascii.eqb a Separator = false.
Proof.
  intros Hx Hsep. destruct x as [|a x']; [done|].
  apply nosep_cons in Hsep as [Ha _]. unfold strings.Join.
  destruct segs as [|y segs].
  - by exists a, x'.
  - change (String.concat "/" (String a x' :: y :: segs))
      with (String a (x' +:+ "/" +:+ String.concat "/" (y :: segs))).
    by eexists _, _.
Qed.

Lemma Clean_idempotent (path : string) : Clean (Clean path) = Clean path.
Proof.
  unfold Clean at 2 3. destruct (decide (path = EmptyString)); [done|].
  set (rooted := String.prefix "/" path).
  set (out := foldl (cleanStep rooted) [] (split path)).
  assert (kept rooted out) as Hkept.
  { apply foldl_cleanStep_kept; [apply split_all_nosep|apply kept_nil]. }
  destruct (kept_parts_nosep _ _ Hkept) as [Hsep Hne].
  destruct rooted eqn:Hrooted.
  - unfold Clean. rewrite decide_False by done.
    rewrite (prefix_app_same "/" (strings.Join out "/")).
    change (split ("/" +:+ strings.Join out "/"))
      with (EmptyString :: split (strings.Join out "/")).
    cbn [foldl]. change (cleanStep true [] EmptyString) with (@nil string).
    destruct out as [|x out'] eqn:Hout; [done|].
    rewrite split_Join by done. by rewrite foldl_cleanStep_fixed.
  - destruct (decide (out = [])) as [Hnil|Hnonnil]; [done|].
    destruct out as [|x out'] eqn:Hout; [done|].
    apply Forall_cons in Hne as [[Hx _] _].
    pose proof Hsep as Hsep'. apply Forall_cons in Hsep' as [Hxsep _].
    destruct (Join_head_shape x out' Hx Hxsep) as (a & rest & Hshape & Ha).
    unfold Clean. rewrite decide_False by (rewrite Hshape; discriminate).
    assert (String.prefix "/" (strings.Join (x :: out') "/") = false) as ->.
    { rewrite Hshape. cbn [String.prefix].
      destruct (ascii_dec "/" a) as [<-|]; [discriminate Ha|reflexivity]. }
    rewrite split_Join by done. rewrite foldl_cleanStep_fixed by done.
    by rewrite decide_False.
Qed.

End CleanIdempotent.
(** ** Creating migration files, for every name *)

Section CreateMore.
Import main spec spec2.

Ltac run_proc :=
  unfold osCall, setFS, Printf, Fatal, main.gets;
  unfold mbind, mret, Proc_bind, Proc_ret, main.bind, main.ret;
  cbn -[filepath.Join os.MkdirAll os.WriteFile].

Lemma createMigration_stages (faults : os.Faults) (name : string) (w : World) :
  createMigration faults name w =
    match os.MkdirAll faults migrationsDir (fs w) with
    | (Some e, fs1) =>
        (Exited 1,
         logged ("Failed to create migrations directory: " +:+ e) (setFiles fs1 w))
    | (None, fs1) =>
        match os.WriteFile faults (upMigration name w) upText fs1 with
        | (Some e, fs2) =>
            (Exited 1,
             logged ("Failed to create up migration file: " +:+ e) (setFiles fs2 w))
        | (None, fs2) =>
            match os.WriteFile faults (downMigration name w) downText fs2 with
            | (Some e, fs3) =>
                (Exited 1,
                 logged ("Failed to create down migration file: " +:+ e)
                        (setFiles fs3 w))
            | (None, fs3) =>
                (Returned tt,
                 printed ("Created migration files:" +:+ nl +:+ upMigration name w +:+
                          nl +:+ downMigration name w +:+ nl)
                         (setFiles fs3 w))
            end
        end
    end.
Proof.
  unfold createMigration, upMigration, downMigration, upText, downText,
    logged, printed, setFiles.
  run_proc. destruct (os.MkdirAll faults migrationsDir (fs w)) as [[e|] fs1]; run_proc;
    [done|].
  destruct (os.WriteFile _ _ _ fs1) as [[e|] fs2]; run_proc; [done|].
  destruct (os.WriteFile _ _ _ fs2) as [[e|] fs3]; run_proc; done.
Qed.

Lemma lookupNode_None (files : os.FS) (key : string) :
  os.lookupNode files key = None → files !! key = None.
Proof.
  unfold os.lookupNode. destruct (decide (key = ".")); [done|].
  by destruct (decide (key = "/")).
Qed.

(** Whether or not it ends in an error, [mkdirs] keeps what the tree
    holds and adds directories only. *)
Lemma mkdirs_preserves faults segs dir (files : os.FS) :
  ∀ p x, files !! p = Some x → (os.mkdirs faults dir segs files).2 !! p = Some x.
Proof.
  revert dir files. induction segs as [|seg segs IH]; intros dir files p x Hp; [done|].
  cbn [os.mkdirs]. cbn zeta.
  destruct (os.lookupNode files (filepath.Clean (os.child dir seg)))
    as [[|data]|] eqn:Hnode; [by apply IH | done |].
  destruct (os.mkdir_fault faults _); [done|].
  apply IH. rewrite lookup_insert_ne; [done|].
  intros <-. apply lookupNode_None in Hnode. by rewrite Hnode in Hp.
Qed.

Lemma MkdirAll_preserves faults path (files : os.FS) :
  ∀ p x, files !! p = Some x → (os.MkdirAll faults path files).2 !! p = Some x.
Proof.
  unfold os.MkdirAll. destruct (String.prefix "/" path); apply mkdirs_preserves.
Qed.

Lemma mkdirs_adds_dirs faults segs dir (files : os.FS) :
  ∀ p d, (os.mkdirs faults dir segs files).2 !! p = Some (os.File d) →
         files !! p = Some (os.File d).
Proof.
  revert dir files. induction segs as [|seg segs IH]; intros dir files p d Hp; [done|].
  cbn [os.mkdirs] in Hp. cbn zeta in Hp.
  destruct (os.lookupNode files (filepath.Clean (os.child dir seg)))
    as [[|data]|] eqn:Hnode; [by eapply IH | done |].
  destruct (os.mkdir_fault faults _); [done|].
  specialize (IH _ _ _ _ Hp).
  apply lookup_insert_Some in IH as [[_ [=]]|[_ IH]]. done.
Qed.

Lemma MkdirAll_adds_dirs faults path (files : os.FS) :
  ∀ p d, (os.MkdirAll faults path files).2 !! p = Some (os.File d) →
         files !! p = Some (os.File d).
Proof.
  unfold os.MkdirAll. destruct (String.prefix "/" path); apply mkdirs_adds_dirs.
Qed.

(** [WriteFile] either fails before it creates the file, leaving the
    tree as it was, or puts a file at the cleaned name, where no
    directory was: the whole data when it returns nil, and what was
    written before the error otherwise. *)
Lemma WriteFile_effect faults name data (files : os.FS) :
  ((os.WriteFile faults name data files).1 ≠ None ∧
   (os.WriteFile faults name data files).2 = files) ∨
  (∃ d, (os.WriteFile faults name data files).2
          = <[filepath.Clean name := os.File d]> files ∧
        files !! filepath.Clean name ≠ Some os.Dir ∧
        ((os.WriteFile faults name data files).1 = None → d = data)).
Proof.
  unfold os.WriteFile. cbn zeta.
  destruct (os.lookupNode files (filepath.Dir _)) as [[|d]|]; [|by left..].
  assert (os.lookupNode files (filepath.Clean name) ≠ Some os.Dir →
          files !! filepath.Clean name ≠ Some os.Dir) as Hnode.
  { unfold os.lookupNode. destruct (decide (filepath.Clean name = ".")); [done|].
    by destruct (decide (filepath.Clean name = "/")). }
  destruct (os.lookupNode files (filepath.Clean name)) as [[|d]|];
    [by left| |];
    (destruct (os.open_fault faults name); [by left|]);
    (destruct (os.write_fault faults name) as [[n err]|];
     right; eexists; (split; [reflexivity|]); (split; [by apply Hnode|]); done).
Qed.

Lemma Clean_upMigration name w : filepath.Clean (upMigration name w) = upMigration name w.
Proof.
  unfold upMigration, filepath.Join, migrationsDir.
  rewrite decide_False by done. apply Clean_idempotent.
Qed.

Lemma Clean_downMigration name w :
  filepath.Clean (downMigration name w) = downMigration name w.
Proof.
  unfold downMigration, filepath.Join, migrationsDir.
  rewrite decide_False by done. apply Clean_idempotent.
Qed.

(** *** The two targets differ, whatever the name *)

(** Text without separator added at the end of a path extends its last
    segment. *)
Lemma split_app_nosep (s t : string) :
  nosep t →
  ∃ init l, filepath.split s = (init ++ [l])%list ∧
            filepath.split (s +:+ t) = (init ++ [l +:+ t])%list.
Proof.
  intros Ht. induction s as [|a s (init & l & Hs & Hst)].
  - exists [], EmptyString. split; [done|]. cbn. by apply split_nosep.
  - rewrite append_cons. cbn [filepath.split].
    destruct (Ascii.eqb a filepath.Separator).
    + exists (EmptyString :: init), l. by rewrite Hs, Hst.
    + rewrite Hs, Hst. destruct init as [|x init]; cbn.
      * by exists [], (String a l).
      * by exists (String a x :: init), l.
Qed.

Lemma Join_snoc (out : list string) (seg : string) :
  strings.Join (out ++ [seg]) "/" =
    (if decide (out = []) then EmptyString else strings.Join out "/" +:+ "/") +:+ seg.
Proof.
  unfold strings.Join. induction out as [|x [|y out] IH]; [done| |].
  { cbn [app String.concat]. rewrite decide_False by done. by rewrite append_assoc. }
  change (String.concat "/" ((x :: y :: out) ++ [seg]))
    with (x +:+ "/" +:+ String.concat "/" ((y :: out) ++ [seg])).
  rewrite IH. rewrite decide_False by done. rewrite decide_False by done.
  change (String.concat "/" (x :: y :: out))
    with (x +:+ "/" +:+ String.concat "/" (y :: out)).
  by rewrite !append_assoc.
Qed.

(** [Clean] keeps a plain last segment at the end, after a text that
    depends on the segments before it only. *)
Lemma Clean_snoc (path : string) (init : list string) (seg : string) :
  filepath.split path = (init ++ [seg])%list → plain seg →
  filepath.Clean path =
    (let out := foldl (filepath.cleanStep (String.prefix "/" path)) [] init in
     (if String.prefix "/" path then "/" else EmptyString) +:+
     (if decide (out = []) then EmptyString else strings.Join out "/" +:+ "/")) +:+ seg.
Proof.
  intros Hsplit Hplain. unfold filepath.Clean.
  assert (path ≠ EmptyString) as Hne.
  { intros ->. destruct Hplain as (_ & H0 & _).
    destruct init as [|x [|y init]]; cbn in Hsplit; [|discriminate..].
    injection Hsplit as <-. done. }
  rewrite decide_False by done. cbn zeta. rewrite Hsplit, foldl_app. cbn [foldl].
  rewrite cleanStep_plain by done. rewrite Join_snoc.
  destruct (String.prefix "/" path).
  - by rewrite append_assoc.
  - rewrite decide_False by (by destruct (foldl _ _ _)). done.
Qed.

Lemma upMigration_downMigration name w : upMigration name w ≠ downMigration name w.
Proof.
  unfold upMigration, downMigration, filepath.Join, migrationsDir.
  rewrite !decide_False by done. unfold strings.Join. cbn [String.concat].
  set (stem := "./db/migrations" +:+ "/" +:+ fmt.Sprintf_d (unixTime w) +:+ "_" +:+ name).
  assert (∀ suffix,
            "./db/migrations" +:+ "/" +:+
            (fmt.Sprintf_d (unixTime w) +:+ "_" +:+ name +:+ suffix)
            = stem +:+ suffix) as Hstem.
  { intros suffix. subst stem. by rewrite !append_assoc. }
  rewrite !Hstem.
  destruct (split_app_nosep stem ".up.sql") as (init & l & Hs & Hup); [done|].
  destruct (split_app_nosep stem ".down.sql") as (init' & l' & Hs' & Hdown); [done|].
  rewrite Hs in Hs'. apply app_inj_tail in Hs' as [<- <-].
  assert (nosep l) as Hl.
  { pose proof (split_all_nosep stem) as Hall. rewrite Hs in Hall.
    apply Forall_app in Hall as [_ Hall]. by apply Forall_inv in Hall. }
  assert (∀ suffix, nosep suffix → 2 < String.length suffix → plain (l +:+ suffix))
    as Hplain.
  { intros suffix Hsep Hlen. apply plain_long; [by apply nosep_app|].
    rewrite length_append. lia. }
  rewrite (Clean_snoc _ _ _ Hup) by (apply Hplain; [done|cbn; lia]).
  rewrite (Clean_snoc _ _ _ Hdown) by (apply Hplain; [done|cbn; lia]).
  assert (∀ suffix, String.prefix "/" (stem +:+ suffix) = false) as Hrel.
  { intros suffix. by subst stem. }
  rewrite !Hrel. cbn zeta.
  intros Heq%String.app_inj%String.app_inj. discriminate Heq.
Qed.

(** X20.  Whatever the name, whatever the operating system refuses and
    whatever the outcome, [createMigration] changes nothing but its two
    target files and the directories it makes: the database handles, the
    version table, the environment and the clock are as before, every
    directory is still a directory, every other file keeps its content,
    and no file appears other than the two targets. *)
Theorem createMigration_touches_only_its_targets :
  ∀ (faults : os.Faults) (name : string) (w : World),
    handles (createMigration faults name w).2 = handles w ∧
    versionTable (createMigration faults name w).2 = versionTable w ∧
    environ (createMigration faults name w).2 = environ w ∧
    (∀ p, fs w !! p = Some os.Dir →
          fs (createMigration faults name w).2 !! p = Some os.Dir) ∧
    (∀ p d, fs w !! p = Some (os.File d) →
            p ≠ upMigration name w → p ≠ downMigration name w →
            fs (createMigration faults name w).2 !! p = Some (os.File d)) ∧
    (∀ p d, fs (createMigration faults name w).2 !! p = Some (os.File d) →
            fs w !! p = Some (os.File d) ∨
            p = upMigration name w ∨ p = downMigration name w).
Proof.
  intros faults name w. rewrite createMigration_stages.
  pose proof (MkdirAll_preserves faults migrationsDir (fs w)) as Hkeep1.
  pose proof (MkdirAll_adds_dirs faults migrationsDir (fs w)) as Hnew1.
  destruct (os.MkdirAll faults migrationsDir (fs w)) as [[e|] fs1].
  { cbn. cbn in Hkeep1, Hnew1. repeat split; auto. }
  cbn [snd] in Hkeep1, Hnew1.
  assert (∀ fs2 : os.FS,
            fs2 = fs1 ∨
            (∃ d, fs2 = <[upMigration name w := os.File d]> fs1 ∧
                  fs1 !! upMigration name w ≠ Some os.Dir) →
            (∀ p, fs w !! p = Some os.Dir → fs2 !! p = Some os.Dir) ∧
            (∀ p d, fs w !! p = Some (os.File d) →
                    p ≠ upMigration name w → fs2 !! p = Some (os.File d)) ∧
            (∀ p d, fs2 !! p = Some (os.File d) →
                    fs w !! p = Some (os.File d) ∨ p = upMigration name w)) as Hstep2.
  { intros fs2 [->|(d0 & -> & Hupdir)].
    - repeat split; auto.
    - repeat split.
      + intros p Hp.
        assert (p ≠ upMigration name w) as Hu.
        { intros ->. by rewrite (Hkeep1 _ _ Hp) in Hupdir. }
        rewrite lookup_insert_ne by done. by apply Hkeep1.
      + intros p d Hp Hu. rewrite lookup_insert_ne by done. by apply Hkeep1.
      + intros p d Hp.
        apply lookup_insert_Some in Hp as [[<- _]|[_ Hp]]; [auto|].
        left. by apply Hnew1. }
  assert (∀ fs2 fs3 : os.FS,
            (∀ p, fs w !! p = Some os.Dir → fs2 !! p = Some os.Dir) →
            (∀ p d, fs w !! p = Some (os.File d) →
                    p ≠ upMigration name w → fs2 !! p = Some (os.File d)) →
            (∀ p d, fs2 !! p = Some (os.File d) →
                    fs w !! p = Some (os.File d) ∨ p = upMigration name w) →
            fs3 = fs2 ∨
            (∃ d, fs3 = <[downMigration name w := os.File d]> fs2 ∧
                  fs2 !! downMigration name w ≠ Some os.Dir) →
            (∀ p, fs w !! p = Some os.Dir → fs3 !! p = Some os.Dir) ∧
            (∀ p d, fs w !! p = Some (os.File d) →
                    p ≠ upMigration name w → p ≠ downMigration name w →
                    fs3 !! p = Some (os.File d)) ∧
            (∀ p d, fs3 !! p = Some (os.File d) →
                    fs w !! p = Some (os.File d) ∨
                    p = upMigration name w ∨ p = downMigration name w)) as Hstep3.
  { intros fs2 fs3 Hdirs Hfiles Hnew [->|(d0 & -> & Hdowndir)].
    - repeat split; [auto|auto|].
      intros p d Hp. destruct (Hnew p d Hp); auto.
    - repeat split.
      + intros p Hp.
        assert (p ≠ downMigration name w) as Hd.
        { intros ->. by rewrite (Hdirs _ Hp) in Hdowndir. }
        rewrite lookup_insert_ne by done. by apply Hdirs.
      + intros p d Hp Hu Hd. rewrite lookup_insert_ne by done. by apply Hfiles.
      + intros p d Hp.
        apply lookup_insert_Some in Hp as [[<- _]|[_ Hp]]; [auto|].
        destruct (Hnew p d Hp); auto. }
  pose proof (WriteFile_effect faults (upMigration name w) upText fs1) as Hup.
  rewrite Clean_upMigration in Hup.
  destruct (os.WriteFile faults (upMigration name w) upText fs1) as [e2 fs2].
  cbn [fst snd] in Hup.
  assert ((∀ p, fs w !! p = Some os.Dir → fs2 !! p = Some os.Dir) ∧
          (∀ p d, fs w !! p = Some (os.File d) →
                  p ≠ upMigration name w → fs2 !! p = Some (os.File d)) ∧
          (∀ p d, fs2 !! p = Some (os.File d) →
                  fs w !! p = Some (os.File d) ∨ p = upMigration name w))
    as (Hdirs2 & Hfiles2 & Hnew2).
  { apply Hstep2. destruct Hup as [[_ ->]|(d0 & -> & Hdir & _)]; [by left|].
    right. by exists d0. }
  destruct e2 as [e2|].
  { cbn. repeat split; [auto|auto|].
    intros p d Hp. destruct (Hnew2 p d Hp); auto. }
  pose proof (WriteFile_effect faults (downMigration name w) downText fs2) as Hdown.
  rewrite Clean_downMigration in Hdown.
  destruct (os.WriteFile faults (downMigration name w) downText fs2) as [e3 fs3].
  cbn [fst snd] in Hdown.
  assert ((∀ p, fs w !! p = Some os.Dir → fs3 !! p = Some os.Dir) ∧
          (∀ p d, fs w !! p = Some (os.File d) →
                  p ≠ upMigration name w → p ≠ downMigration name w →
                  fs3 !! p = Some (os.File d)) ∧
          (∀ p d, fs3 !! p = Some (os.File d) →
                  fs w !! p = Some (os.File d) ∨
                  p = upMigration name w ∨ p = downMigration name w))
    as (Hdirs3 & Hfiles3 & Hnew3).
  { apply (Hstep3 fs2 fs3 Hdirs2 Hfiles2 Hnew2).
    destruct Hdown as [[_ ->]|(d0 & -> & Hdir & _)]; [by left|].
    right. by exists d0. }
  destruct e3 as [e3|]; cbn; repeat split; auto.
Qed.

Lemma createMigration_touches_only_its_targets_witness :
  fs (createMigration os.noFaults "x/../../y"
        (mkWorld {["db" := os.Dir; "db/schema.sql" := os.File "CREATE TABLE t(x);"]}
                 EmptyString [] ∅ 5 sql.emptyWorld None)).2 !! "db/schema.sql"
  = Some (os.File "CREATE TABLE t(x);").
Proof.
  destruct (createMigration_touches_only_its_targets os.noFaults "x/../../y"
              (mkWorld {["db" := os.Dir; "db/schema.sql" := os.File "CREATE TABLE t(x);"]}
                       EmptyString [] ∅ 5 sql.emptyWorld None))
    as (_ & _ & _ & _ & Hfiles & _).
  apply Hfiles; [reflexivity| |]; by vm_compute.
Defined.

(** X21.  [createMigration] does not undo a half-made pair: whenever the
    last logged message is the failure of the down file, the process has
    exited with status 1, nothing was printed, and the up file written
    just before is still there with its template text. *)
Theorem createMigration_failed_down_keeps_up :
  ∀ (faults : os.Faults) (name : string) (w : World) (e : string),
    stderr (createMigration faults name w).2
      = (stderr w ++ ["Failed to create down migration file: " +:+ e])%list →
    (createMigration faults name w).1 = Exited 1 ∧
    stdout (createMigration faults name w).2 = stdout w ∧
    fs (createMigration faults name w).2 !! upMigration name w = Some (os.File upText).
Proof.
  intros faults name w e. rewrite createMigration_stages.
  destruct (os.MkdirAll faults migrationsDir (fs w)) as [[e1|] fs1].
  { cbn. intros Heq%app_inv_head. injection Heq as Heq. discriminate Heq. }
  pose proof (WriteFile_effect faults (upMigration name w) upText fs1) as Hup.
  rewrite Clean_upMigration in Hup.
  destruct (os.WriteFile faults (upMigration name w) upText fs1) as [[e2|] fs2].
  { cbn. intros Heq%app_inv_head. injection Heq as Heq. discriminate Heq. }
  cbn [fst snd] in Hup. destruct Hup as [[Hup _]|(d & -> & _ & Hd)]; [done|].
  rewrite (Hd eq_refl).
  pose proof (WriteFile_effect faults (downMigration name w) downText
                (<[upMigration name w := os.File upText]> fs1)) as Hdown.
  rewrite Clean_downMigration in Hdown.
  destruct (os.WriteFile faults (downMigration name w) downText _) as [[e3|] fs3].
  - cbn. intros _. cbn [fst snd] in Hdown.
    destruct Hdown as [[_ ->]|(d3 & -> & _)].
    + by rewrite lookup_insert_eq.
    + rewrite lookup_insert_ne by (apply not_eq_sym, upMigration_downMigration).
      by rewrite lookup_insert_eq.
  - cbn. intros Heq. rewrite <- (app_nil_r (stderr w)) in Heq at 1.
    apply app_inv_head in Heq. discriminate Heq.
Qed.

Lemma createMigration_failed_down_keeps_up_witness :
  fs (createMigration os.noFaults "add_users"
        (mkWorld {["db" := os.Dir; "db/migrations" := os.Dir;
                   "db/migrations/5_add_users.down.sql" := os.Dir]} EmptyString [] ∅ 5
                 sql.emptyWorld None)).2 !! "db/migrations/5_add_users.up.sql"
  = Some (os.File upText).
Proof.
  destruct (createMigration_failed_down_keeps_up os.noFaults "add_users"
              (mkWorld {["db" := os.Dir; "db/migrations" := os.Dir;
                         "db/migrations/5_add_users.down.sql" := os.Dir]}
                       EmptyString [] ∅ 5 sql.emptyWorld None)
              "open db/migrations/5_add_users.down.sql: is a directory")
    as (_ & _ & Hup); [by vm_compute|].
  exact Hup.
Defined.

(** X22.  A second creation with the same name within the same second
    overwrites: for a name without separator, when the up file of that
    name and timestamp already exists, whatever it holds, and the
    operating system refuses none of the calls, the command succeeds and
    the file holds the template text afterwards, and so does the down
    file. *)
Theorem createMigration_overwrites_existing_pair :
  ∀ (faults : os.Faults) (name : string) (w : World) (old : string),
    nosep name →
    unhindered faults (unixTime w) name →
    dirOrFree (fs w) "db" → dirOrFree (fs w) "db/migrations" →
    fs w !! migrationPath (unixTime w) name ".up.sql" = Some (os.File old) →
    fs w !! migrationPath (unixTime w) name ".down.sql" ≠ Some os.Dir →
    (createMigration faults name w).1 = Returned tt ∧
    fs (createMigration faults name w).2 !! migrationPath (unixTime w) name ".up.sql"
      = Some (os.File upText) ∧
    fs (createMigration faults name w).2 !! migrationPath (unixTime w) name ".down.sql"
      = Some (os.File downText).
Proof.
  intros faults name w old Hname Hfaults Hdb Hmig Hup Hdown.
  rewrite (createMigration_run faults name w Hname Hfaults Hdb Hmig);
    [|by rewrite Hup|done].
  split; [done|]. cbn [snd fs]. split.
  - rewrite lookup_insert_ne by (apply not_eq_sym, migrationPath_up_down).
    by rewrite lookup_insert_eq.
  - by rewrite lookup_insert_eq.
Qed.

Lemma createMigration_overwrites_existing_pair_witness :
  fs (createMigration os.noFaults "add_users"
        (mkWorld {["db" := os.Dir; "db/migrations" := os.Dir;
                   "db/migrations/5_add_users.up.sql" :=
                     os.File "CREATE TABLE users(id INTEGER PRIMARY KEY);"]}
                 EmptyString [] ∅ 5 sql.emptyWorld None)).2
    !! "db/migrations/5_add_users.up.sql"
  = Some (os.File upText).
Proof.
  destruct (createMigration_overwrites_existing_pair os.noFaults "add_users"
              (mkWorld {["db" := os.Dir; "db/migrations" := os.Dir;
                         "db/migrations/5_add_users.up.sql" :=
                           os.File "CREATE TABLE users(id INTEGER PRIMARY KEY);"]}
                       EmptyString [] ∅ 5 sql.emptyWorld None)
              "CREATE TABLE users(id INTEGER PRIMARY KEY);")
    as (_ & Hup & _);
    [reflexivity | by repeat split | by right | by right | reflexivity
    | by vm_compute |].
  exact Hup.
Defined.

End CreateMore.

(** ** Vectors of float32 *)

Section Vectors.
Import vec.
Variable float32 : Type.
Variable ofBits : Z → float32.

Lemma readElems_enough (count : nat) (data : list Byte.byte) :
  (4 * count ≤ length data)%nat →
  ∃ v, readElems float32 ofBits count data = Some v ∧ length v = count.
Proof.
  revert data. induction count as [|count IH]; intros data Hlen.
  - by exists [].
  - destruct data as [|b0 [|b1 [|b2 [|b3 rest]]]]; cbn in Hlen; try lia.
    destruct (IH rest) as (v & Hv & Hlenv); [lia|].
    cbn [readElems]. rewrite Hv. eexists. split; [done|]. cbn. by rewrite Hlenv.
Qed.

Lemma readElems_lookup (count : nat) (data : list Byte.byte) (v : list float32)
    (k : nat) (b0 b1 b2 b3 : Byte.byte) :
  readElems float32 ofBits count data = Some v →
  (k < count)%nat →
  data !! (4 * k)%nat = Some b0 → data !! (4 * k + 1)%nat = Some b1 →
  data !! (4 * k + 2)%nat = Some b2 → data !! (4 * k + 3)%nat = Some b3 →
  v !! k = Some (ofBits (Uint32 b0 b1 b2 b3)).
Proof.
  revert data v k. induction count as [|count IH]; intros data v k Hread Hk; [lia|].
  destruct data as [|c0 [|c1 [|c2 [|c3 rest]]]]; try discriminate Hread.
  cbn [readElems] in Hread.
  destruct (readElems float32 ofBits count rest) as [v'|] eqn:Hv'; [|done].
  injection Hread as <-. destruct k as [|k].
  - cbn. by intros [= ->] [= ->] [= ->] [= ->].
  - replace (4 * S k)%nat with (S (S (S (S (4 * k))))) by lia.
    replace (S (S (S (S (4 * k)))) + 1)%nat with (S (S (S (S (4 * k + 1))))) by lia.
    replace (S (S (S (S (4 * k)))) + 2)%nat with (S (S (S (S (4 * k + 2))))) by lia.
    replace (S (S (S (S (4 * k)))) + 3)%nat with (S (S (S (S (4 * k + 3))))) by lia.
    cbn [lookup list_lookup]. intros H0 H1 H2 H3.
    apply (IH rest v' k); [done|lia|done..].
Qed.

(** X23.  [DeserializeFloat32] fails on exactly the inputs whose length
    is not a multiple of four, with the invalid-length error; on every
    other input, the empty one included, it succeeds with one value for
    every four bytes: the read that follows the length test never runs
    out of bytes. *)
Theorem DeserializeFloat32_fails_only_on_length :
  ∀ (data : list Byte.byte),
    ((length data mod 4)%nat ≠ 0%nat →
     DeserializeFloat32 float32 ofBits data
       = Err "invalid data length: must be a multiple of 4") ∧
    ((length data mod 4)%nat = 0%nat →
     ∃ vector,
       DeserializeFloat32 float32 ofBits data = Ok vector ∧
       (4 * length vector)%nat = length data).
Proof.
  intros data. unfold DeserializeFloat32. split; intros Hmod.
  - by rewrite decide_True.
  - rewrite decide_False by lia. cbn zeta.
    pose proof (Nat.div_mod_eq (length data) 4) as Hdiv.
    destruct (readElems_enough (length data / 4) data) as (v & Hv & Hlen); [lia|].
    unfold binaryRead. rewrite Hv. exists v. split; [done|]. lia.
Qed.

Local Open Scope Z_scope.

Lemma byte_range (b : Byte.byte) : (0 ≤ Z.of_N (Byte.to_N b) < 256)%Z.
Proof. destruct b; vm_compute; split; congruence. Qed.

Lemma testbit_above (a n i : Z) :
  0 ≤ a < 2 ^ n → n ≤ i → Z.testbit a i = false.
Proof.
  intros Ha Hi. destruct (Z.eq_dec a 0) as [->|Hne]; [apply Z.bits_0|].
  apply Z.bits_above_log2; [lia|].
  assert (Z.log2 a < n); [|lia]. apply Z.log2_lt_pow2; lia.
Qed.

Lemma lor_shiftl_disjoint (a b n : Z) :
  0 ≤ n → 0 ≤ a < 2 ^ n →
  Z.lor a (Z.shiftl b n) = a + b * 2 ^ n.
Proof.
  intros Hn Ha. rewrite <- Z.shiftl_mul_pow2 by done.
  assert (Z.land a (Z.shiftl b n) = 0) as Hland.
  { apply Z.bits_inj'. intros i Hi. rewrite Z.land_spec, Z.bits_0.
    destruct (Z.lt_ge_cases i n).
    - by rewrite Z.shiftl_spec_low, andb_false_r.
    - by rewrite (testbit_above a n i). }
  rewrite <- Z.lxor_lor by done. symmetry. by apply Z.add_nocarry_lxor.
Qed.

Lemma Uint32_weights (b0 b1 b2 b3 : Byte.byte) :
  Uint32 b0 b1 b2 b3 =
    (Z.of_N (Byte.to_N b0) + 256 * Z.of_N (Byte.to_N b1) +
     65536 * Z.of_N (Byte.to_N b2) + 16777216 * Z.of_N (Byte.to_N b3))%Z.
Proof.
  unfold Uint32.
  pose proof (byte_range b0). pose proof (byte_range b1).
  pose proof (byte_range b2). pose proof (byte_range b3).
  set (x0 := Z.of_N (Byte.to_N b0)) in *. set (x1 := Z.of_N (Byte.to_N b1)) in *.
  set (x2 := Z.of_N (Byte.to_N b2)) in *. set (x3 := Z.of_N (Byte.to_N b3)) in *.
  replace (Z.shiftl x3 24) with (Z.shiftl (Z.shiftl x3 8) 16)
    by (rewrite Z.shiftl_shiftl by lia; reflexivity).
  rewrite <- Z.shiftl_lor, (lor_shiftl_disjoint x2 x3 8) by lia.
  replace (Z.shiftl (x2 + x3 * 2 ^ 8) 16)
    with (Z.shiftl (Z.shiftl (x2 + x3 * 2 ^ 8) 8) 8)
    by (rewrite Z.shiftl_shiftl by lia; reflexivity).
  rewrite <- Z.shiftl_lor, (lor_shiftl_disjoint x1 _ 8) by lia.
  rewrite (lor_shiftl_disjoint x0 _ 8) by lia. lia.
Qed.

(** X24.  The values are read in order and little-endian: the [k]-th
    value of the result is decoded from the bytes at [4k] to [4k+3], the
    first of them the least significant. *)
Theorem DeserializeFloat32_little_endian :
  ∀ (data : list Byte.byte) (vector : list float32) (k : nat)
    (b0 b1 b2 b3 : Byte.byte),
    DeserializeFloat32 float32 ofBits data = Ok vector →
    data !! (4 * k)%nat = Some b0 → data !! (4 * k + 1)%nat = Some b1 →
    data !! (4 * k + 2)%nat = Some b2 → data !! (4 * k + 3)%nat = Some b3 →
    vector !! k =
      Some (ofBits (Z.of_N (Byte.to_N b0) + 256 * Z.of_N (Byte.to_N b1) +
                    65536 * Z.of_N (Byte.to_N b2) +
                    16777216 * Z.of_N (Byte.to_N b3))%Z).
Proof.
  intros data vector k b0 b1 b2 b3. unfold DeserializeFloat32.
  destruct (decide _) as [|Hmod]; [done|]. cbn zeta. unfold binaryRead.
  destruct (readElems float32 ofBits (length data / 4) data) as [v|] eqn:Hv.
  2: { by destruct (decide (data = [])). }
  intros [= <-] H0 H1 H2 H3. rewrite <- Uint32_weights.
  apply (readElems_lookup _ _ _ _ _ _ _ _ Hv); [|done..].
  apply lookup_lt_Some in H3.
  pose proof (Nat.div_mod_eq (length data) 4). lia.
Qed.

End Vectors.

Lemma DeserializeFloat32_fails_only_on_length_witness :
  vec.DeserializeFloat32 Z id [Byte.x01; Byte.x02; Byte.x03]
    = Err "invalid data length: must be a multiple of 4" ∧
  ∃ vector, vec.DeserializeFloat32 Z id
              [Byte.x00; Byte.x00; Byte.x80; Byte.x3f; Byte.x00; Byte.x00; Byte.x00; Byte.x40]
            = Ok vector ∧ length vector = 2.
Proof.
  split.
  - apply (DeserializeFloat32_fails_only_on_length Z id [Byte.x01; Byte.x02; Byte.x03]).
    cbn. lia.
  - destruct (DeserializeFloat32_fails_only_on_length Z id
                [Byte.x00; Byte.x00; Byte.x80; Byte.x3f;
                 Byte.x00; Byte.x00; Byte.x00; Byte.x40]) as [_ Hok].
    destruct Hok as (vector & Hv & Hlen); [reflexivity|].
    exists vector. split; [exact Hv|]. cbn in Hlen. lia.
Defined.

Lemma DeserializeFloat32_little_endian_witness :
  vec.DeserializeFloat32 Z id [Byte.x00; Byte.x00; Byte.x80; Byte.x3f]
    = Ok [1065353216%Z] ∧
  [1065353216%Z] !! 0%nat = Some 1065353216%Z.
Proof.
  split; [reflexivity|].
  apply (DeserializeFloat32_little_endian Z id
           [Byte.x00; Byte.x00; Byte.x80; Byte.x3f] [1065353216%Z] 0
           Byte.x00 Byte.x00 Byte.x80 Byte.x3f); reflexivity.
Defined.

